(** * Kamel Kross storefront: catalog feed, image links and cart store

  A shallow embedding of [js/products.js] and [js/cart.js], the
  properties their specification states about them, and further
  properties of the catalog, its views, the image links and the cart.

  Conventions of the embedding.
  - A JavaScript string is a [string]; one [ascii] stands for one code
    unit, so the model covers the code units below 256.
  - A JavaScript object built with computed keys is a [gmap string _];
    [undefined] is an absent key or [None].
  - A method that reads or writes [this], the DOM, [localStorage] or the
    network takes the state it touches and returns the new one. *)

From Stdlib Require Import ZArith Ascii String List Bool Lia.
From stdpp Require Import gmap strings list.
Import ListNotations.

Local Open Scope string_scope.
Local Open Scope list_scope.

(** ** JavaScript strings *)

Module JSString.

Definition dquote : ascii := "034"%char.
Definition comma : ascii := ","%char.
Definition newline : ascii := "010"%char.

(** [String.prototype.trim] and the regular expression class [\s] agree on
    white space; below 256 these are TAB, LF, VT, FF, CR, SP and NBSP. *)
Definition is_white (c : ascii) : bool :=
  match c with
  | "009" | "010" | "011" | "012" | "013" | " " | "160" => true
  | _ => false
  end%char.

(** [!s] for a string *)
Definition is_empty (s : string) : bool :=
  match s with EmptyString => true | String _ _ => false end.

(** [String.prototype.trimStart], [trimEnd] and [trim] *)
Fixpoint trimStart (s : string) : string :=
  match s with
  | EmptyString => EmptyString
  | String c s' => if is_white c then trimStart s' else s
  end.

Fixpoint trimEnd (s : string) : string :=
  match s with
  | EmptyString => EmptyString
  | String c s' =>
      let t := trimEnd s' in
      if is_white c && is_empty t then EmptyString else String c t
  end.

Definition trim (s : string) : string := trimEnd (trimStart s).

(** [s += c] *)
Definition push (s : string) (c : ascii) : string :=
  s +:+ String c EmptyString.

(** The code units of a string. *)
Definition chars (s : string) : list ascii := list_ascii_of_string s.

(** [String.prototype.toLowerCase] on one code unit: the letters A-Z and
    the Latin-1 capitals (all of 192-222 but the multiplication sign).
    Below 256 the lower case of a code unit does not depend on the code
    units around it; above, it can (the Greek capital sigma at the end of
    a word), and such strings are outside the model. *)
Definition lower_char (c : ascii) : ascii :=
  let n := N_of_ascii c in
  if ((65 <=? n) && (n <=? 90))%N
     || ((192 <=? n) && (n <=? 222) && negb (n =? 215))%N
  then ascii_of_N (n + 32) else c.

Fixpoint toLowerCase (s : string) : string :=
  match s with
  | EmptyString => EmptyString
  | String c s' => String (lower_char c) (toLowerCase s')
  end.

(** [s.replace(/\s+/g, r)]: every maximal run of white space becomes one
    copy of [r]; [in_run] tells that the run was already replaced. *)
Fixpoint replace_white_runs (r : string) (in_run : bool) (s : string)
    : string :=
  match s with
  | EmptyString => EmptyString
  | String c s' =>
      if is_white c then
        if in_run then replace_white_runs r true s'
        else r +:+ replace_white_runs r true s'
      else String c (replace_white_runs r false s')
  end.

(** [s.split(sep)] for a separator of one code unit; the empty string
    splits into one empty string. *)
Fixpoint split (sep : ascii) (s : string) : list string :=
  match s with
  | EmptyString => [EmptyString]
  | String c s' =>
      if Ascii.eqb c sep then EmptyString :: split sep s'
      else match split sep s' with
           | h :: t => String c h :: t
           | [] => [String c EmptyString]
           end
  end.

(** [s.startsWith(p)], and the rest of [s] after [p]. *)
Fixpoint strip_prefix (p s : string) : option string :=
  match p, s with
  | EmptyString, _ => Some s
  | String a p', String b s' =>
      if Ascii.eqb a b then strip_prefix p' s' else None
  | String _ _, EmptyString => None
  end.

(** [s.includes(p)] *)
Fixpoint includes (s p : string) : bool :=
  match strip_prefix p s with
  | Some _ => true
  | None =>
      match s with
      | EmptyString => false
      | String _ s' => includes s' p
      end
  end.

(** The code unit [c] occurs in [s]. *)
Definition has_char (c : ascii) (s : string) : Prop := In c (chars s).

End JSString.

Import JSString.

(** ** JavaScript numbers

  A finite number is kept exactly, as a decimal in lowest form: an
  integer, or a mantissa that is not a multiple of ten together with its
  number of decimal places. The three values that are not finite are
  kept as such. The results of [+], [*] and [parseFloat] overflow to an
  infinity and underflow to zero where binary64 does. The rounding of a
  result within that range to the nearest binary64 value, and the sign of
  zero, are outside the model. *)

Module JSNumber.
Local Open Scope Z_scope.

Inductive nzdigit := D1 | D2 | D3 | D4 | D5 | D6 | D7 | D8 | D9.

Definition digit_value (r : nzdigit) : Z :=
  match r with
  | D1 => 1 | D2 => 2 | D3 => 3 | D4 => 4 | D5 => 5
  | D6 => 6 | D7 => 7 | D8 => 8 | D9 => 9
  end.

Definition nzdigit_of (z : Z) : nzdigit :=
  match z with
  | 1 => D1 | 2 => D2 | 3 => D3 | 4 => D4 | 5 => D5
  | 6 => D6 | 7 => D7 | 8 => D8 | _ => D9
  end.

(** [Frac q r d] is [(10 * q + r) / 10 ^ (d + 1)]. *)
Inductive number :=
| Int (z : Z)
| Frac (q : Z) (r : nzdigit) (d : nat)
| NaN
| Infinity
| NegInfinity.

Definition pow10 (n : nat) : Z := 10 ^ Z.of_nat n.

(** The number [m / 10 ^ d]. *)
Fixpoint decimal (m : Z) (d : nat) : number :=
  match d with
  | O => Int m
  | S d' =>
      if m mod 10 =? 0 then decimal (m / 10) d'
      else Frac (m / 10) (nzdigit_of (m mod 10)) d'
  end.

(** Mantissa and decimal places of a finite number. *)
Definition finite (x : number) : option (Z * nat) :=
  match x with
  | Int z => Some (z, O)
  | Frac q r d => Some (10 * q + digit_value r, S d)
  | NaN | Infinity | NegInfinity => None
  end.

Definition is_finite (x : number) : bool :=
  match finite x with Some _ => true | None => false end.

(** The range of binary64. A magnitude of at most [2 ^ -1075] rounds to
    zero (the tie with the least positive value goes to the even one), and
    a magnitude of at least [huge], which is [2 ^ 1024 - 2 ^ 970], rounds
    to an infinity. *)
Definition huge : Z := 2 ^ 1024 - 2 ^ 970.

Definition underflows (m : Z) (d : nat) : bool :=
  Z.abs m * 2 ^ 1075 <=? pow10 d.

Definition overflows (m : Z) (d : nat) : bool :=
  huge * pow10 d <=? Z.abs m.

(** The exact result [x] of an operation, brought into that range. *)
Definition in_range (x : number) : number :=
  match finite x with
  | Some (m, d) =>
      if underflows m d then Int 0
      else if overflows m d then (if m <? 0 then NegInfinity else Infinity)
      else x
  | None => x
  end.

(** [x + y] *)
Definition add (x y : number) : number :=
  match x, y with
  | NaN, _ | _, NaN => NaN
  | Infinity, NegInfinity | NegInfinity, Infinity => NaN
  | Infinity, _ | _, Infinity => Infinity
  | NegInfinity, _ | _, NegInfinity => NegInfinity
  | _, _ =>
      match finite x, finite y with
      | Some (m1, d1), Some (m2, d2) =>
          in_range (decimal (m1 * pow10 d2 + m2 * pow10 d1) (d1 + d2))
      | _, _ => NaN
      end
  end.

(** The sign of a number that is not [NaN]: -1, 0 or 1. *)
Definition sign (x : number) : Z :=
  match x with
  | Int z => Z.sgn z
  | Frac q r d => Z.sgn (10 * q + digit_value r)
  | NaN => 0
  | Infinity => 1
  | NegInfinity => -1
  end.

(** [x * y] *)
Definition mul (x y : number) : number :=
  match x, y with
  | NaN, _ | _, NaN => NaN
  | _, _ =>
      match finite x, finite y with
      | Some (m1, d1), Some (m2, d2) => in_range (decimal (m1 * m2) (d1 + d2))
      | _, _ =>
          match sign x * sign y with
          | 0 => NaN
          | Zpos _ => Infinity
          | Zneg _ => NegInfinity
          end
      end
  end.

(** [x <= y] *)
Definition leb (x y : number) : bool :=
  match x, y with
  | NaN, _ | _, NaN => false
  | NegInfinity, _ | _, Infinity => true
  | Infinity, _ | _, NegInfinity => false
  | _, _ =>
      match finite x, finite y with
      | Some (m1, d1), Some (m2, d2) => m1 * pow10 d2 <=? m2 * pow10 d1
      | _, _ => false
      end
  end.

(** [x > y] *)
Definition gtb (x y : number) : bool :=
  match x, y with
  | NaN, _ | _, NaN => false
  | _, _ => negb (leb x y)
  end.

(** [ToBoolean]: zero and [NaN] are falsy. *)
Definition truthy (x : number) : bool :=
  match x with
  | Int z => negb (z =? 0)
  | Frac _ _ _ | Infinity | NegInfinity => true
  | NaN => false
  end.

(** *** [parseFloat] *)

Definition digit_of (c : ascii) : option Z :=
  let n := N_of_ascii c in
  if ((48 <=? n) && (n <=? 57))%N then Some (Z.of_N n - 48) else None.

(** The longest run of decimal digits at the head of [s], read after the
    digits already accumulated in [acc]: value, digits read, rest. *)
Fixpoint take_digits (acc : Z) (count : nat) (s : string)
    : Z * nat * string :=
  match s with
  | EmptyString => (acc, count, s)
  | String c s' =>
      match digit_of c with
      | Some v => take_digits (10 * acc + v) (S count) s'
      | None => (acc, count, s)
      end
  end.

Definition take_sign (s : string) : bool * string :=
  match s with
  | String "-" s' => (true, s')
  | String "+" s' => (false, s')
  | _ => (false, s)
  end.

(** An exponent part [e], [E], optional sign, at least one digit; an
    incomplete one is not part of the literal and counts as absent. *)
Definition take_exponent (s : string) : Z :=
  match s with
  | String c s' =>
      if Ascii.eqb c "e" || Ascii.eqb c "E" then
        let '(neg, s'') := take_sign s' in
        let '(v, n, _) := take_digits 0 O s'' in
        match n with
        | O => 0
        | S _ => if neg then - v else v
        end
      else 0
  | EmptyString => 0
  end.

(** [m / 10 ^ places * 10 ^ e] *)
Definition scale (m : Z) (places : nat) (e : Z) : number :=
  if 0 <=? e then decimal (m * 10 ^ e) places
  else decimal m (places + Z.to_nat (- e)).

(** [parseFloat(input)]: leading white space is skipped, the longest
    prefix that is a decimal literal is converted, and an input without
    such a prefix gives [NaN]. A literal too small for binary64 gives 0
    and one too large gives an infinity. *)
Definition parseFloat (input : string) : number :=
  let '(neg, s) := take_sign (trimStart input) in
  match strip_prefix "Infinity" s with
  | Some _ => if neg then NegInfinity else Infinity
  | None =>
      let '(ip, ni, s1) := take_digits 0 O s in
      let '(m, nf, s2) :=
        match s1 with
        | String "." s1' => take_digits ip O s1'
        | _ => (ip, O, s1)
        end in
      match (ni + nf)%nat with
      | O => NaN
      | S _ =>
          in_range (scale (if neg then - m else m) nf (take_exponent s2))
      end
  end.

(** *** [Number.prototype.toString] *)

Definition digit_char (v : Z) : ascii := ascii_of_N (Z.to_N (48 + v mod 10)).

(** The last [k] decimal digits of [n], put in front of [acc]. *)
Fixpoint last_digits (k : nat) (n : Z) (acc : string) : string :=
  match k with
  | O => acc
  | S k' => last_digits k' (n / 10) (String (digit_char n) acc)
  end.

(** The number of decimal digits of [n >= 0]; [fuel] bounds the count. *)
Fixpoint count_digits (fuel : nat) (n : Z) : nat :=
  match fuel with
  | O => 1
  | S fuel' => if n <? 10 then 1%nat else S (count_digits fuel' (n / 10))
  end.

Definition digit_count (n : Z) : nat := count_digits (Z.to_nat (Z.log2 n)) n.

(** A natural number in decimal, without leading zeros. *)
Definition natural (n : Z) : string := last_digits (digit_count n) n EmptyString.

(** The point and the [d] digits [f] after it; nothing when [d] is 0. *)
Definition fraction_text (d : nat) (f : Z) : string :=
  match d with
  | O => EmptyString
  | S _ => String "." (last_digits d f EmptyString)
  end.

(** [m / 10 ^ d] written with [d] digits after the point. *)
Definition positional (m : Z) (d : nat) : string :=
  (if m <? 0 then "-" else EmptyString)
  +:+ natural (Z.abs m / pow10 d)
  +:+ fraction_text d (Z.abs m mod pow10 d).

(** [a] without its trailing zeros, and how many they were; [fuel] bounds
    their number. *)
Fixpoint strip_zeros (fuel : nat) (a : Z) : Z * nat :=
  match fuel with
  | O => (a, O)
  | S fuel' =>
      if a mod 10 =? 0 then
        let '(s, z) := strip_zeros fuel' (a / 10) in (s, S z)
      else (a, O)
  end.

(** The significant digits [s] of a mantissa [a > 0] and the number of
    zeros that follow them. *)
Definition significant (a : Z) : Z * nat := strip_zeros (digit_count a) a.

(** The number of digits of [m / 10 ^ d] before the decimal point, the
    [n] of [Number::toString]: with [k] significant digits [s], the number
    is [s * 10 ^ (n - k)]. *)
Definition point (m : Z) (d : nat) : Z :=
  let '(s, z) := significant (Z.abs m) in
  Z.of_nat (digit_count s) + Z.of_nat z - Z.of_nat d.

(** [m / 10 ^ d] in exponent notation: the first significant digit, the
    others after a point, and the signed exponent. *)
Definition exponential (m : Z) (d : nat) : string :=
  let '(s, _) := significant (Z.abs m) in
  let k := digit_count s in
  let e := point m d - 1 in
  (if m <? 0 then "-" else EmptyString)
  +:+ String (digit_char (s / pow10 (k - 1)))
        (fraction_text (k - 1) (s mod pow10 (k - 1)))
  +:+ String "e" (String (if 0 <=? e then "+" else "-") (natural (Z.abs e))).

(** The text of the finite number [m / 10 ^ d]: positional when the point
    falls within 21 digits after the first and fewer than 6 zeros before
    it, in exponent notation otherwise. *)
Definition number_text (m : Z) (d : nat) : string :=
  if m =? 0 then "0"
  else if (-6 <? point m d) && (point m d <=? 21) then positional m d
  else exponential m d.

Definition toString (x : number) : string :=
  match x with
  | NaN => "NaN"
  | Infinity => "Infinity"
  | NegInfinity => "-Infinity"
  | _ =>
      match finite x with
      | Some (m, d) => number_text m d
      | None => EmptyString
      end
  end.

(** *** Subtraction and truncation *)

(** [x - y], used for its sign only, which binary64 gives exactly. *)
Definition sub (x y : number) : number :=
  match x, y with
  | NaN, _ | _, NaN => NaN
  | Infinity, Infinity | NegInfinity, NegInfinity => NaN
  | Infinity, _ | _, NegInfinity => Infinity
  | NegInfinity, _ | _, Infinity => NegInfinity
  | _, _ =>
      match finite x, finite y with
      | Some (m1, d1), Some (m2, d2) =>
          decimal (m1 * pow10 d2 - m2 * pow10 d1) (d1 + d2)
      | _, _ => NaN
      end
  end.

(** [ToIntegerOrInfinity] of a finite number: the fraction is dropped. *)
Definition truncate (x : number) : Z :=
  match finite x with
  | Some (m, d) => Z.quot m (pow10 d)
  | None => 0
  end.

End JSNumber.

(** ** [JSON.stringify] and [JSON.parse] *)

Module JSON.
Import JSNumber.
#[local] Set Warnings "-register-all".

(** A JSON value. A [JNum] that is read is finite, and one that is not
    finite is written as [null]. In an object the members keep their order
    in the text. *)
Inductive json :=
| JNull
| JBool (b : bool)
| JNum (n : number)
| JStr (s : string)
| JArr (elements : list json)
| JObj (members : list (string * json)).

Definition backslash : ascii := "\"%char.

Definition hex_char (v : N) : ascii :=
  if (v <? 10)%N then ascii_of_N (48 + v) else ascii_of_N (87 + v).

(** One code unit inside a quoted string: the quote and the backslash are
    escaped, the control characters are written with their short escape
    or as four hexadecimal digits. *)
Definition quote_char (c : ascii) : string :=
  let n := N_of_ascii c in
  if Ascii.eqb c dquote then String backslash (String dquote EmptyString)
  else if Ascii.eqb c backslash then String backslash (String backslash EmptyString)
  else if (n =? 8)%N then String backslash "b"
  else if (n =? 12)%N then String backslash "f"
  else if (n =? 10)%N then String backslash "n"
  else if (n =? 13)%N then String backslash "r"
  else if (n =? 9)%N then String backslash "t"
  else if (n <? 32)%N then
    String backslash
      (String "u" (String "0" (String "0"
        (String (hex_char (n / 16)) (String (hex_char (n mod 16)) EmptyString)))))
  else String c EmptyString.

Fixpoint quote_body (s : string) : string :=
  match s with
  | EmptyString => String dquote EmptyString
  | String c s' => quote_char c +:+ quote_body s'
  end.

Definition quote (s : string) : string := String dquote (quote_body s).

(** [a.join(sep)] *)
Fixpoint join (sep : string) (l : list string) : string :=
  match l with
  | [] => EmptyString
  | [x] => x
  | x :: l' => x +:+ sep +:+ join sep l'
  end.

(** [JSON.stringify(v)] without indentation. *)
Fixpoint stringify (v : json) : string :=
  match v with
  | JNull => "null"
  | JBool true => "true"
  | JBool false => "false"
  | JNum n => if is_finite n then toString n else "null"
  | JStr s => quote s
  | JArr l => "[" +:+ join "," (List.map stringify l) +:+ "]"
  | JObj ms =>
      "{" +:+ join "," (List.map (fun m => quote (fst m) +:+ ":" +:+ stringify (snd m)) ms)
          +:+ "}"
  end.

(** *** Reading JSON text *)

Definition is_json_space (c : ascii) : bool :=
  match c with
  | " " | "009" | "010" | "013" => true
  | _ => false
  end%char.

Fixpoint skip_space (s : string) : string :=
  match s with
  | EmptyString => EmptyString
  | String c s' => if is_json_space c then skip_space s' else s
  end.

Definition hex_value (c : ascii) : option N :=
  let n := N_of_ascii c in
  if ((48 <=? n) && (n <=? 57))%N then Some (n - 48)%N
  else if ((97 <=? n) && (n <=? 102))%N then Some (n - 87)%N
  else if ((65 <=? n) && (n <=? 70))%N then Some (n - 55)%N
  else None.

(** The code unit written by the escape [\uXXXX]; the model holds those
    below 256. *)
Definition unicode_escape (a b c d : ascii) : option ascii :=
  match hex_value a, hex_value b, hex_value c, hex_value d with
  | Some x, Some y, Some z, Some w =>
      let n := (((x * 16 + y) * 16 + z) * 16 + w)%N in
      if (n <? 256)%N then Some (ascii_of_N n) else None
  | _, _, _, _ => None
  end.

Definition cons_string (c : ascii) (r : option (string * string))
    : option (string * string) :=
  match r with
  | Some (s, rest) => Some (String c s, rest)
  | None => None
  end.

(** The characters of a string after its opening quote, up to and
    including the closing one: the string read and the text left. *)
Fixpoint read_string (s : string) : option (string * string) :=
  match s with
  | EmptyString => None
  | String c s' =>
      if Ascii.eqb c dquote then Some (EmptyString, s')
      else if Ascii.eqb c backslash then
        match s' with
        | String e s'' =>
            if Ascii.eqb e dquote then cons_string dquote (read_string s'')
            else if Ascii.eqb e backslash then cons_string backslash (read_string s'')
            else if Ascii.eqb e "/" then cons_string "/" (read_string s'')
            else if Ascii.eqb e "b" then cons_string "008" (read_string s'')
            else if Ascii.eqb e "f" then cons_string "012" (read_string s'')
            else if Ascii.eqb e "n" then cons_string "010" (read_string s'')
            else if Ascii.eqb e "r" then cons_string "013" (read_string s'')
            else if Ascii.eqb e "t" then cons_string "009" (read_string s'')
            else if Ascii.eqb e "u" then
              match s'' with
              | String h1 (String h2 (String h3 (String h4 s3))) =>
                  match unicode_escape h1 h2 h3 h4 with
                  | Some u => cons_string u (read_string s3)
                  | None => None
                  end
              | _ => None
              end
            else None
        | EmptyString => None
        end
      else if (N_of_ascii c <? 32)%N then None
      else cons_string c (read_string s')
  end.

(** A JSON number: an optional minus sign, an integer part without
    leading zeros, an optional fraction with at least one digit, an
    optional exponent with at least one digit. *)
Definition read_number (s : string) : option (number * string) :=
  let '(neg, s0) :=
    match s with
    | String c s' => if Ascii.eqb c "-" then (true, s') else (false, s)
    | EmptyString => (false, s)
    end in
  let '(ip, ni, s1) := take_digits 0 O s0 in
  let leading_zero :=
    match s0 with
    | String c _ => Ascii.eqb c "0" && (1 <? ni)%nat
    | EmptyString => false
    end in
  match ni with
  | O => None
  | S _ =>
      if leading_zero then None
      else
        let frac :=
          match s1 with
          | String c s1' =>
              if Ascii.eqb c "." then
                let '(m, nf, s2) := take_digits ip O s1' in
                match nf with
                | O => None
                | S _ => Some (m, nf, s2)
                end
              else Some (ip, O, s1)
          | EmptyString => Some (ip, O, s1)
          end in
        match frac with
        | None => None
        | Some (m, nf, s2) =>
            let exponent :=
              match s2 with
              | String c s2' =>
                  if Ascii.eqb c "e" || Ascii.eqb c "E" then
                    let '(eneg, s3) := take_sign s2' in
                    let '(v, ne, s4) := take_digits 0 O s3 in
                    match ne with
                    | O => None
                    | S _ => Some (if eneg then - v else v, s4)
                    end
                  else Some (0, s2)
              | EmptyString => Some (0, s2)
              end%Z in
            match exponent with
            | None => None
            | Some (e, rest) =>
                Some (scale (if neg then - m else m)%Z nf e, rest)
            end
        end
  end.

(** The text begins, after optional white space, with the code unit [c]:
    the text after it. *)
Definition after (c : ascii) (s : string) : option string :=
  match skip_space s with
  | String c' rest => if Ascii.eqb c' c then Some rest else None
  | EmptyString => None
  end.

(** One value at the head of the text, after optional white space. The
    fuel bounds the nesting and the number of elements read. *)
Fixpoint read_value (fuel : nat) (s : string) : option (json * string) :=
  match fuel with
  | O => None
  | S fuel' =>
      match skip_space s with
      | EmptyString => None
      | String c s' as s0 =>
          if Ascii.eqb c "[" then
            match after "]" s' with
            | Some rest => Some (JArr [], rest)
            | None =>
                match read_elements fuel' s' with
                | Some (l, rest) => Some (JArr l, rest)
                | None => None
                end
            end
          else if Ascii.eqb c "{" then
            match after "}" s' with
            | Some rest => Some (JObj [], rest)
            | None =>
                match read_members fuel' s' with
                | Some (ms, rest) => Some (JObj ms, rest)
                | None => None
                end
            end
          else if Ascii.eqb c dquote then
            match read_string s' with
            | Some (str, rest) => Some (JStr str, rest)
            | None => None
            end
          else
            match strip_prefix "null" s0, strip_prefix "true" s0,
                  strip_prefix "false" s0 with
            | Some rest, _, _ => Some (JNull, rest)
            | _, Some rest, _ => Some (JBool true, rest)
            | _, _, Some rest => Some (JBool false, rest)
            | None, None, None =>
                match read_number s0 with
                | Some (n, rest) => Some (JNum n, rest)
                | None => None
                end
            end
      end
  end

(** The elements of an array after its opening bracket, up to and
    including the closing one. *)
with read_elements (fuel : nat) (s : string) : option (list json * string) :=
  match fuel with
  | O => None
  | S fuel' =>
      match read_value fuel' s with
      | Some (v, rest) =>
          match after "," rest, after "]" rest with
          | Some rest', _ =>
              match read_elements fuel' rest' with
              | Some (l, rest'') => Some (v :: l, rest'')
              | None => None
              end
          | None, Some rest' => Some ([v], rest')
          | None, None => None
          end
      | None => None
      end
  end

(** The members of an object after its opening brace, up to and
    including the closing one. *)
with read_members (fuel : nat) (s : string)
    : option (list (string * json) * string) :=
  match fuel with
  | O => None
  | S fuel' =>
      match after dquote s with
      | Some s' =>
          match read_string s' with
          | Some (key, rest) =>
              match after ":" rest with
              | Some rest' =>
                  match read_value fuel' rest' with
                  | Some (v, rest'') =>
                      match after "," rest'', after "}" rest'' with
                      | Some r, _ =>
                          match read_members fuel' r with
                          | Some (ms, r') => Some ((key, v) :: ms, r')
                          | None => None
                          end
                      | None, Some r => Some ([(key, v)], r)
                      | None, None => None
                      end
                  | None => None
                  end
              | None => None
              end
          | None => None
          end
      | None => None
      end
  end.

(** [JSON.parse(text)]; [None] stands for the [SyntaxError] thrown. *)
Definition parse (text : string) : option json :=
  match read_value (S (String.length text)) text with
  | Some (v, rest) =>
      match skip_space rest with
      | EmptyString => Some v
      | String _ _ => None
      end
  | None => None
  end.

End JSON.

(** ** Configuration: [js/config.js] *)

Module CONFIG.
Definition currency : string := "ZAR".
Definition currencySymbol : string := "R".
Definition googleSheetCSV : string := "YOUR_GOOGLE_SHEET_CSV_URL_HERE".
End CONFIG.

(** ** The catalog: [js/products.js] *)

Module Products.

(** [parseCSVLine(line)]: the [for] loop over the code units of [line],
    with the three locals [values], [current] and [inQuotes]. *)
Fixpoint parseCSVLine_loop (line : string) (values : list string)
    (current : string) (inQuotes : bool) : list string :=
  match line with
  | EmptyString => values ++ [trim current]
  | String char rest =>
      if Ascii.eqb char dquote then
        parseCSVLine_loop rest values current (negb inQuotes)
      else if Ascii.eqb char comma && negb inQuotes then
        parseCSVLine_loop rest (values ++ [trim current]) EmptyString inQuotes
      else
        parseCSVLine_loop rest values (push current char) inQuotes
  end.

Definition parseCSVLine (line : string) : list string :=
  parseCSVLine_loop line [] EmptyString false.

(** The values a product property can hold. *)
Inductive property :=
| VNum (n : JSNumber.number)
| VStr (s : string)
| VList (l : list string)
| VBool (b : bool).

(** A product is an object keyed by column name. *)
Abbreviation product := (gmap string property).

(** [ToBoolean] of a property read: a missing property is [undefined]. *)
Definition truthy (v : option property) : bool :=
  match v with
  | None => false
  | Some (VNum n) => JSNumber.truthy n
  | Some (VStr s) => negb (is_empty s)
  | Some (VList _) => true
  | Some (VBool b) => b
  end.

(** [h.toLowerCase().trim().replace(/\s+/g, '_')] *)
Definition header_key (h : string) : string :=
  replace_white_runs "_" false (trim (toLowerCase h)).

(** The body of the [if] chain of [parseCSV]: the typed value stored
    under [header] for the cell text [value]. *)
Definition coerce (header value : string) : property :=
  if String.eqb header "price" || String.eqb header "shipping" then
    let n := JSNumber.parseFloat value in
    VNum (if JSNumber.truthy n then n else JSNumber.Int 0)
  else if String.eqb header "sizes" || String.eqb header "colors"
          || String.eqb header "images" then
    VList (List.filter (fun v => negb (is_empty v))
                       (List.map trim (split comma value)))
  else if String.eqb header "in_stock" || String.eqb header "featured" then
    VBool (String.eqb (toLowerCase value) "yes"
           || String.eqb (toLowerCase value) "true"
           || String.eqb value "1")
  else VStr value.

(** [product[header] = value] on an object literal: the key [__proto__]
    reaches the inherited setter, which ignores a value that is not an
    object, and every other key becomes an own property. *)
Definition set_property (header : string) (v : property) (p : product)
    : product :=
  if String.eqb header "__proto__" then p else <[header := v]> p.

(** [headers.forEach((header, index) => ...)], from column [index] on;
    [values[index] || ''] is the cell, empty when the row is short. *)
Fixpoint assign_columns (headers : list string) (index : nat)
    (values : list string) (p : product) : product :=
  match headers with
  | [] => p
  | header :: headers' =>
      let value := nth index values EmptyString in
      assign_columns headers' (S index) values
        (set_property header (coerce header value) p)
  end.

(** The product object built from one data row. *)
Definition row_product (headers values : list string) : product :=
  assign_columns headers 0 values ∅.

(** [product.id && product.name && product.price] *)
Definition has_required (p : product) : bool :=
  truthy (p !! "id") && truthy (p !! "name") && truthy (p !! "price").

(** The [for] loop over the data lines, with the local [products]. *)
Fixpoint parseCSV_loop (headers : list string) (lines : list string)
    (products : list product) : list product :=
  match lines with
  | [] => products
  | line :: lines' =>
      let values := parseCSVLine line in
      let p := row_product headers values in
      parseCSV_loop headers lines'
        (if has_required p then products ++ [p] else products)
  end.

(** [csv.split('\n').filter(line => line.trim())] *)
Definition feed_lines (csv : string) : list string :=
  List.filter (fun line => negb (is_empty (trim line))) (split newline csv).

Definition parseCSV (csv : string) : list product :=
  let lines := feed_lines csv in
  if (List.length lines <? 2)%nat then []
  else
    let headers := List.map header_key (parseCSVLine (hd EmptyString lines)) in
    parseCSV_loop headers (tl lines) [].

(** *** Loading the feed *)

(** What one call of the browser's [fetch] comes to: the promise is
    rejected (also by [response.text()]), or a response arrives with its
    [ok] flag and its body. *)
Inductive response :=
| NetworkError
| Response (ok : bool) (text : string).

(** The network: the URLs requested so far, oldest first, and the
    outcome of the request made after [n] earlier ones. *)
Record network := {
  requested : list string;
  reply : nat -> response
}.

Definition request (url : string) (net : network) : response * network :=
  (reply net (List.length (requested net)),
   {| requested := requested net ++ [url]; reply := reply net |}).

(** The fields [items], [categories] and [loaded] of [Products]. *)
Record state := {
  items : list product;
  categories : list string;
  loaded : bool
}.

Definition initial : state :=
  {| items := []; categories := []; loaded := false |}.

(** [product.category] when it is truthy. Under this key the feed and the
    demo list only ever store strings. *)
Definition category_of (p : product) : option string :=
  match p !! "category" with
  | Some (VStr c) => if is_empty c then None else Some c
  | _ => None
  end.

(** [cats.add(c)] on a [Set] kept in insertion order. *)
Definition set_add (c : string) (cats : list string) : list string :=
  if existsb (String.eqb c) cats then cats else cats ++ [c].

Fixpoint extractCategories_loop (items : list product) (cats : list string)
    : list string :=
  match items with
  | [] => cats
  | p :: items' =>
      extractCategories_loop items'
        (match category_of p with
         | Some c => set_add c cats
         | None => cats
         end)
  end.

Definition extractCategories (items : list product) : list string :=
  extractCategories_loop items [].

Definition demo_product (id name description : string) (price shipping : Z)
    (category : string) (sizes colors : list string) (image : string)
    (featured : bool) : product :=
  <["id" := VStr id]> (
  <["name" := VStr name]> (
  <["description" := VStr description]> (
  <["price" := VNum (JSNumber.Int price)]> (
  <["shipping" := VNum (JSNumber.Int shipping)]> (
  <["category" := VStr category]> (
  <["sizes" := VList sizes]> (
  <["colors" := VList colors]> (
  <["image" := VStr image]> (
  <["images" := VList [image]]> (
  <["in_stock" := VBool true]> (
  <["featured" := VBool featured]> ∅))))))))))).

Definition getDemoProducts : list product :=
  [ demo_product "tshirt-001" "Classic Logo Tee"
      "Premium cotton t-shirt featuring the iconic Kamel Kross logo. Comfortable fit with high-quality screen printing."
      450 75 "T-Shirts" ["S"; "M"; "L"; "XL"; "XXL"] ["Black"; "White"; "Navy"]
      "https://images.unsplash.com/photo-1521572163474-6864f9cf17ab?w=600" true;
    demo_product "tshirt-002" "Urban Streetwear Tee"
      "Bold streetwear design on soft-touch fabric. Stand out with this statement piece."
      550 75 "T-Shirts" ["S"; "M"; "L"; "XL"] ["Black"; "Grey"]
      "https://images.unsplash.com/photo-1503341504253-dff4815485f1?w=600" true;
    demo_product "tshirt-003" "Limited Edition Graphic Tee"
      "Exclusive limited edition design. Premium heavyweight cotton."
      650 75 "T-Shirts" ["M"; "L"; "XL"] ["Black"]
      "https://images.unsplash.com/photo-1583743814966-8936f5b7be1a?w=600" true;
    demo_product "cap-001" "Signature Snapback"
      "Adjustable snapback cap with embroidered Kamel Kross logo. One size fits most."
      350 50 "Caps" ["One Size"] ["Black"; "Navy"; "Khaki"]
      "https://images.unsplash.com/photo-1588850561407-ed78c282e89b?w=600" true;
    demo_product "cap-002" "Dad Cap - Minimal"
      "Relaxed fit dad cap with subtle branding. Curved brim, adjustable strap."
      299 50 "Caps" ["One Size"] ["Black"; "White"; "Olive"]
      "https://images.unsplash.com/photo-1521369909029-2afed882baee?w=600" true;
    demo_product "cap-003" "Trucker Cap"
      "Classic trucker style with mesh back. Perfect for sunny days."
      320 50 "Caps" ["One Size"] ["Black/White"; "Navy/White"]
      "https://images.unsplash.com/photo-1534215754734-18e55d13e346?w=600" false ].

(** [Products.fetch()]. The [await]s are the one request made of the
    network; the [catch] block handles a rejected promise and the error
    thrown for a response that is not [ok]. *)
Definition fetch (st : state) (net : network)
    : list product * state * network :=
  if loaded st && (0 <? List.length (items st))%nat then (items st, st, net)
  else
    let '(resp, net') := request CONFIG.googleSheetCSV net in
    match resp with
    | Response true csvText =>
        let items' := parseCSV csvText in
        (items',
         {| items := items';
            categories := extractCategories items';
            loaded := true |},
         net')
    | Response false _ | NetworkError =>
        let items' := getDemoProducts in
        (items',
         {| items := items';
            categories := extractCategories items';
            loaded := loaded st |},
         net')
    end.

(** *** Image links *)

Definition slash : ascii := "/"%char.
Definition ampersand : ascii := "&"%char.

(** The longest prefix of [s] free of the code unit [stop]. *)
Fixpoint take_until (stop : ascii) (s : string) : string :=
  match s with
  | EmptyString => EmptyString
  | String c s' =>
      if Ascii.eqb c stop then EmptyString else String c (take_until stop s')
  end.

(** A group [([^c]+)] read at the head of [s]. *)
Definition group_until (stop : ascii) (s : string) : option string :=
  let g := take_until stop s in
  if is_empty g then None else Some g.

(** [url.match(/\/file\/d\/([^\/]+)/)]: group 1 of the leftmost match. *)
Fixpoint fileMatch (url : string) : option string :=
  let here :=
    match strip_prefix "/file/d/" url with
    | Some rest => group_until slash rest
    | None => None
    end in
  match here, url with
  | Some g, _ => Some g
  | None, String _ url' => fileMatch url'
  | None, EmptyString => None
  end.

(** [url.match(/[?&]id=([^&]+)/)] *)
Fixpoint openMatch (url : string) : option string :=
  match url with
  | EmptyString => None
  | String c url' =>
      let here :=
        if Ascii.eqb c "?" || Ascii.eqb c ampersand then
          match strip_prefix "id=" url' with
          | Some rest => group_until ampersand rest
          | None => None
          end
        else None in
      match here with
      | Some g => Some g
      | None => openMatch url'
      end
  end.

(** The dot of a regular expression matches all but line terminators. *)
Definition is_line_terminator (c : ascii) : bool :=
  Ascii.eqb c "010" || Ascii.eqb c "013".

(** [.*id=([^&]+)] read at the head of [s]: the star is greedy, so the
    match that skips the most code units wins. *)
Fixpoint greedy_id (s : string) : option string :=
  let here :=
    match strip_prefix "id=" s with
    | Some rest => group_until ampersand rest
    | None => None
    end in
  match s with
  | EmptyString => None
  | String c s' =>
      match (if is_line_terminator c then None else greedy_id s') with
      | Some g => Some g
      | None => here
      end
  end.

(** [url.match(/\/uc\?.*id=([^&]+)/)] *)
Fixpoint ucMatch (url : string) : option string :=
  let here :=
    match strip_prefix "/uc?" url with
    | Some rest => greedy_id rest
    | None => None
    end in
  match here, url with
  | Some g, _ => Some g
  | None, String _ url' => ucMatch url'
  | None, EmptyString => None
  end.

(** [if (m) fileId = m[1]] *)
Definition or_keep (m fileId : option string) : option string :=
  match m with
  | Some g => Some g
  | None => fileId
  end.

Definition thumbnail (fileId : string) : string :=
  "https://drive.google.com/thumbnail?id=" +:+ fileId +:+ "&sz=w800".

Definition convertGoogleDriveUrl (url : string) : string :=
  if is_empty url then EmptyString
  else if negb (includes url "drive.google.com") then url
  else
    let fileId := None in
    let fileId := or_keep (fileMatch url) fileId in
    let fileId := or_keep (openMatch url) fileId in
    let fileId := or_keep (ucMatch url) fileId in
    match fileId with
    | Some id => if is_empty id then url else thumbnail id
    | None => url
    end.

(** *** Views of the catalog *)

(** [p.id === id] for a string [id]. *)
Definition has_id (id : string) (p : product) : bool :=
  match p !! "id" with
  | Some (VStr i) => String.eqb i id
  | _ => false
  end.

(** [Products.getById(id)]; [None] is [null]. *)
Definition getById (id : string) (st : state) : option product :=
  List.find (has_id id) (items st).

(** [l.filter(f)] for a callback that can throw: [None] is the exception,
    which leaves [filter] and the method that called it. *)
Fixpoint filter_try {A} (f : A -> option bool) (l : list A)
    : option (list A) :=
  match l with
  | [] => Some []
  | x :: l' =>
      match f x with
      | None => None
      | Some keep =>
          match filter_try f l' with
          | None => None
          | Some kept => Some (if keep then x :: kept else kept)
          end
      end
  end.

(** [v && test(v.toLowerCase())] as a condition: a falsy [v] is false, a
    string is lower-cased and tested, and any other truthy value has no
    method [toLowerCase], so that the call throws. *)
Definition lower_test (test : string -> bool) (v : option property)
    : option bool :=
  if truthy v then
    match v with
    | Some (VStr s) => Some (test (toLowerCase s))
    | _ => None
    end
  else Some false.

(** [a || b] as a condition, [b] being evaluated only when [a] is false. *)
Definition or_else (a b : option bool) : option bool :=
  match a with
  | Some true => Some true
  | Some false => b
  | None => None
  end.

(** The callback of [filter] in [getByCategory]. *)
Definition in_category (category : string) (p : product) : option bool :=
  lower_test (fun c => String.eqb c (toLowerCase category)) (p !! "category").

(** [Products.getByCategory(category)]; the argument [None] is
    [undefined] or [null]. *)
Definition getByCategory (category : option string) (st : state)
    : option (list product) :=
  match category with
  | None => Some (items st)
  | Some c =>
      if is_empty c || String.eqb c "all" then Some (items st)
      else filter_try (in_category c) (items st)
  end.

(** [l.slice(0, limit)]: the limit is truncated to an integer, a negative
    one counts back from the end, and [NaN] counts as 0. *)
Definition slice_to {A} (limit : JSNumber.number) (l : list A) : list A :=
  match limit with
  | JSNumber.NaN | JSNumber.NegInfinity => []
  | JSNumber.Infinity => l
  | _ =>
      let e := JSNumber.truncate limit in
      let len := Z.of_nat (List.length l) in
      let final := (if e <? 0 then Z.max (len + e) 0 else Z.min e len)%Z in
      take (Z.to_nat final) l
  end.

(** [Products.getFeatured(limit = 8)]; the argument [None] is
    [undefined]. *)
Definition getFeatured (limit : option JSNumber.number) (st : state)
    : list product :=
  let limit := match limit with Some n => n | None => JSNumber.Int 8 end in
  let featured :=
    List.filter (fun p => truthy (p !! "featured")) (items st) in
  if (0 <? List.length featured)%nat then slice_to limit featured
  else slice_to limit (items st).

(** The callback of [filter] in [search]: [p.name.toLowerCase()] throws
    unless the name is a string. *)
Definition matches (q : string) (p : product) : option bool :=
  or_else
    (match p !! "name" with
     | Some (VStr n) => Some (includes (toLowerCase n) q)
     | _ => None
     end)
    (or_else
       (lower_test (fun d => includes d q) (p !! "description"))
       (lower_test (fun c => includes c q) (p !! "category"))).

(** [Products.search(query)]; the argument [None] is [undefined]. *)
Definition search (query : option string) (st : state)
    : option (list product) :=
  match query with
  | None => Some (items st)
  | Some query =>
      if is_empty query then Some (items st)
      else
        let q := toLowerCase query in
        filter_try (matches q) (items st)
  end.

(** [Products.sort(products, sortBy)] reads of an element its price, as a
    number, and its name, as a string; [localeCompare] depends on the
    locale of the browser. All three are parameters here. *)
Section Sort.
Context {A : Type}.
Variable price_of : A -> JSNumber.number.
Variable name_of : A -> string.
Variable localeCompare : string -> string -> JSNumber.number.

(** [Array.prototype.sort(comparefn)] is stable, and a result of
    [comparefn] that is [NaN] counts as 0. For a comparator that orders
    the elements consistently the sorted array is the one computed here,
    by insertion; for any other the order is left to the browser. *)
Fixpoint insert_by (comparefn : A -> A -> JSNumber.number) (x : A)
    (sorted : list A) : list A :=
  match sorted with
  | [] => [x]
  | y :: sorted' =>
      if JSNumber.gtb (comparefn x y) (JSNumber.Int 0)
      then y :: insert_by comparefn x sorted'
      else x :: sorted
  end.

Definition sort_by (comparefn : A -> A -> JSNumber.number) (l : list A)
    : list A :=
  fold_right (insert_by comparefn) [] l.

Definition sort (products : list A) (sortBy : string) : list A :=
  let sorted := products in
  if String.eqb sortBy "price-low" then
    sort_by (fun a b => JSNumber.sub (price_of a) (price_of b)) sorted
  else if String.eqb sortBy "price-high" then
    sort_by (fun a b => JSNumber.sub (price_of b) (price_of a)) sorted
  else if String.eqb sortBy "name" then
    sort_by (fun a b => localeCompare (name_of a) (name_of b)) sorted
  else sorted.

End Sort.

End Products.

(** ** The cart: [js/cart.js] *)

Module Cart.
Import JSNumber JSON.

Definition STORAGE_KEY : string := "kamelkross_cart".

(** A numeric property of a stored line item: a number, or the [null]
    that a trip through JSON leaves in place of a number that is not
    finite. In arithmetic [null] counts as zero. *)
Inductive amount :=
| Num (n : number)
| Null.

Definition to_number (a : amount) : number :=
  match a with
  | Num n => n
  | Null => Int 0
  end.

(** A line item, with the properties in the order [add] writes them;
    [image] and [category] are [undefined] when the product has none, and
    a property that holds [undefined] and a property that is absent are
    the one value [None]. *)
Record item := {
  id : string;
  name : string;
  price : amount;
  shipping : amount;
  image : option string;
  size : string;
  color : string;
  quantity : amount;
  category : option string
}.

(** The properties of a catalog product that [add] reads. *)
Record product := {
  product_id : string;
  product_name : string;
  product_price : number;
  product_shipping : option number;
  product_image : option string;
  product_category : option string
}.

(** The view of a product object of the catalog that [add] takes; every
    product the catalog accepts has one. *)
Definition of_catalog (p : Products.product) : option product :=
  match p !! "id", p !! "name", p !! "price" with
  | Some (Products.VStr i), Some (Products.VStr n), Some (Products.VNum pr) =>
      Some {| product_id := i;
              product_name := n;
              product_price := pr;
              product_shipping :=
                match p !! "shipping" with
                | Some (Products.VNum sh) => Some sh
                | _ => None
                end;
              product_image :=
                match p !! "image" with
                | Some (Products.VStr im) => Some im
                | _ => None
                end;
              product_category :=
                match p !! "category" with
                | Some (Products.VStr c) => Some c
                | _ => None
                end |}
  | _, _, _ => None
  end.

(** *** [localStorage] *)

(** The entries of the origin, and the size of the largest entry the
    browser still accepts: a write over the quota throws. *)
Record storage := {
  entries : gmap string string;
  quota : nat
}.

Definition getItem (key : string) (st : storage) : option string :=
  entries st !! key.

Definition setItem (key value : string) (st : storage) : option storage :=
  if (String.length key + String.length value <=? quota st)%nat then
    Some {| entries := <[key := value]> (entries st); quota := quota st |}
  else None.

(** *** The state the cart works on *)

(** [Cart.items], the storage, the counts shown by the [.cart-count]
    badges of the page and the notifications raised so far. *)
Record world := {
  items : list item;
  localStorage : storage;
  badges : list number;
  toasts : list (string * string)
}.

Definition set_items (l : list item) (w : world) : world :=
  {| items := l; localStorage := localStorage w;
     badges := badges w; toasts := toasts w |}.

(** [UI.toast(message, type)]: the notification put on the page. The call
    is taken to return; in the page it raises, once the notification is
    shown, when the markup of the message hides the close button from
    [querySelector]. *)
Definition toast (message type : string) (w : world) : world :=
  {| items := items w; localStorage := localStorage w;
     badges := badges w; toasts := toasts w ++ [(message, type)] |}.

(** *** Totals *)

Definition getItemCount (w : world) : number :=
  fold_left (fun total item => add total (to_number (quantity item)))
            (items w) (Int 0).

Definition getSubtotal (w : world) : number :=
  fold_left
    (fun total item =>
       add total (mul (to_number (price item)) (to_number (quantity item))))
    (items w) (Int 0).

Definition getShipping (w : world) : number :=
  fold_left
    (fun total item =>
       add total (mul (to_number (shipping item)) (to_number (quantity item))))
    (items w) (Int 0).

Definition getTotal (w : world) : number :=
  add (getSubtotal w) (getShipping w).

Definition isEmpty (w : world) : bool :=
  (List.length (items w) =? 0)%nat.

Definition updateCartCount (w : world) : world :=
  let count := getItemCount w in
  {| items := items w; localStorage := localStorage w;
     badges := List.map (fun _ => count) (badges w); toasts := toasts w |}.

(** *** Persistence *)

Definition json_of_amount (a : amount) : json :=
  match a with
  | Num n => JNum n
  | Null => JNull
  end.

(** A property that is [undefined] is left out of the text. *)
Definition optional_member (key : string) (v : option string)
    : list (string * json) :=
  match v with
  | Some s => [(key, JStr s)]
  | None => []
  end.

Definition json_of_item (it : item) : json :=
  JObj ([("id", JStr (id it));
         ("name", JStr (name it));
         ("price", json_of_amount (price it));
         ("shipping", json_of_amount (shipping it))]
        ++ optional_member "image" (image it)
        ++ [("size", JStr (size it));
            ("color", JStr (color it));
            ("quantity", json_of_amount (quantity it))]
        ++ optional_member "category" (category it)).

(** [JSON.stringify(this.items)] *)
Definition stringify_items (l : list item) : string :=
  stringify (JArr (List.map json_of_item l)).

(** The value of a property of a parsed object: the last member written
    under the key. *)
Fixpoint member (key : string) (ms : list (string * json)) : option json :=
  match ms with
  | [] => None
  | (k, v) :: ms' =>
      match member key ms' with
      | Some v' => Some v'
      | None => if String.eqb k key then Some v else None
      end
  end.

Definition string_member (key : string) (ms : list (string * json))
    : option string :=
  match member key ms with
  | Some (JStr s) => Some s
  | _ => None
  end.

Definition amount_member (key : string) (ms : list (string * json))
    : option amount :=
  match member key ms with
  | Some (JNum n) => Some (Num n)
  | Some JNull => Some Null
  | _ => None
  end.

Definition optional_string_member (key : string) (ms : list (string * json))
    : option (option string) :=
  match member key ms with
  | Some (JStr s) => Some (Some s)
  | None => Some None
  | _ => None
  end.

(** A parsed object as a line item, when it has the shape of one. *)
Definition item_of_json (v : json) : option item :=
  match v with
  | JObj ms =>
      match string_member "id" ms, string_member "name" ms,
            amount_member "price" ms, amount_member "shipping" ms,
            optional_string_member "image" ms,
            string_member "size" ms, string_member "color" ms,
            amount_member "quantity" ms,
            optional_string_member "category" ms with
      | Some i, Some n, Some p, Some sh, Some im, Some sz, Some c, Some q,
        Some cat =>
          Some {| id := i; name := n; price := p; shipping := sh;
                  image := im; size := sz; color := c; quantity := q;
                  category := cat |}
      | _, _, _, _, _, _, _, _, _ => None
      end
  | _ => None
  end.

Fixpoint items_of_elements (l : list json) : option (list item) :=
  match l with
  | [] => Some []
  | v :: l' =>
      match item_of_json v, items_of_elements l' with
      | Some it, Some its => Some (it :: its)
      | _, _ => None
      end
  end.

(** [JSON.parse(saved)] as a list of line items. [None] stands for the
    error thrown on text that is not JSON, and also for a value that is
    not a list of line items, which the typed [items] cannot hold. *)
Definition parse_items (saved : string) : option (list item) :=
  match parse saved with
  | Some (JArr l) => items_of_elements l
  | _ => None
  end.

(** [Cart.load()]: [saved ? JSON.parse(saved) : []] inside [try], and the
    empty cart in [catch]. *)
Definition load (w : world) : world :=
  match getItem STORAGE_KEY (localStorage w) with
  | Some saved =>
      if is_empty saved then set_items [] w
      else
        match parse_items saved with
        | Some l => set_items l w
        | None => set_items [] w
        end
  | None => set_items [] w
  end.

(** [Cart.save()]: when [setItem] throws, the [catch] block only logs,
    and the badge is not refreshed. *)
Definition save (w : world) : world :=
  match setItem STORAGE_KEY (stringify_items (items w)) (localStorage w) with
  | Some st =>
      updateCartCount
        {| items := items w; localStorage := st;
           badges := badges w; toasts := toasts w |}
  | None => w
  end.

Definition init (w : world) : world := updateCartCount (load w).

(** *** Mutations *)

(** The callback of [findIndex] in [add]. *)
Definition same_line (p : product) (size color : string) (it : item) : bool :=
  String.eqb (id it) (product_id p)
  && String.eqb (Cart.size it) size
  && String.eqb (Cart.color it) color.

(** [items.findIndex(f)], counting from [index]; [None] is -1. *)
Fixpoint findIndex (f : item -> bool) (l : list item) (index : nat)
    : option nat :=
  match l with
  | [] => None
  | it :: l' => if f it then Some index else findIndex f l' (S index)
  end.

Definition add_quantity (q : number) (it : item) : item :=
  {| id := id it; name := name it; price := price it;
     shipping := shipping it; image := image it; size := size it;
     color := color it;
     quantity := Num (JSNumber.add (to_number (quantity it)) q);
     category := category it |}.

Definition set_quantity (q : number) (it : item) : item :=
  {| id := id it; name := name it; price := price it;
     shipping := shipping it; image := image it; size := size it;
     color := color it; quantity := Num q; category := category it |}.

(** [product.shipping || 0] *)
Definition shipping_or_zero (s : option number) : number :=
  match s with
  | Some n => if JSNumber.truthy n then n else Int 0
  | None => Int 0
  end.

Definition cartItem (p : product) (size color : string) (quantity : number)
    : item :=
  {| id := product_id p;
     name := product_name p;
     price := Num (product_price p);
     shipping := Num (shipping_or_zero (product_shipping p));
     image := product_image p;
     size := size;
     color := color;
     quantity := Num quantity;
     category := product_category p |}.

(** [Cart.add(product, size, color, quantity)]: the line item returned
    and the new state. *)
Definition add (p : product) (size color : string) (quantity : number)
    (w : world) : option item * world :=
  let existingIndex := findIndex (same_line p size color) (items w) 0 in
  let w1 :=
    match existingIndex with
    | Some i => set_items (alter (add_quantity quantity) i (items w)) w
    | None => set_items (items w ++ [cartItem p size color quantity]) w
    end in
  let w2 := save w1 in
  let w3 := toast (product_name p +:+ " added to cart") "success" w2 in
  (items w3 !! match existingIndex with
               | Some i => i
               | None => (List.length (items w3) - 1)%nat
               end,
   w3).

(** [Cart.remove(index)] *)
Definition remove (index : Z) (w : world) : world :=
  if ((0 <=? index) && (index <? Z.of_nat (List.length (items w))))%Z then
    match items w !! Z.to_nat index with
    | Some it =>
        let w1 := set_items (delete (Z.to_nat index) (items w)) w in
        let w2 := save w1 in
        toast (name it +:+ " removed from cart") "success" w2
    | None => w
    end
  else w.

(** [Cart.updateQuantity(index, quantity)] *)
Definition updateQuantity (index : Z) (quantity : number) (w : world)
    : world :=
  if ((0 <=? index) && (index <? Z.of_nat (List.length (items w))))%Z then
    if JSNumber.leb quantity (Int 0) then remove index w
    else
      save (set_items
              (alter (set_quantity quantity) (Z.to_nat index) (items w)) w)
  else w.

(** [Cart.clear()] *)
Definition clear (w : world) : world := save (set_items [] w).

(** *** The order handed to the payment step *)

(** One entry of [items] in the object [prepareOrderData] returns. *)
Record order_item := {
  order_id : string;
  order_name : string;
  order_size : string;
  order_color : string;
  order_quantity : amount;
  order_price : amount
}.

Record order (C : Type) := {
  customer : C;
  order_items : list order_item;
  subtotal : number;
  order_shipping : number;
  total : number;
  currency : string;
  timestamp : string
}.
Arguments customer {C}.
Arguments order_items {C}.
Arguments subtotal {C}.
Arguments order_shipping {C}.
Arguments total {C}.
Arguments currency {C}.
Arguments timestamp {C}.

Definition snapshot (it : item) : order_item :=
  {| order_id := id it;
     order_name := name it;
     order_size := size it;
     order_color := color it;
     order_quantity := quantity it;
     order_price := price it |}.

(** [Cart.prepareOrderData(customerInfo)]; [now] is what
    [new Date().toISOString()] gives at the call. The state is returned
    along with the order, as for every method that has [this]. *)
Definition prepareOrderData {C} (customerInfo : C) (now : string) (w : world)
    : order C * world :=
  let its := List.map snapshot (items w) in
  let sub := getSubtotal w in
  let ship := getShipping w in
  let tot := getTotal w in
  ({| customer := customerInfo;
      order_items := its;
      subtotal := sub;
      order_shipping := ship;
      total := tot;
      currency := CONFIG.currency;
      timestamp := now |},
   w).

End Cart.

(** ** The field splitter as the specification words it *)

Module CSVSpec.

(** Each code unit of the line, paired with the inside-quotes state in
    force when it is read: the state starts outside and every quote
    character toggles it. *)
Fixpoint mark (inQuotes : bool) (line : string) : list (ascii * bool) :=
  match line with
  | EmptyString => []
  | String c rest =>
      (c, inQuotes)
        :: mark (if Ascii.eqb c dquote then negb inQuotes else inQuotes) rest
  end.

(** A field delimiter is a comma read outside a quoted span. *)
Definition is_delimiter (m : ascii * bool) : bool :=
  Ascii.eqb (fst m) comma && negb (snd m).

(** Cut a list at every element satisfying [p]; the elements cut at are
    dropped and [n] cuts give [n + 1] pieces. *)
Fixpoint split_when {A} (p : A -> bool) (l : list A) : list (list A) :=
  match l with
  | [] => [[]]
  | x :: l' =>
      if p x then [] :: split_when p l'
      else match split_when p l' with
           | seg :: segs => (x :: seg) :: segs
           | [] => [[x]]
           end
  end.

(** The text of a piece: its code units without the quote characters. *)
Fixpoint text (seg : list (ascii * bool)) : string :=
  match seg with
  | [] => EmptyString
  | (c, _) :: seg' =>
      if Ascii.eqb c dquote then text seg' else String c (text seg')
  end.

(** The pieces of a line: what stands between its delimiters, without
    the quote characters. *)
Definition pieces (line : string) : list string :=
  map text (split_when is_delimiter (mark false line)).

(** The fields of a line: its pieces between delimiters, each without
    its quote characters and trimmed. *)
Definition fields (line : string) : list string :=
  map (fun seg => trim (text seg)) (split_when is_delimiter (mark false line)).

(** The number of delimiters of a line. *)
Definition delimiters (line : string) : nat :=
  List.length (List.filter is_delimiter (mark false line)).

(** The fields the loop still owes when it holds [current] and the
    pieces [segs] are left to read. *)
Definition head_field (current : string) (segs : list (list (ascii * bool)))
    : list string :=
  match segs with
  | seg :: segs' =>
      trim (current +:+ text seg) :: map (fun s => trim (text s)) segs'
  | [] => []
  end.

End CSVSpec.

(** ** The rows of a feed as the specification words them *)

Module FeedSpec.
Import Products.

(** The cell of a row under the column named [h], from column [index] on:
    the last such column counts, and a row too short for it has an empty
    cell there. [None] when no column has the name. *)
Fixpoint cell_from (headers : list string) (index : nat)
    (values : list string) (h : string) : option string :=
  match headers with
  | [] => None
  | header :: headers' =>
      match cell_from headers' (S index) values h with
      | Some v => Some v
      | None =>
          if String.eqb header h then Some (nth index values EmptyString)
          else None
      end
  end.

(** The cell of a whole row under the column named [h]. *)
Definition cell (headers values : list string) (h : string) : option string :=
  cell_from headers 0 values h.

(** The column names of a feed and the fields of its data rows. *)
Definition header_keys (csv : string) : list string :=
  List.map header_key (parseCSVLine (hd EmptyString (feed_lines csv))).

Definition data_rows (csv : string) : list (list string) :=
  List.map parseCSVLine (tl (feed_lines csv)).

(** A row has a cell under [h] that is not empty. *)
Definition has_text (headers values : list string) (h : string) : Prop :=
  exists v, cell headers values h = Some v /\ v <> EmptyString.

(** What the catalog requires of a row: an id, a name, and a price that
    reads as a number other than zero. *)
Definition accepted (headers values : list string) : Prop :=
  has_text headers values "id" /\
  has_text headers values "name" /\
  exists v, cell headers values "price" = Some v
            /\ JSNumber.truthy (JSNumber.parseFloat v) = true.

(** The requirement with any price at all, zero included. *)
Definition accepted_with_any_price (headers values : list string) : Prop :=
  has_text headers values "id" /\
  has_text headers values "name" /\
  has_text headers values "price".

End FeedSpec.

(** ** Predicates on strings *)

Module StringSpec.

(** A string that does not begin with white space. *)
Definition starts_black (s : string) : Prop :=
  match s with
  | EmptyString => True
  | String c _ => is_white c = false
  end.

(** A string that does not end with white space. *)
Fixpoint ends_black (s : string) : Prop :=
  match s with
  | EmptyString => True
  | String c s' =>
      match s' with
      | EmptyString => is_white c = false
      | String _ _ => ends_black s'
      end
  end.

(** A string of white space only. *)
Fixpoint white (s : string) : Prop :=
  match s with
  | EmptyString => True
  | String c s' => is_white c = true /\ white s'
  end.

(** A capital letter among the code units below 256: [A] to [Z], and the
    Latin-1 capitals from 192 to 222 but the multiplication sign. *)
Definition capital (c : ascii) : bool :=
  let n := N_of_ascii c in
  (((65 <=? n) && (n <=? 90))
   || ((192 <=? n) && (n <=? 222) && negb (n =? 215)))%N.

(** Two code units that are the same letter, capital or small: the small
    letter of a capital stands 32 code units after it. *)
Definition same_letter (a b : ascii) : bool :=
  Ascii.eqb a b
  || (capital a && (N_of_ascii b =? N_of_ascii a + 32)%N)
  || (capital b && (N_of_ascii a =? N_of_ascii b + 32)%N).

(** Two strings that differ at most in the case of their letters. *)
Fixpoint same_text (s t : string) : bool :=
  match s, t with
  | EmptyString, EmptyString => true
  | String a s', String b t' => same_letter a b && same_text s' t'
  | _, _ => false
  end.

(** Every code unit below 256. *)
Definition code_units : list ascii := List.map ascii_of_nat (seq 0 256).

(** [f] is [raw] without the white space at its two ends. *)
Definition stripped (raw f : string) : Prop :=
  exists l r,
    raw = l +:+ f +:+ r
    /\ white l /\ white r /\ starts_black f /\ ends_black f.

End StringSpec.

(** ** Predicates on numbers and on their text *)

Module NumberSpec.
Import JSNumber.
Local Open Scope Z_scope.

(** A mantissa with its decimal places, in lowest form. *)
Definition lowest (m : Z) (d : nat) : Prop := d = O \/ m mod 10 <> 0.


(** The sum of a list of integers. *)
Definition Z_sum (zs : list Z) : Z := fold_right Z.add 0 zs.

(** A text at which a number ends: no digit, point or exponent follows. *)
Definition ends_number (rest : string) : Prop :=
  match rest with
  | EmptyString => True
  | String c _ =>
      digit_of c = None /\ Ascii.eqb c "." = false
      /\ Ascii.eqb c "e" = false /\ Ascii.eqb c "E" = false
  end.

(** A text that does not begin with a digit. *)
Definition no_digit (rest : string) : Prop :=
  match rest with
  | EmptyString => True
  | String c _ => digit_of c = None
  end.

(** The code units a number can begin with. *)
Definition number_start (c : ascii) : bool :=
  Ascii.eqb c "-" || match digit_of c with Some _ => true | None => false end.

End NumberSpec.

(** ** Predicates on JSON values *)

Module JSONSpec.
Import JSNumber JSON.

(** A value that [stringify] writes in full: its numbers are finite. *)
Fixpoint writable (v : json) : bool :=
  match v with
  | JNum n => is_finite n
  | JArr l => forallb writable l
  | JObj ms => forallb (fun m => writable (snd m)) ms
  | JNull | JBool _ | JStr _ => true
  end.

(** The text of one member of an object. *)
Definition member_text (m : string * json) : string :=
  quote (fst m) +:+ ":" +:+ stringify (snd m).

(** A code unit that is not white space and closes no array or object. *)
Definition solid (c : ascii) : Prop :=
  is_json_space c = false /\ Ascii.eqb c "]" = false
  /\ Ascii.eqb c "}" = false /\ Ascii.eqb c "," = false.

End JSONSpec.

(** ** A session of catalog loads *)

Module FetchSpec.
Import Products.

(** The catalog is served from memory. *)
Definition cached (st : state) : bool :=
  loaded st && (0 <? List.length (items st))%nat.

(** [n] calls of [fetch] in a row: the lists returned, oldest first. *)
Fixpoint fetch_times (n : nat) (st : state) (net : network)
    : list (list product) * state * network :=
  match n with
  | O => ([], st, net)
  | S n' =>
      let '(l, st1, net1) := fetch st net in
      let '(ls, st2, net2) := fetch_times n' st1 net1 in
      (l :: ls, st2, net2)
  end.

End FetchSpec.

(** ** The cart as the specification words it *)

Module CartSpec.
Import JSNumber Cart.



(** [index] is the position of a line of the cart. *)
Definition in_bounds (index : Z) (w : world) : Prop :=
  (0 <= index < Z.of_nat (List.length (items w)))%Z.

(** What identifies a line. *)
Definition key (it : item) : string * string * string :=
  (id it, size it, color it).

(** The invariant of the cart: no two lines with the same key. *)
Definition unique_lines (l : list item) : Prop := NoDup (key <$> l).

(** The operations that change the cart. *)
Inductive operation :=
| Add (p : product) (size color : string) (quantity : number)
| Remove (index : Z)
| UpdateQuantity (index : Z) (quantity : number)
| Clear.

(** The state after one operation, and after a sequence of them. *)
Definition perform (w : world) (op : operation) : world :=
  match op with
  | Add p s c q => snd (add p s c q w)
  | Remove i => remove i w
  | UpdateQuantity i q => updateQuantity i q w
  | Clear => clear w
  end.

Definition run (ops : list operation) (w : world) : world :=
  fold_left perform ops w.

(** A numeric property that JSON keeps: a finite number, or [null]. *)
Definition kept (a : amount) : bool :=
  match a with
  | Num n => is_finite n
  | Null => true
  end.

(** A line whose price, shipping and quantity JSON keeps. *)
Definition storable (it : item) : bool :=
  kept (price it) && kept (shipping it) && kept (quantity it).

(** Up to [2 ^ 53] binary64 holds every integer, so that sums and
    products of natural numbers that stay below it are exact. *)
Definition safe_integer : Z := 2 ^ 53.

(** An amount that is a natural number, and the integer an amount holds. *)
Definition natural (a : amount) : Prop :=
  exists z, a = Num (Int z) /\ (0 <= z)%Z.

Definition whole_of (a : amount) : Z :=
  match a with
  | Num (Int z) => z
  | _ => 0%Z
  end.


(** The count, the subtotal and the shipping of a cart, as integers. *)
Definition units (l : list item) : Z :=
  NumberSpec.Z_sum (List.map (fun it => whole_of (quantity it)) l).



End CartSpec.

(** ** Feeds and networks used as examples *)

Module FeedExamples.
Import Products.

(** The line [a,"b,c",d]. *)
Definition quoted_line : string :=
  "a," +:+ String dquote ("b,c" +:+ String dquote ",d").

(** The line [ a ,<tab>"b, c" ,d ], with a space at each end. *)
Definition padded_line : string :=
  " a ," +:+ String "009" (String dquote ("b, c" +:+ String dquote " ,d ")).

(** The feed with the header [id,name,price] and the one row [1,Tee,0]. *)
Definition free_tee_feed : string :=
  "id,name,price" +:+ String newline "1,Tee,0".

(** The feed with the header [id,name,price] and the one row
    [1,Tee,1e-400]. *)
Definition tiny_price_feed : string :=
  "id,name,price" +:+ String newline "1,Tee,1e-400".

(** The feed with the header [id,name,price] and the one row [1,Tee,450]. *)
Definition tee_feed : string :=
  "id,name,price" +:+ String newline "1,Tee,450".

(** A network that answers every request with the feed [tee_feed]. *)
Definition online : network :=
  {| requested := [];
     reply := fun _ => Response true tee_feed |}.

(** A network whose first request fails and whose later requests are
    answered with the feed [tee_feed]. *)
Definition flaky : network :=
  {| requested := [];
     reply := fun n =>
       match n with
       | O => NetworkError
       | S _ => Response true tee_feed
       end |}.

End FeedExamples.

(** ** Carts used as examples *)

Module CartExamples.
Import JSNumber Cart.

(** A line of price [p], shipping [s] and quantity [q]. *)
Definition example_line (i : string) (p s q : Z) : item :=
  {| id := i; name := i; price := Num (Int p); shipping := Num (Int s);
     image := None; size := "M"; color := "Black"; quantity := Num (Int q);
     category := None |}.

(** A page that holds the lines [l], with empty storage, one badge and
    no notification yet. *)
Definition example_world (l : list item) : world :=
  {| items := l;
     localStorage := {| entries := ∅; quota := 4096 |};
     badges := [Int 0];
     toasts := [] |}.

(** The first product of the demo list. *)
Definition example_product : product :=
  {| product_id := "tshirt-001"; product_name := "Classic Logo Tee";
     product_price := Int 450; product_shipping := Some (Int 75);
     product_image := None; product_category := Some "T-Shirts" |}.

(** A cart of two lines, and the state of a page just opened on the same
    storage. *)
Definition two_lines : list item :=
  [ example_line "tshirt-001" 450 75 2;
    cartItem example_product "L" "Navy" (Frac 1 D5 0) ].

Definition reopened (w : world) : world :=
  {| items := []; localStorage := localStorage w;
     badges := [Int 0]; toasts := [] |}.

(** A product whose price is [Infinity], as the feed row
    [9,Gold Tee,Infinity] gives it. *)
Definition priceless : product :=
  {| product_id := "9"; product_name := "Gold Tee";
     product_price := Infinity; product_shipping := None;
     product_image := None; product_category := None |}.

End CartExamples.

(** ** The catalog as its views read it *)

Module CatalogSpec.
Import Products.

(** A property that holds a string, and one that holds a number. *)
Definition is_text (v : option property) : bool :=
  match v with
  | Some (VStr _) => true
  | _ => false
  end.

Definition is_number (v : option property) : bool :=
  match v with
  | Some (VNum _) => true
  | _ => false
  end.

(** A property that is absent or holds a string. *)
Definition textual (v : option property) : bool :=
  match v with
  | None | Some (VStr _) => true
  | _ => false
  end.

(** A product as the feed and the demo list build them: the id, the name
    and the price are there and truthy, the id and the name are strings,
    the price is a number, and a description or a category is a string. *)
Definition well_formed (p : product) : bool :=
  has_required p
  && is_text (p !! "id") && is_text (p !! "name") && is_number (p !! "price")
  && textual (p !! "description") && textual (p !! "category").

(** The fields of [Products] agree with one another. *)
Definition consistent (st : state) : Prop :=
  categories st = extractCategories (items st)
  /\ Forall (fun p => well_formed p = true) (items st).

(** The feed [csv] with every line feed preceded by a carriage return. *)
Fixpoint crlf (csv : string) : string :=
  match csv with
  | EmptyString => EmptyString
  | String c csv' =>
      if Ascii.eqb c newline then String "013" (String newline (crlf csv'))
      else String c (crlf csv')
  end.

(** A line is blank. *)
Definition blank (line : string) : bool := is_empty (trim line).

(** The columns that hold numbers, and those that hold lists. *)
Definition numeric_column (h : string) : bool :=
  String.eqb h "price" || String.eqb h "shipping".

Definition list_column (h : string) : bool :=
  String.eqb h "sizes" || String.eqb h "colors" || String.eqb h "images".

(** [t] occurs in [s]: some code units, then [t], then the rest. *)
Definition occurs_in (t s : string) : Prop :=
  exists before after, s = before +:+ t +:+ after.

(** The products of [l] that have the category [c], whatever the case of
    the letters. *)
Definition of_category (c : string) (l : list product) : list product :=
  List.filter
    (fun p =>
       match category_of p with
       | Some k => StringSpec.same_text k c
       | None => false
       end) l.

(** The products flagged as featured. *)
Definition featured (l : list product) : list product :=
  List.filter (fun p => truthy (p !! "featured")) l.

(** A list sorted by [le]: every element is below each later one. *)
Fixpoint sorted_by {A} (le : A -> A -> bool) (l : list A) : Prop :=
  match l with
  | [] => True
  | a :: l' => Forall (fun b => le a b = true) l' /\ sorted_by le l'
  end.

(** A list in which the price of every element is at most the price of
    each later one, and one in which it is at least that price. *)
Definition ascending {A} (price_of : A -> JSNumber.number) (l : list A)
    : Prop :=
  sorted_by (fun a b => JSNumber.leb (price_of a) (price_of b)) l.

Definition descending {A} (price_of : A -> JSNumber.number) (l : list A)
    : Prop :=
  sorted_by (fun a b => JSNumber.leb (price_of b) (price_of a)) l.

(** The elements of [l] whose price is [v], in their order. *)
Definition priced {A} (price_of : A -> JSNumber.number) (v : JSNumber.number)
    (l : list A) : list A :=
  List.filter
    (fun a => JSNumber.leb (price_of a) v && JSNumber.leb v (price_of a)) l.

(** The lines of a feed once every line feed is preceded by a carriage
    return: each line but the last gains one. *)
Fixpoint with_cr (lines : list string) : list string :=
  match lines with
  | [] => []
  | line :: lines' =>
      match lines' with
      | [] => [line]
      | _ :: _ => push line "013" :: with_cr lines'
      end
  end.

(** A feed with a column of sizes, whose one row has the quoted cell
    [S, M,,XL]. *)
Definition sized_feed : string :=
  "id,name,price,sizes" +:+ String newline
    ("1,Tee,450,"
     +:+ String dquote ("S, M,,XL" +:+ String dquote EmptyString)).

Definition sized_row : list string := ["1"; "Tee"; "450"; "S, M,,XL"].

(** A feed with a column of shipping costs, whose one row has the cell
    [free] there. *)
Definition free_shipping_feed : string :=
  "id,name,price,shipping" +:+ String newline "1,Tee,450,free".

Definition free_shipping_row : list string := ["1"; "Tee"; "450"; "free"].

(** A catalog of one tee and one cap. *)
Definition tee_and_cap : state :=
  {| items :=
       [ demo_product "1" "Logo Tee" "Cotton" 450 75 "T-Shirts" [] []
           "tee.png" false;
         demo_product "2" "Dad Cap" "Curved brim" 299 50 "Caps" [] []
           "cap.png" true ];
     categories := ["T-Shirts"; "Caps"];
     loaded := true |}.

(** A network that answers the first request with an empty feed and
    fails from then on. *)
Definition empty_then_down : network :=
  {| requested := [];
     reply := fun n =>
       match n with
       | O => Response true EmptyString
       | S _ => NetworkError
       end |}.

End CatalogSpec.

(** ** The cart, its storage and its badges *)

Module CartStateSpec.
Import JSNumber Cart CartSpec.

(** The text in the storage is the text of the lines in memory. *)
Definition persisted (w : world) : Prop :=
  getItem STORAGE_KEY (localStorage w) = Some (stringify_items (items w)).

(** Every badge shows the count of the cart. *)
Definition counted (w : world) : Prop :=
  Forall (fun badge => badge = getItemCount w) (badges w).

(** The storage of [w] has room for the text of the lines [l]. *)
Definition fits (l : list item) (w : world) : Prop :=
  (String.length STORAGE_KEY + String.length (stringify_items l)
   <= quota (localStorage w))%nat.

(** A code unit with which a JSON value can begin: a bracket, a brace, a
    quote, a minus sign, a digit, or the first letter of [true], [false]
    or [null]. *)
Definition begins_value (c : ascii) : bool :=
  Ascii.eqb c "[" || Ascii.eqb c "{" || Ascii.eqb c JSString.dquote
  || Ascii.eqb c "-"
  || match digit_of c with Some _ => true | None => false end
  || Ascii.eqb c "t" || Ascii.eqb c "f" || Ascii.eqb c "n".

(** A stored text that holds no JSON value: nothing but white space, or a
    first code unit with which no value begins. *)
Definition garbled (saved : string) : Prop :=
  match JSON.skip_space saved with
  | EmptyString => True
  | String c _ => begins_value c = false
  end.

(** What one line of an order comes to. *)
Definition order_line_price (l : order_item) : number :=
  mul (to_number (order_price l)) (to_number (order_quantity l)).

(** A page whose storage takes [room] code units and holds nothing. *)
Definition cramped (room : nat) (l : list item) : world :=
  {| items := l;
     localStorage := {| entries := ∅; quota := room |};
     badges := [Int 0];
     toasts := [] |}.

End CartStateSpec.

(** * Properties *)

Module JSStringFacts.
Import StringSpec.

Lemma append_empty_l (s : string) : EmptyString +:+ s = s.
Proof. reflexivity. Qed.

Lemma append_cons c (a b : string) : String c a +:+ b = String c (a +:+ b).
Proof. reflexivity. Qed.

Lemma append_empty_r (s : string) : s +:+ EmptyString = s.
Proof.
  induction s as [|c s IH]; [reflexivity|]. now rewrite append_cons, IH.
Qed.

Lemma append_assoc (a b c : string) : (a +:+ b) +:+ c = a +:+ (b +:+ c).
Proof.
  induction a as [|x a IH]; [reflexivity|]. now rewrite !append_cons, IH.
Qed.

Lemma chars_append (a b : string) : chars (a +:+ b) = chars a ++ chars b.
Proof.
  induction a as [|x a IH]; [reflexivity|].
  rewrite append_cons. simpl. now rewrite IH.
Qed.

Lemma length_append a b :
  String.length (a +:+ b) = (String.length a + String.length b)%nat.
Proof.
  induction a as [|c a IH]; [reflexivity|].
  rewrite append_cons. simpl. now rewrite IH.
Qed.

Lemma has_char_cons c x s : has_char c (String x s) <-> x = c \/ has_char c s.
Proof. reflexivity. Qed.

Lemma has_char_trimStart c s : has_char c (trimStart s) -> has_char c s.
Proof.
  unfold has_char.
  induction s as [|x s IH]; simpl; [tauto|].
  destruct (is_white x); [|tauto].
  intros H. right. now apply IH.
Qed.

Lemma has_char_trimEnd c s : has_char c (trimEnd s) -> has_char c s.
Proof.
  unfold has_char.
  induction s as [|x s IH]; simpl; [tauto|].
  destruct (is_white x && is_empty (trimEnd s)); simpl; [tauto|].
  intros [H|H]; [now left | right; now apply IH].
Qed.

Lemma has_char_trim c s : has_char c (trim s) -> has_char c s.
Proof. intros H. now apply has_char_trimStart, has_char_trimEnd. Qed.

Lemma trimEnd_idempotent s : trimEnd (trimEnd s) = trimEnd s.
Proof.
  induction s as [|c s IH]; [reflexivity|]. simpl.
  destruct (is_white c && is_empty (trimEnd s)) eqn:E; [reflexivity|].
  simpl. now rewrite IH, E.
Qed.

Lemma trimStart_starts_black s : starts_black (trimStart s).
Proof.
  induction s as [|c s IH]; simpl; [exact I|].
  destruct (is_white c) eqn:E; [exact IH | exact E].
Qed.

Lemma trimEnd_starts_black s : starts_black s -> starts_black (trimEnd s).
Proof.
  destruct s as [|c s]; simpl; [tauto|]. intros H. rewrite H. exact H.
Qed.

Lemma trimStart_black s : starts_black s -> trimStart s = s.
Proof. destruct s as [|c s]; simpl; [reflexivity|]. now intros ->. Qed.

Lemma trim_idempotent s : trim (trim s) = trim s.
Proof.
  unfold trim.
  rewrite (trimStart_black (trimEnd (trimStart s))).
  - apply trimEnd_idempotent.
  - apply trimEnd_starts_black, trimStart_starts_black.
Qed.

(** [trim] gives the string without the white space at its ends, and
    nothing else does. *)
Lemma trimStart_split s : exists l, s = l +:+ trimStart s /\ white l.
Proof.
  induction s as [|c s [l [IH Hl]]]; [now exists EmptyString|].
  cbn [trimStart]. destruct (is_white c) eqn:E.
  - exists (String c l). rewrite append_cons, <- IH. now split.
  - now exists EmptyString.
Qed.

Lemma trimEnd_split s : exists r, s = trimEnd s +:+ r /\ white r.
Proof.
  induction s as [|c s [r [IH Hr]]]; [now exists EmptyString|].
  cbn [trimEnd]. destruct (is_white c && is_empty (trimEnd s)) eqn:E.
  - apply andb_true_iff in E. destruct E as [Ec Et].
    exists (String c s). split; [reflexivity|]. split; [exact Ec|].
    destruct (trimEnd s); [|discriminate]. now rewrite IH.
  - exists r. rewrite append_cons, <- IH. now split.
Qed.

Lemma trimEnd_ends_black s : ends_black (trimEnd s).
Proof.
  induction s as [|c s IH]; [exact I|]. cbn [trimEnd].
  destruct (is_white c && is_empty (trimEnd s)) eqn:E; [exact I|].
  cbn [ends_black]. destruct (trimEnd s); [|exact IH].
  now rewrite andb_true_r in E.
Qed.

Lemma trim_stripped s : stripped s (trim s).
Proof.
  destruct (trimStart_split s) as [l [Hs Hl]].
  destruct (trimEnd_split (trimStart s)) as [r [Ht Hr]].
  exists l, r. unfold trim. rewrite <- Ht, <- Hs.
  split; [reflexivity|]. split; [exact Hl|]. split; [exact Hr|].
  split; [apply trimEnd_starts_black, trimStart_starts_black|].
  apply trimEnd_ends_black.
Qed.

Lemma trimStart_white l s : white l -> trimStart (l +:+ s) = trimStart s.
Proof.
  induction l as [|c l IH]; [reflexivity|]. intros [Hc Hl].
  rewrite append_cons. cbn [trimStart]. rewrite Hc. now apply IH.
Qed.

Lemma trimEnd_white r : white r -> trimEnd r = EmptyString.
Proof.
  induction r as [|c r IH]; [reflexivity|]. intros [Hc Hr].
  cbn [trimEnd]. now rewrite (IH Hr), Hc.
Qed.

Lemma trimEnd_black f r : ends_black f -> white r -> trimEnd (f +:+ r) = f.
Proof.
  intros Hf Hr. induction f as [|c f IH]; [now apply trimEnd_white|].
  rewrite append_cons. cbn [trimEnd]. cbn [ends_black] in Hf.
  destruct f as [|d f].
  - rewrite append_empty_l, (trimEnd_white r Hr), Hf. reflexivity.
  - rewrite (IH Hf), andb_false_r. reflexivity.
Qed.

Lemma stripped_trim raw f : stripped raw f <-> f = trim raw.
Proof.
  split; [|intros ->; apply trim_stripped].
  intros [l [r [-> [Hl [Hr [Hs He]]]]]]. unfold trim.
  rewrite (trimStart_white l _ Hl).
  destruct f as [|c f].
  - rewrite append_empty_l.
    assert (trimStart r = EmptyString) as ->; [|reflexivity].
    clear - Hr. induction r as [|c r IH]; [reflexivity|].
    destruct Hr as [Hc Hr]. cbn [trimStart]. rewrite Hc. now apply IH.
  - rewrite trimStart_black by (rewrite append_cons; exact Hs).
    symmetry. now apply trimEnd_black.
Qed.

(** Lower-casing tells letters apart exactly as far as their case does
    not. *)
Lemma code_units_all c : In c code_units.
Proof.
  unfold code_units. apply List.in_map_iff. exists (nat_of_ascii c).
  split; [apply ascii_nat_embedding|].
  apply in_seq. pose proof (nat_ascii_bounded c). lia.
Qed.

Lemma lower_char_same_letter a b :
  Ascii.eqb (lower_char a) (lower_char b) = same_letter a b.
Proof.
  assert (forallb
            (fun x =>
               forallb
                 (fun y =>
                    Bool.eqb (Ascii.eqb (lower_char x) (lower_char y))
                             (same_letter x y))
                 code_units)
            code_units = true) as H by (vm_compute; reflexivity).
  rewrite forallb_forall in H. specialize (H a (code_units_all a)).
  rewrite forallb_forall in H. specialize (H b (code_units_all b)).
  now apply Bool.eqb_prop.
Qed.

Lemma toLowerCase_same_text s : forall t,
  String.eqb (toLowerCase s) (toLowerCase t) = same_text s t.
Proof.
  induction s as [|a s IH]; intros [|b t]; try reflexivity.
  cbn [toLowerCase same_text String.eqb].
  rewrite <- lower_char_same_letter, <- IH.
  now destruct (Ascii.eqb (lower_char a) (lower_char b)).
Qed.

Lemma same_text_lower s t :
  same_text s t = true <-> toLowerCase s = toLowerCase t.
Proof. rewrite <- toLowerCase_same_text. apply String.eqb_eq. Qed.

Lemma Forall2_map_stripped l : Forall2 stripped l (List.map trim l).
Proof.
  induction l as [|x l IH]; cbn [List.map]; constructor;
    [apply trim_stripped | exact IH].
Qed.

Lemma has_char_push c s x : has_char c (push s x) <-> has_char c s \/ x = c.
Proof.
  unfold has_char, push. rewrite chars_append, in_app_iff. simpl. tauto.
Qed.

End JSStringFacts.

Module JSNumberFacts.
Import JSNumber NumberSpec.
Local Open Scope Z_scope.

Lemma pow10_pos n : 0 < pow10 n.
Proof. unfold pow10. apply Z.pow_pos_nonneg; lia. Qed.

Lemma pow10_0 : pow10 0 = 1.
Proof. reflexivity. Qed.

Lemma pow10_S n : pow10 (S n) = 10 * pow10 n.
Proof.
  unfold pow10. rewrite Nat2Z.inj_succ, Z.pow_succ_r; [reflexivity | lia].
Qed.

Lemma pow10_add a b : pow10 (a + b) = pow10 a * pow10 b.
Proof.
  unfold pow10. rewrite Nat2Z.inj_add, Z.pow_add_r; [reflexivity | lia | lia].
Qed.

Lemma digit_value_range r : 1 <= digit_value r <= 9.
Proof. destruct r; simpl; lia. Qed.

Lemma digit_value_nzdigit_of z : 1 <= z <= 9 -> digit_value (nzdigit_of z) = z.
Proof.
  intros H.
  assert (z = 1 \/ z = 2 \/ z = 3 \/ z = 4 \/ z = 5 \/ z = 6 \/ z = 7
          \/ z = 8 \/ z = 9) as Hz by lia.
  repeat (destruct Hz as [-> | Hz]; [reflexivity|]). now subst.
Qed.

Lemma digit_value_inj r r' : digit_value r = digit_value r' -> r = r'.
Proof. destruct r, r'; simpl; intros H; try reflexivity; discriminate. Qed.

Lemma finite_lowest x m d : finite x = Some (m, d) -> lowest m d.
Proof.
  destruct x; simpl; intros H; inversion H; subst; [now left | right].
  pose proof (digit_value_range r).
  rewrite Z.add_comm, Z.mul_comm, Z.mod_add by lia.
  rewrite Z.mod_small; lia.
Qed.

Lemma finite_inj x y p : finite x = Some p -> finite y = Some p -> x = y.
Proof.
  destruct x, y; simpl; intros Hx Hy; try discriminate;
    rewrite <- Hy in Hx; inversion Hx; subst; try reflexivity.
  pose proof (digit_value_range r). pose proof (digit_value_range r0).
  assert (q = q0) by lia. subst.
  assert (digit_value r = digit_value r0) as E by lia.
  apply digit_value_inj in E. now subst.
Qed.

(** [decimal m d] is finite, and is the number [m / 10 ^ d]. *)
Lemma finite_decimal d : forall m,
  exists m' d', finite (decimal m d) = Some (m', d')
                /\ m' * pow10 d = m * pow10 d'.
Proof.
  induction d as [|d IH]; intros m; simpl.
  - exists m, O. split; reflexivity.
  - destruct (m mod 10 =? 0) eqn:E.
    + apply Z.eqb_eq in E.
      destruct (IH (m / 10)) as (m' & d' & Hf & Hv).
      exists m', d'. split; [exact Hf|].
      rewrite pow10_S.
      assert (m = 10 * (m / 10)) as Hm by (pose proof (Z.div_mod m 10); lia).
      rewrite Hm at 1. lia.
    + apply Z.eqb_neq in E.
      exists m, (S d). split; [|reflexivity]. simpl.
      pose proof (Z.mod_pos_bound m 10).
      rewrite digit_value_nzdigit_of by lia.
      pose proof (Z.div_mod m 10). do 2 f_equal. lia.
Qed.

Lemma is_finite_decimal m d : is_finite (decimal m d) = true.
Proof.
  unfold is_finite. destruct (finite_decimal d m) as (m' & d' & Hf & _).
  now rewrite Hf.
Qed.

(** Two lowest forms of one number are the same form. *)
Lemma lowest_unique m1 d1 m2 d2 :
  lowest m1 d1 -> lowest m2 d2 ->
  m1 * pow10 d2 = m2 * pow10 d1 -> m1 = m2 /\ d1 = d2.
Proof.
  assert (Hlt : forall a i b j, lowest b j -> (i < j)%nat ->
                  a * pow10 j = b * pow10 i -> False).
  { intros a i b j Hb Hij H.
    replace j with (i + S (j - i - 1))%nat in H by lia.
    rewrite pow10_add, pow10_S in H.
    pose proof (pow10_pos i).
    assert (b = 10 * (a * pow10 (j - i - 1))) as Hb10 by nia.
    destruct Hb as [Hb | Hb]; [lia|]. apply Hb.
    rewrite Hb10, Z.mul_comm. apply Z.mod_mul. lia. }
  intros H1 H2 H.
  destruct (Nat.lt_trichotomy d1 d2) as [Hd | [Hd | Hd]].
  - exfalso. exact (Hlt m1 d1 m2 d2 H2 Hd H).
  - subst d2. split; [|reflexivity]. pose proof (pow10_pos d1). nia.
  - exfalso. symmetry in H. exact (Hlt m2 d2 m1 d1 H1 Hd H).
Qed.

Lemma decimal_eq m d m' d' :
  m * pow10 d' = m' * pow10 d -> decimal m d = decimal m' d'.
Proof.
  intros H.
  destruct (finite_decimal d m) as (a & i & Ha & Hav).
  destruct (finite_decimal d' m') as (b & j & Hb & Hbv).
  assert (a * pow10 j = b * pow10 i) as E.
  { pose proof (pow10_pos d). pose proof (pow10_pos d').
    apply (Z.mul_reg_r _ _ (pow10 d * pow10 d')); [nia|].
    replace (a * pow10 j * (pow10 d * pow10 d'))
      with (a * pow10 d * pow10 j * pow10 d') by ring.
    replace (b * pow10 i * (pow10 d * pow10 d'))
      with (b * pow10 d' * pow10 d * pow10 i) by ring.
    rewrite Hav, Hbv.
    replace (m * pow10 i * pow10 j * pow10 d')
      with (m * pow10 d' * pow10 i * pow10 j) by ring.
    rewrite H. ring. }
  destruct (lowest_unique a i b j (finite_lowest _ _ _ Ha)
              (finite_lowest _ _ _ Hb) E) as [-> ->].
  exact (finite_inj _ _ _ Ha Hb).
Qed.

Lemma decimal_finite x m d : finite x = Some (m, d) -> decimal m d = x.
Proof.
  intros H.
  destruct (finite_decimal d m) as (a & i & Ha & Hav).
  assert (m * pow10 i = a * pow10 d) as E by lia.
  destruct (lowest_unique m d a i (finite_lowest _ _ _ H)
              (finite_lowest _ _ _ Ha) E) as [-> ->].
  exact (finite_inj _ _ _ Ha H).
Qed.

Lemma add_finite x y a i b j :
  finite x = Some (a, i) -> finite y = Some (b, j) ->
  add x y = in_range (decimal (a * pow10 j + b * pow10 i) (i + j)).
Proof.
  intros Hx Hy.
  destruct x; try discriminate; destruct y; try discriminate;
    unfold add; rewrite Hx, Hy; reflexivity.
Qed.

Lemma is_finite_of x p : finite x = Some p -> is_finite x = true.
Proof. unfold is_finite. now intros ->. Qed.

Lemma is_finite_none x : finite x = None -> is_finite x = false.
Proof. unfold is_finite. now intros ->. Qed.

(** An integer within the range of binary64 is kept as it is. *)
Lemma in_range_Int z : Z.abs z < huge -> in_range (Int z) = Int z.
Proof.
  intros H. unfold in_range, underflows, overflows. cbn [finite].
  rewrite pow10_0, Z.mul_1_r.
  assert (1 < 2 ^ 1075) as Hp by (apply Z.pow_gt_1; lia).
  destruct (Z.leb_spec (Z.abs z * 2 ^ 1075) 1) as [Hu|Hu].
  - f_equal. nia.
  - destruct (Z.leb_spec huge (Z.abs z)); [lia|reflexivity].
Qed.

Lemma add_Int a b : Z.abs (a + b) < huge -> add (Int a) (Int b) = Int (a + b).
Proof.
  intros H. rewrite (add_finite (Int a) (Int b) a O b O eq_refl eq_refl).
  cbn [decimal Nat.add]. rewrite pow10_0, !Z.mul_1_r. now apply in_range_Int.
Qed.


Lemma safe_integer_lt_huge : 2 ^ 53 < huge.
Proof. vm_compute. reflexivity. Qed.

Lemma Z_sum_nonneg zs : Forall (fun z => 0 <= z) zs -> 0 <= Z_sum zs.
Proof. unfold Z_sum. induction 1 as [|z zs Hz _ IH]; cbn; lia. Qed.

(** Natural numbers added up from a natural number: while the result
    stays within the range of binary64 the additions are exact. *)
Lemma fold_left_add_Int zs : forall acc,
  Forall (fun z => 0 <= z) zs -> 0 <= acc -> acc + Z_sum zs < huge ->
  fold_left add (List.map Int zs) (Int acc) = Int (acc + Z_sum zs).
Proof.
  induction zs as [|z zs IH]; intros acc H Ha Hb; cbn [List.map fold_left].
  - cbn. f_equal. lia.
  - inversion H as [|? ? Hz Hzs]. subst.
    pose proof (Z_sum_nonneg zs Hzs) as Hn.
    change (Z_sum (z :: zs)) with (z + Z_sum zs) in *.
    rewrite add_Int by lia. rewrite IH by (assumption || lia).
    f_equal. lia.
Qed.

(** A fold that adds up [f x] over a list is the sum of the list of the
    [f x]. *)
Lemma fold_left_sum {A} (f : A -> number) l : forall total,
  fold_left (fun t x => add t (f x)) l total
  = fold_left add (List.map f l) total.
Proof.
  induction l as [|x l IH]; intros total; [reflexivity|]. cbn. apply IH.
Qed.

End JSNumberFacts.

Module ParseCSVLineFacts.
Import Products CSVSpec FeedExamples StringSpec JSStringFacts.

Lemma split_when_nonempty {A} (p : A -> bool) l : split_when p l <> [].
Proof.
  destruct l as [|x l]; simpl; [discriminate|].
  destruct (p x); [discriminate|].
  destruct (split_when p l); discriminate.
Qed.

(** The loop, started in any state, yields the fields already pushed,
    then the pending text completed by the first piece, then the
    remaining pieces. *)
Lemma loop_fields line : forall values current inQuotes,
  parseCSVLine_loop line values current inQuotes =
  values ++ head_field current (split_when is_delimiter (mark inQuotes line)).
Proof.
  induction line as [|c rest IH]; intros values current inQ.
  - simpl. now rewrite append_empty_r.
  - cbn [parseCSVLine_loop mark split_when].
    assert (Hd : is_delimiter (c, inQ) = Ascii.eqb c comma && negb inQ)
      by reflexivity.
    rewrite Hd. clear Hd.
    destruct (Ascii.eqb c dquote) eqn:Hq.
    + apply Ascii.eqb_eq in Hq. subst c. rewrite IH.
      cbn [Ascii.eqb andb comma dquote]. simpl.
      pose proof (split_when_nonempty is_delimiter (mark (negb inQ) rest)) as Hne.
      destruct (split_when is_delimiter (mark (negb inQ) rest)) as [|seg segs];
        [congruence|]. reflexivity.
    + pose proof (split_when_nonempty is_delimiter (mark inQ rest)) as Hne.
      destruct (Ascii.eqb c comma && negb inQ) eqn:Hc; rewrite IH;
        destruct (split_when is_delimiter (mark inQ rest)) as [|seg segs];
        try congruence; cbn [head_field text map].
      * rewrite append_empty_r, append_empty_l, <- app_assoc. reflexivity.
      * rewrite Hq. unfold push.
        rewrite append_assoc, append_cons, append_empty_l. reflexivity.
Qed.

Lemma parseCSVLine_fields line : parseCSVLine line = fields line.
Proof.
  unfold parseCSVLine, fields. rewrite loop_fields. simpl.
  pose proof (split_when_nonempty is_delimiter (mark false line)) as Hne.
  destruct (split_when is_delimiter (mark false line)); [congruence|].
  reflexivity.
Qed.

Lemma length_split_when {A} (p : A -> bool) l :
  List.length (split_when p l) = S (List.length (List.filter p l)).
Proof.
  induction l as [|x l IH]; simpl; [reflexivity|].
  destruct (p x); simpl; [now rewrite IH|].
  destruct (split_when p l); simpl in *; lia.
Qed.

Lemma text_no_quote seg : ~ has_char dquote (text seg).
Proof.
  unfold has_char.
  induction seg as [|[c b] seg IH]; simpl; [tauto|].
  destruct (Ascii.eqb c dquote) eqn:E; [exact IH|].
  simpl. intros [H|H]; [|tauto].
  subst c. now rewrite Ascii.eqb_refl in E.
Qed.

Lemma fields_pieces line : fields line = List.map trim (pieces line).
Proof. unfold fields, pieces. now rewrite List.map_map. Qed.

(** C4. For every line, [parseCSVLine] returns the pieces of the line cut
    at the commas read outside a quoted span, where every quote character
    toggles the span and none is escaped, each piece without its quote
    characters and without the white space at its two ends: one field
    more than there are such commas, none beginning or ending with white
    space. The line [a,"b,c",d] gives the three fields [a], [b,c], [d],
    and the line [ a ,<tab>"b, c" ,d ] the fields [a], [b, c], [d]. *)
Theorem C4_parseCSVLine_splits_outside_quotes :
  (forall line, Forall2 stripped (pieces line) (parseCSVLine line)) /\
  (forall line, parseCSVLine line = fields line) /\
  (forall line, List.length (parseCSVLine line) = S (delimiters line)) /\
  (forall line,
     Forall (fun f => starts_black f /\ ends_black f) (parseCSVLine line)) /\
  parseCSVLine quoted_line = ["a"; "b,c"; "d"] /\
  parseCSVLine padded_line = ["a"; "b, c"; "d"].
Proof.
  split; [|split; [exact parseCSVLine_fields|split; [|split; [|split]]]].
  - intros line. rewrite parseCSVLine_fields, fields_pieces.
    apply Forall2_map_stripped.
  - intros line. rewrite parseCSVLine_fields. unfold fields, delimiters.
    rewrite List.length_map. apply length_split_when.
  - intros line. rewrite parseCSVLine_fields. unfold fields.
    apply List.Forall_forall. intros f Hf. apply List.in_map_iff in Hf.
    destruct Hf as [seg [<- _]].
    destruct (trim_stripped (text seg)) as [l [r [_ [_ [_ H]]]]]. exact H.
  - reflexivity.
  - reflexivity.
Qed.

(** C10. No field returned by [parseCSVLine] contains a double-quote
    character: the quote only toggles the inside-quotes state and is
    never appended to the field being built. *)
Theorem C10_parseCSVLine_fields_have_no_quote :
  forall line, Forall (fun f => ~ has_char dquote f) (parseCSVLine line).
Proof.
  intros line. rewrite parseCSVLine_fields. unfold fields.
  apply List.Forall_forall. intros f Hf. apply List.in_map_iff in Hf.
  destruct Hf as [seg [<- _]]. intros H.
  apply has_char_trim in H. exact (text_no_quote seg H).
Qed.

End ParseCSVLineFacts.

Module CartFacts.
Import JSNumber NumberSpec JSNumberFacts Cart CartSpec CartExamples.

(** What [save], [toast] and [updateCartCount] leave alone. *)
Lemma items_updateCartCount w : items (updateCartCount w) = items w.
Proof. reflexivity. Qed.

Lemma items_save w : items (save w) = items w.
Proof.
  unfold save.
  destruct (setItem STORAGE_KEY (stringify_items (items w)) (localStorage w));
    reflexivity.
Qed.

Lemma items_toast m t w : items (toast m t w) = items w.
Proof. reflexivity. Qed.

Lemma items_set_items l w : items (set_items l w) = l.
Proof. reflexivity. Qed.



Lemma natural_to_number a :
  natural a -> to_number a = Int (whole_of a) /\ (0 <= whole_of a)%Z.
Proof. intros [z [-> Hz]]. now split. Qed.







(** C9. Building the order leaves the state of the cart as it was, and the
    order lists one entry per line, in order, holding the id, name, size,
    color, quantity and price of the line. Shipping, image and category
    are not part of an entry: lines that agree on the six properties give
    the same entry. *)
Theorem C9_prepareOrderData_frame :
  forall (C : Type) (customerInfo : C) (now : string) (w : world),
    snd (prepareOrderData customerInfo now w) = w /\
    List.length (order_items (fst (prepareOrderData customerInfo now w)))
      = List.length (items w) /\
    (forall i it,
       items w !! i = Some it ->
       order_items (fst (prepareOrderData customerInfo now w)) !! i
       = Some {| order_id := id it; order_name := name it;
                 order_size := size it; order_color := color it;
                 order_quantity := quantity it; order_price := price it |}) /\
    (forall a b,
       id a = id b -> name a = name b -> size a = size b ->
       color a = color b -> quantity a = quantity b -> price a = price b ->
       snapshot a = snapshot b).
Proof.
  intros C customerInfo now w. simpl.
  split; [reflexivity|]. split; [apply List.length_map|]. split.
  - intros i it Hi. rewrite list_lookup_fmap, Hi. reflexivity.
  - intros a b H1 H2 H3 H4 H5 H6. unfold snapshot. congruence.
Qed.

Lemma C9_prepareOrderData_witness :
  let w := example_world [example_line "a" 100 10 2] in
  order_items (fst (prepareOrderData tt "2026-01-01T00:00:00.000Z" w)) !! 0%nat
  = Some {| order_id := "a"; order_name := "a"; order_size := "M";
            order_color := "Black"; order_quantity := Num (Int 2);
            order_price := Num (Int 100) |}.
Proof.
  intros w.
  apply (proj1 (proj2 (proj2 (C9_prepareOrderData_frame unit tt
           "2026-01-01T00:00:00.000Z" w))) 0%nat (example_line "a" 100 10 2)).
  reflexivity.
Defined.

(** *** Updating and removing a line *)

Lemma bounds_check_true index w :
  in_bounds index w ->
  ((0 <=? index) && (index <? Z.of_nat (List.length (items w))))%Z = true.
Proof. unfold in_bounds. intros H. apply andb_true_iff. lia. Qed.

Lemma bounds_check_false index w :
  ~ in_bounds index w ->
  ((0 <=? index) && (index <? Z.of_nat (List.length (items w))))%Z = false.
Proof. unfold in_bounds. intros H. apply andb_false_iff. lia. Qed.

Lemma in_bounds_lookup index w :
  in_bounds index w -> exists it, items w !! Z.to_nat index = Some it.
Proof.
  unfold in_bounds. intros H.
  destruct (lookup_lt_is_Some_2 (items w) (Z.to_nat index)) as [it Hit];
    [lia | eauto].
Qed.

Lemma items_remove index w :
  in_bounds index w ->
  items (remove index w) = delete (Z.to_nat index) (items w).
Proof.
  intros H. unfold remove. rewrite (bounds_check_true _ _ H).
  destruct (in_bounds_lookup _ _ H) as [it ->].
  now rewrite items_toast, items_save.
Qed.

Lemma gtb_not_leb x y : gtb x y = true -> leb x y = false.
Proof.
  unfold gtb. destruct x, y; try discriminate;
    intros H; now apply negb_true_iff in H.
Qed.

Lemma alter_as_insert {A} (f : A -> A) (l : list A) i x :
  l !! i = Some x -> alter f i l = <[i := f x]> l.
Proof.
  revert i. induction l as [|y l IH]; intros [|i] H; simpl in *;
    try discriminate.
  - now inversion H.
  - f_equal. now apply IH.
Qed.

(** C6. [updateQuantity(i, q)] with [i] in bounds removes line [i] when
    [q <= 0] and overwrites the quantity of line [i] with [q] when [q > 0],
    and with [i] out of bounds it leaves the whole state as it was: the
    lines, the storage, the badges and the notifications. [remove(i)] with
    [i] out of bounds does the same. *)
Theorem C6_updateQuantity_and_remove_bounds :
  forall (w : world) (index : Z) (q : number),
    (in_bounds index w -> leb q (Int 0) = true ->
     items (updateQuantity index q w) = delete (Z.to_nat index) (items w)) /\
    (forall it,
       in_bounds index w -> gtb q (Int 0) = true ->
       items w !! Z.to_nat index = Some it ->
       items (updateQuantity index q w)
       = <[Z.to_nat index := set_quantity q it]> (items w)
       /\ quantity (set_quantity q it) = Num q) /\
    (~ in_bounds index w -> updateQuantity index q w = w) /\
    (~ in_bounds index w -> remove index w = w).
Proof.
  intros w index q. repeat split.
  - intros Hb Hq. unfold updateQuantity.
    rewrite (bounds_check_true _ _ Hb), Hq. now apply items_remove.
  - unfold updateQuantity.
    rewrite (bounds_check_true _ _ H), (gtb_not_leb _ _ H0).
    rewrite items_save, items_set_items. now apply alter_as_insert.
  - intros Hb. unfold updateQuantity. now rewrite (bounds_check_false _ _ Hb).
  - intros Hb. unfold remove. now rewrite (bounds_check_false _ _ Hb).
Qed.

Lemma C6_updateQuantity_witness :
  let w := example_world [example_line "a" 100 10 2; example_line "b" 50 5 1] in
  items (updateQuantity 0 (Int 0) w) = [example_line "b" 50 5 1]
  /\ items (updateQuantity 1 (Int 7) w)
     = [example_line "a" 100 10 2; example_line "b" 50 5 7]
  /\ updateQuantity 2 (Int 7) w = w
  /\ remove (-1) w = w.
Proof.
  intros w.
  pose proof (C6_updateQuantity_and_remove_bounds w 0 (Int 0)) as (H0 & _).
  pose proof (C6_updateQuantity_and_remove_bounds w 1 (Int 7)) as (_ & H1 & _).
  pose proof (C6_updateQuantity_and_remove_bounds w 2 (Int 7)) as (_ & _ & H2 & _).
  pose proof (C6_updateQuantity_and_remove_bounds w (-1) (Int 7)) as (_ & _ & _ & H3).
  split; [|split; [|split]].
  - apply H0; [unfold in_bounds; simpl; lia | reflexivity].
  - apply (H1 (example_line "b" 50 5 1));
      [unfold in_bounds; simpl; lia | reflexivity | reflexivity].
  - apply H2. unfold in_bounds. simpl. lia.
  - apply H3. unfold in_bounds. simpl. lia.
Defined.

(** *** One line per product, size and color *)

Lemma same_line_key p s c it :
  same_line p s c it = true <-> key it = (product_id p, s, c).
Proof.
  unfold same_line, key. rewrite !andb_true_iff, !String.eqb_eq.
  split; [intros [[-> ->] ->]; reflexivity | intros H; inversion H; auto].
Qed.

Lemma findIndex_None f l : forall k,
  findIndex f l k = None <-> Forall (fun x => f x = false) l.
Proof.
  induction l as [|x l IH]; intros k; simpl.
  - split; [constructor | reflexivity].
  - destruct (f x) eqn:E.
    + split; [discriminate|]. intros H. inversion H; congruence.
    + rewrite IH. split; [now constructor | intros H; now inversion H].
Qed.

(** [findIndex] returns the first position that satisfies the test. *)
Lemma findIndex_Some f l : forall k i,
  findIndex f l k = Some i ->
  exists j x, i = (k + j)%nat /\ l !! j = Some x /\ f x = true.
Proof.
  induction l as [|x l IH]; intros k i; simpl; [discriminate|].
  destruct (f x) eqn:E.
  - intros H. inversion H; subst. exists 0%nat, x. split; [lia | auto].
  - intros H. destruct (IH _ _ H) as (j & y & -> & Hj & Hy).
    exists (S j), y. split; [lia | auto].
Qed.

Lemma findIndex_found f l i x :
  l !! i = Some x -> f x = true -> exists j, findIndex f l 0 = Some j.
Proof.
  intros Hi Hx. destruct (findIndex f l 0) eqn:E; [eauto|].
  apply findIndex_None in E. rewrite List.Forall_forall in E.
  assert (In x l) as Hin by (apply list_elem_of_In, list_elem_of_lookup; eauto).
  specialize (E x Hin). congruence.
Qed.

(** Under the invariant the line found is the line with the key. *)
Lemma findIndex_unique p s c l i it :
  unique_lines l -> l !! i = Some it -> key it = (product_id p, s, c) ->
  findIndex (same_line p s c) l 0 = Some i.
Proof.
  intros Hu Hi Hk.
  destruct (findIndex_found (same_line p s c) l i it Hi) as [j Hj];
    [now apply same_line_key|].
  destruct (findIndex_Some _ _ _ _ Hj) as (j' & y & -> & Hy & Hs).
  simpl in *. apply same_line_key in Hs.
  rewrite Hj. f_equal.
  apply (NoDup_lookup (key <$> l) j' i (product_id p, s, c) Hu).
  - now rewrite list_lookup_fmap, Hy, <- Hs.
  - now rewrite list_lookup_fmap, Hi, <- Hk.
Qed.

Lemma key_alter (f : item -> item) (l : list item) (i : nat) :
  (forall x, key (f x) = key x) -> key <$> alter f i l = key <$> l.
Proof.
  intros Hf. revert i. induction l as [|x l IH]; intros [|i]; simpl;
    try reflexivity.
  - now rewrite Hf.
  - f_equal. apply IH.
Qed.

Lemma items_add p s c q w :
  items (snd (add p s c q w)) =
  match findIndex (same_line p s c) (items w) 0 with
  | Some i => alter (add_quantity q) i (items w)
  | None => items w ++ [cartItem p s c q]
  end.
Proof.
  unfold add. cbn [snd]. rewrite items_toast, items_save.
  destruct (findIndex (same_line p s c) (items w) 0); reflexivity.
Qed.

Lemma add_existing p s c q w i it :
  unique_lines (items w) -> items w !! i = Some it ->
  key it = (product_id p, s, c) ->
  items (snd (add p s c q w)) = <[i := add_quantity q it]> (items w).
Proof.
  intros Hu Hi Hk. rewrite items_add, (findIndex_unique _ _ _ _ _ _ Hu Hi Hk).
  now apply alter_as_insert.
Qed.

Lemma add_new p s c q w :
  (forall it, In it (items w) -> key it <> (product_id p, s, c)) ->
  items (snd (add p s c q w)) = items w ++ [cartItem p s c q].
Proof.
  intros Hn. rewrite items_add.
  destruct (findIndex (same_line p s c) (items w) 0) eqn:E; [|reflexivity].
  destruct (findIndex_Some _ _ _ _ E) as (j & y & _ & Hy & Hs).
  apply same_line_key in Hs. exfalso. apply (Hn y); [|exact Hs].
  apply list_elem_of_In, list_elem_of_lookup. eauto.
Qed.

Lemma unique_add p s c q w :
  unique_lines (items w) -> unique_lines (items (snd (add p s c q w))).
Proof.
  unfold unique_lines. intros Hu. rewrite items_add.
  destruct (findIndex (same_line p s c) (items w) 0) eqn:E.
  - now rewrite key_alter.
  - rewrite fmap_app. apply NoDup_app. split; [exact Hu|]. split.
    + intros k Hk Hk'. apply list_elem_of_fmap in Hk as (y & -> & Hy).
      apply list_elem_of_singleton in Hk'.
      apply findIndex_None in E. rewrite List.Forall_forall in E.
      apply list_elem_of_In in Hy. specialize (E y Hy).
      assert (same_line p s c y = true) by (apply same_line_key; exact Hk').
      congruence.
    + apply NoDup_singleton.
Qed.

Lemma unique_delete (i : nat) (l : list item) :
  unique_lines l -> unique_lines (delete i l).
Proof.
  unfold unique_lines. intros Hu. rewrite list_fmap_delete.
  exact (sublist_NoDup _ _ Hu (sublist_delete _ _)).
Qed.

Lemma unique_remove index w :
  unique_lines (items w) -> unique_lines (items (remove index w)).
Proof.
  intros Hu. unfold remove.
  destruct ((0 <=? index) && (index <? Z.of_nat (List.length (items w))))%Z;
    [|exact Hu].
  destruct (items w !! Z.to_nat index); [|exact Hu].
  rewrite items_toast, items_save, items_set_items. now apply unique_delete.
Qed.

Lemma unique_updateQuantity index q w :
  unique_lines (items w) -> unique_lines (items (updateQuantity index q w)).
Proof.
  intros Hu. unfold updateQuantity.
  destruct ((0 <=? index) && (index <? Z.of_nat (List.length (items w))))%Z;
    [|exact Hu].
  destruct (leb q (Int 0)); [now apply unique_remove|].
  rewrite items_save, items_set_items. unfold unique_lines.
  now rewrite key_alter.
Qed.

Lemma unique_clear w : unique_lines (items (clear w)).
Proof.
  unfold clear. rewrite items_save, items_set_items. apply NoDup_nil_2.
Qed.

Lemma unique_perform op w :
  unique_lines (items w) -> unique_lines (items (perform w op)).
Proof.
  destruct op; simpl; intros Hu.
  - now apply unique_add.
  - now apply unique_remove.
  - now apply unique_updateQuantity.
  - apply unique_clear.
Qed.

Lemma unique_run ops : forall w,
  unique_lines (items w) -> unique_lines (items (run ops w)).
Proof.
  induction ops as [|op ops IH]; intros w Hu; simpl; [exact Hu|].
  apply IH. now apply unique_perform.
Qed.

(** C3. In a cart with at most one line per (id, size, color),
    [add(product, size, color, quantity)] increments the quantity of the
    line with that triple by the given amount and appends nothing when
    there is such a line, and appends exactly one new line otherwise;
    every sequence of [add], [remove], [updateQuantity] and [clear] keeps
    at most one line per triple; and adding a triple that is not in the
    cart with quantity 2 and then 3 leaves one line for it, of
    quantity 5. *)
Theorem C3_add_keeps_one_line_per_triple :
  (forall w p s c q i it,
     unique_lines (items w) -> items w !! i = Some it ->
     key it = (product_id p, s, c) ->
     items (snd (add p s c q w)) = <[i := add_quantity q it]> (items w)
     /\ quantity (add_quantity q it)
        = Num (JSNumber.add (to_number (quantity it)) q)
     /\ List.length (items (snd (add p s c q w))) = List.length (items w)) /\
  (forall w p s c q,
     (forall it, In it (items w) -> key it <> (product_id p, s, c)) ->
     items (snd (add p s c q w)) = items w ++ [cartItem p s c q]) /\
  (forall ops w,
     unique_lines (items w) -> unique_lines (items (run ops w))) /\
  (forall w p s c,
     unique_lines (items w) ->
     (forall it, In it (items w) -> key it <> (product_id p, s, c)) ->
     items (snd (add p s c (Int 3) (snd (add p s c (Int 2) w))))
     = items w ++ [cartItem p s c (Int 5)]).
Proof.
  split; [|split; [|split]].
  - intros w p s c q i it Hu Hi Hk.
    rewrite (add_existing _ _ _ _ _ _ _ Hu Hi Hk).
    split; [reflexivity|]. split; [reflexivity|]. apply length_insert.
  - intros w p s c q. apply add_new.
  - exact unique_run.
  - intros w p s c Hu Hn.
    pose proof (add_new p s c (Int 2) w Hn) as H2.
    assert (unique_lines (items (snd (add p s c (Int 2) w)))) as Hu2
      by now apply unique_add.
    rewrite (add_existing p s c (Int 3) _ (List.length (items w))
               (cartItem p s c (Int 2)) Hu2).
    + rewrite H2. rewrite insert_app_r_alt by lia.
      rewrite Nat.sub_diag. reflexivity.
    + rewrite H2. rewrite lookup_app_r by lia.
      now rewrite Nat.sub_diag.
    + reflexivity.
Qed.

Lemma C3_add_witness :
  let w := example_world [example_line "a" 100 10 2] in
  items (snd (add example_product "M" "Black" (Int 3)
                (snd (add example_product "M" "Black" (Int 2) w))))
  = [example_line "a" 100 10 2;
     cartItem example_product "M" "Black" (Int 5)].
Proof.
  intros w.
  apply (proj2 (proj2 (proj2 C3_add_keeps_one_line_per_triple))
           w example_product "M" "Black").
  - unfold unique_lines. simpl. apply NoDup_singleton.
  - intros it [<- | []]. discriminate.
Defined.

End CartFacts.

Module ParseCSVFacts.
Import Products FeedSpec FeedExamples.

Lemma parseCSV_loop_filter headers lines : forall products,
  parseCSV_loop headers lines products =
  products ++
  List.map (row_product headers)
    (List.filter (fun values => has_required (row_product headers values))
       (List.map parseCSVLine lines)).
Proof.
  induction lines as [|line lines IH]; intros products; simpl.
  - now rewrite app_nil_r.
  - rewrite IH.
    destruct (has_required (row_product headers (parseCSVLine line))); simpl.
    + now rewrite <- app_assoc.
    + reflexivity.
Qed.

Lemma parseCSV_rows csv :
  parseCSV csv =
  List.map (row_product (header_keys csv))
    (List.filter
       (fun values => has_required (row_product (header_keys csv) values))
       (data_rows csv)).
Proof.
  unfold parseCSV, header_keys, data_rows.
  destruct (List.length (feed_lines csv) <? 2)%nat eqn:E.
  - apply Nat.ltb_lt in E.
    destruct (feed_lines csv) as [|l1 [|l2 ls]]; simpl in *;
      [reflexivity | reflexivity | lia].
  - now rewrite parseCSV_loop_filter.
Qed.

(** A property read of the object built from a row is the typed cell of
    the last column of that name. *)
Lemma assign_columns_lookup h headers : forall index values (p : product),
  h <> "__proto__" ->
  assign_columns headers index values p !! h =
  match cell_from headers index values h with
  | Some v => Some (coerce h v)
  | None => p !! h
  end.
Proof.
  induction headers as [|header headers IH]; intros index values p Hh; simpl.
  - reflexivity.
  - rewrite IH by exact Hh.
    destruct (cell_from headers (S index) values h); [reflexivity|].
    unfold set_property.
    destruct (String.eqb header "__proto__") eqn:Ep.
    + apply String.eqb_eq in Ep. subst header.
      destruct (String.eqb_spec "__proto__" h); [congruence | reflexivity].
    + destruct (String.eqb_spec header h) as [-> | Hne].
      * now rewrite lookup_insert_eq.
      * now rewrite lookup_insert_ne.
Qed.

Lemma row_product_lookup h headers values :
  h <> "__proto__" ->
  row_product headers values !! h = coerce h <$> cell headers values h.
Proof.
  intros Hh. unfold row_product, cell.
  rewrite assign_columns_lookup by exact Hh.
  destruct (cell_from headers 0 values h); [reflexivity | apply lookup_empty].
Qed.

Lemma truthy_text headers values h :
  h <> "__proto__" -> coerce h = VStr ->
  truthy (row_product headers values !! h) = true <-> has_text headers values h.
Proof.
  intros Hh Hc. rewrite row_product_lookup by exact Hh. rewrite Hc.
  unfold has_text. destruct (cell headers values h) as [v|]; simpl.
  - destruct v; simpl.
    + split; [discriminate | intros (v & Hv & Hne); inversion Hv; congruence].
    + split; [intros _; eexists; split; [reflexivity | discriminate] | reflexivity].
  - split; [discriminate | intros (v & Hv & _); discriminate].
Qed.

Lemma truthy_price headers values :
  truthy (row_product headers values !! "price") = true <->
  exists v, cell headers values "price" = Some v
            /\ JSNumber.truthy (JSNumber.parseFloat v) = true.
Proof.
  rewrite row_product_lookup by discriminate.
  destruct (cell headers values "price") as [v|]; simpl.
  - assert (JSNumber.truthy
              (if JSNumber.truthy (JSNumber.parseFloat v)
               then JSNumber.parseFloat v else JSNumber.Int 0)
            = JSNumber.truthy (JSNumber.parseFloat v)) as E
      by (destruct (JSNumber.truthy (JSNumber.parseFloat v)) eqn:T;
          [exact T | reflexivity]).
    unfold coerce. simpl. rewrite E.
    split; [intros H; eauto | intros (v' & Hv & H); inversion Hv; now subst].
  - split; [discriminate | intros (v & Hv & _); discriminate].
Qed.

Lemma has_required_accepted headers values :
  has_required (row_product headers values) = true <-> accepted headers values.
Proof.
  unfold has_required, accepted. rewrite !andb_true_iff.
  rewrite (truthy_text headers values "id") by (reflexivity || discriminate).
  rewrite (truthy_text headers values "name") by (reflexivity || discriminate).
  rewrite truthy_price. tauto.
Qed.

(** C1, as the code has it. The catalog of a feed holds, in order, the
    objects of the data rows that pass the test of [parseCSV], and a row
    passes if and only if it has a non-empty id, a non-empty name and a
    price that reads as a number other than zero: a price that is missing,
    not a number, or zero excludes the row, and so does a price too small
    for a binary64 number, which reads as zero: the row [1,Tee,1e-400] is
    dropped. *)
Theorem C1_rows_accepted_with_nonzero_price :
  (forall csv,
     parseCSV csv =
     List.map (row_product (header_keys csv))
       (List.filter
          (fun values => has_required (row_product (header_keys csv) values))
          (data_rows csv))) /\
  (forall headers values,
     has_required (row_product headers values) = true
     <-> accepted headers values) /\
  (forall csv p,
     In p (parseCSV csv) <->
     exists values,
       In values (data_rows csv)
       /\ accepted (header_keys csv) values
       /\ p = row_product (header_keys csv) values) /\
  (JSNumber.parseFloat "1e-400" = JSNumber.Int 0
   /\ data_rows tiny_price_feed = [["1"; "Tee"; "1e-400"]]
   /\ parseCSV tiny_price_feed = []).
Proof.
  split; [exact parseCSV_rows|]. split; [exact has_required_accepted|].
  split; [|split; [|split]; vm_compute; reflexivity].
  intros csv p. rewrite parseCSV_rows, List.in_map_iff.
  split.
  - intros (values & <- & Hin). apply List.filter_In in Hin as [Hin Hreq].
    exists values. split; [exact Hin|]. split; [|reflexivity].
    now apply has_required_accepted.
  - intros (values & Hin & Hacc & ->). exists values. split; [reflexivity|].
    apply List.filter_In. split; [exact Hin|].
    now apply has_required_accepted.
Qed.

(** C1 as stated fails: the row [1,Tee,0] has an id, a name and a price,
    and the catalog of its feed is empty. *)
Lemma C1_zero_price_row_is_dropped :
  In ["1"; "Tee"; "0"] (data_rows free_tee_feed)
  /\ accepted_with_any_price (header_keys free_tee_feed) ["1"; "Tee"; "0"]
  /\ parseCSV free_tee_feed = [].
Proof.
  split; [left; reflexivity|]. split.
  - repeat split; eexists; (split; [reflexivity | discriminate]).
  - reflexivity.
Qed.

Lemma C1_rows_accepted_witness :
  In (row_product (header_keys tee_feed) ["1"; "Tee"; "450"])
     (parseCSV tee_feed).
Proof.
  apply (proj2 (proj1 (proj2 (proj2 C1_rows_accepted_with_nonzero_price))
                  tee_feed _)).
  exists ["1"; "Tee"; "450"]. split; [left; reflexivity|].
  split; [|reflexivity].
  repeat split; eexists; (split; [reflexivity|]);
    solve [discriminate | reflexivity].
Defined.

End ParseCSVFacts.

Module FetchFacts.
Import Products FetchSpec FeedExamples CatalogSpec.

Lemma fetch_cached st net :
  cached st = true -> fetch st net = (items st, st, net).
Proof. unfold cached, fetch. now intros ->. Qed.

Lemma fetch_times_cached n : forall st net,
  cached st = true ->
  fetch_times n st net = (repeat (items st) n, st, net).
Proof.
  induction n as [|n IH]; intros st net Hc; simpl; [reflexivity|].
  now rewrite (fetch_cached _ _ Hc), (IH _ _ Hc).
Qed.

Lemma fetch_success st net csv :
  cached st = false ->
  reply net (List.length (requested net)) = Response true csv ->
  fetch st net =
  (parseCSV csv,
   {| items := parseCSV csv;
      categories := extractCategories (parseCSV csv);
      loaded := true |},
   {| requested := requested net ++ [CONFIG.googleSheetCSV];
      reply := reply net |}).
Proof.
  unfold cached, fetch, request. intros -> Hr. simpl. now rewrite Hr.
Qed.

Lemma fetch_failure st net :
  cached st = false ->
  (forall csv,
     reply net (List.length (requested net)) <> Response true csv) ->
  fetch st net =
  (getDemoProducts,
   {| items := getDemoProducts;
      categories := extractCategories getDemoProducts;
      loaded := loaded st |},
   {| requested := requested net ++ [CONFIG.googleSheetCSV];
      reply := reply net |}).
Proof.
  unfold cached, fetch, request. intros -> Hr. simpl.
  destruct (reply net (List.length (requested net))) as [|[|] text];
    try reflexivity.
  now destruct (Hr text).
Qed.

Lemma fetch_requests st net :
  cached st = false ->
  requested (snd (fetch st net)) = requested net ++ [CONFIG.googleSheetCSV].
Proof.
  unfold cached, fetch, request. intros ->.
  destruct (reply net (List.length (requested net))) as [|[|] text];
    reflexivity.
Qed.

Lemma demo_cached st :
  loaded st = true -> items st = getDemoProducts -> cached st = true.
Proof. unfold cached. now intros -> ->. Qed.

(** C2, as the code has it. Once a load has succeeded with a catalog that
    is not empty, every later call in the session returns that same list
    and makes no request. A load that fell back to the demo list leaves
    the mark [loaded] as it found it. When no load had succeeded before,
    the catalog stays unmarked and the call after it makes a new request.
    When a load had succeeded before (with an empty catalog, the only way
    to be marked and not served from memory), the demo list is from then
    on served from memory with no further request. *)
Theorem C2_successful_load_is_cached :
  (forall st net csv n,
     cached st = false ->
     reply net (List.length (requested net)) = Response true csv ->
     parseCSV csv <> [] ->
     exists st1 net1,
       fetch st net = (parseCSV csv, st1, net1)
       /\ fetch_times n st1 net1 = (repeat (parseCSV csv) n, st1, net1)) /\
  (forall st net,
     loaded st = false ->
     (forall csv,
        reply net (List.length (requested net)) <> Response true csv) ->
     exists st1 net1,
       fetch st net = (getDemoProducts, st1, net1)
       /\ loaded st1 = false
       /\ cached st1 = false
       /\ requested net1 = requested net ++ [CONFIG.googleSheetCSV]
       /\ requested (snd (fetch st1 net1))
          = requested net1 ++ [CONFIG.googleSheetCSV]) /\
  (forall st net n,
     loaded st = true -> cached st = false ->
     (forall csv,
        reply net (List.length (requested net)) <> Response true csv) ->
     exists st1 net1,
       fetch st net = (getDemoProducts, st1, net1)
       /\ loaded st1 = true
       /\ requested net1 = requested net ++ [CONFIG.googleSheetCSV]
       /\ fetch_times n st1 net1 = (repeat getDemoProducts n, st1, net1)).
Proof.
  split; [|split].
  - intros st net csv n Hc Hr Hne.
    eexists _, _. split; [now apply fetch_success|].
    rewrite fetch_times_cached; [reflexivity|].
    unfold cached. simpl.
    destruct (parseCSV csv); [congruence | reflexivity].
  - intros st net Hl Hr.
    assert (cached st = false) as Hc by (unfold cached; now rewrite Hl).
    eexists _, _.
    split; [now apply fetch_failure|]. cbn [loaded requested].
    split; [exact Hl|].
    split; [unfold cached; cbn [loaded]; now rewrite Hl|].
    split; [reflexivity|].
    apply fetch_requests. unfold cached. cbn [loaded]. now rewrite Hl.
  - intros st net n Hl Hc Hr. eexists _, _.
    split; [now apply fetch_failure|]. cbn [loaded requested].
    split; [exact Hl|]. split; [reflexivity|].
    rewrite fetch_times_cached; [reflexivity|].
    now apply demo_cached.
Qed.

Lemma tee_feed_catalog : List.length (parseCSV tee_feed) = 1%nat.
Proof. vm_compute. reflexivity. Qed.

Lemma demo_catalog : List.length getDemoProducts = 6%nat.
Proof. reflexivity. Qed.

Lemma C2_successful_load_witness :
  (exists st1 net1,
     fetch initial online = (parseCSV tee_feed, st1, net1)
     /\ fetch_times 3 st1 net1
        = (repeat (parseCSV tee_feed) 3, st1, net1))
  /\ (exists st1 net1,
        fetch initial flaky = (getDemoProducts, st1, net1)
        /\ loaded st1 = false
        /\ cached st1 = false
        /\ requested net1 = [CONFIG.googleSheetCSV]
        /\ requested (snd (fetch st1 net1))
           = requested net1 ++ [CONFIG.googleSheetCSV])
  /\ (exists st1 net1,
        fetch (snd (fst (fetch initial empty_then_down)))
              (snd (fetch initial empty_then_down))
        = (getDemoProducts, st1, net1)
        /\ loaded st1 = true
        /\ requested net1 = [CONFIG.googleSheetCSV; CONFIG.googleSheetCSV]
        /\ fetch_times 3 st1 net1 = (repeat getDemoProducts 3, st1, net1)).
Proof.
  split; [|split].
  - apply (proj1 C2_successful_load_is_cached initial online
             tee_feed 3).
    + reflexivity.
    + reflexivity.
    + intros H. apply (f_equal (@List.length _)) in H.
      rewrite tee_feed_catalog in H. discriminate.
  - apply (proj1 (proj2 C2_successful_load_is_cached) initial flaky).
    + reflexivity.
    + intros csv. discriminate.
  - apply (proj2 (proj2 C2_successful_load_is_cached)
             (snd (fst (fetch initial empty_then_down)))
             (snd (fetch initial empty_then_down)) 3).
    + reflexivity.
    + reflexivity.
    + intros csv. discriminate.
Defined.

(** C2 as stated fails: after a first load that fell back to the demo
    list, the second call requests the feed again and returns another
    list. *)
Lemma C2_failed_fetch_is_retried :
  exists st1 net1 l2 st2 net2,
    fetch initial flaky = (getDemoProducts, st1, net1)
    /\ fetch st1 net1 = (l2, st2, net2)
    /\ requested net1 = [CONFIG.googleSheetCSV]
    /\ requested net2 = [CONFIG.googleSheetCSV; CONFIG.googleSheetCSV]
    /\ l2 <> getDemoProducts.
Proof.
  eexists _, _, _, _, _.
  split; [apply fetch_failure; [reflexivity | intros csv; discriminate]|].
  split; [apply (fetch_success _ _ tee_feed); reflexivity|].
  split; [reflexivity|]. split; [reflexivity|].
  intros H. apply (f_equal (@List.length _)) in H.
  rewrite tee_feed_catalog, demo_catalog in H. discriminate.
Qed.

End FetchFacts.

Module ImageLinkFacts.
Import Products JSStringFacts.

Lemma strip_prefix_app p s : strip_prefix p (p +:+ s) = Some s.
Proof.
  induction p as [|c p IH]; [now destruct s|].
  rewrite append_cons. simpl. now rewrite Ascii.eqb_refl.
Qed.

(** A prefix that does not fit a text long enough does not fit any
    extension of the text. *)
Lemma strip_prefix_None_app p : forall x y,
  strip_prefix p x = None -> (String.length p <= String.length x)%nat ->
  strip_prefix p (x +:+ y) = None.
Proof.
  induction p as [|a p IH]; intros x y Hx Hlen; simpl in *.
  - destruct x; discriminate.
  - destruct x as [|b x]; simpl in *; [lia|].
    destruct (Ascii.eqb a b); [apply IH; [exact Hx | lia] | reflexivity].
Qed.

Lemma includes_cons c s p :
  includes (String c s) p =
  match strip_prefix p (String c s) with
  | Some _ => true
  | None => includes s p
  end.
Proof. reflexivity. Qed.

Lemma take_until_stop stop g rest :
  ~ has_char stop g -> take_until stop (g +:+ String stop rest) = g.
Proof.
  unfold has_char. induction g as [|c g IH]; intros Hg.
  - rewrite append_empty_l. simpl. now rewrite Ascii.eqb_refl.
  - rewrite append_cons. simpl in *.
    destruct (Ascii.eqb_spec c stop) as [-> | Hne]; [tauto|].
    f_equal. apply IH. tauto.
Qed.

Lemma fileMatch_unfold url :
  fileMatch url =
  match match strip_prefix "/file/d/" url with
        | Some rest => group_until slash rest
        | None => None
        end, url with
  | Some g, _ => Some g
  | None, String _ url' => fileMatch url'
  | None, EmptyString => None
  end.
Proof. destruct url; reflexivity. Qed.

(** The scan passes over a prefix in which no [/file/d/] begins. *)
Lemma fileMatch_skip pre rest :
  includes (pre +:+ "/file/d") "/file/d/" = false ->
  fileMatch (pre +:+ "/file/d/" +:+ rest) = fileMatch ("/file/d/" +:+ rest).
Proof.
  induction pre as [|c pre IH]; intros H; [reflexivity|].
  rewrite append_cons in H. rewrite includes_cons in H.
  destruct (strip_prefix "/file/d/" (String c (pre +:+ "/file/d"))) eqn:E;
    [discriminate|].
  rewrite append_cons, fileMatch_unfold.
  replace (String c (pre +:+ "/file/d/" +:+ rest))
    with (String c (pre +:+ "/file/d") +:+ ("/" +:+ rest)).
  - rewrite strip_prefix_None_app; [| exact E |].
    + rewrite append_cons. now apply IH.
    + simpl. rewrite length_append. simpl. lia.
  - rewrite append_cons, append_assoc. reflexivity.
Qed.

Lemma fileMatch_here g post :
  g <> EmptyString -> ~ has_char slash g ->
  fileMatch ("/file/d/" +:+ g +:+ String slash post) = Some g.
Proof.
  intros Hne Hg. rewrite fileMatch_unfold, strip_prefix_app.
  unfold group_until. rewrite (take_until_stop slash g post Hg).
  destruct g; [congruence | reflexivity].
Qed.

Lemma convert_not_drive url :
  includes url "drive.google.com" = false -> convertGoogleDriveUrl url = url.
Proof.
  intros H. unfold convertGoogleDriveUrl. rewrite H.
  now destruct url.
Qed.

Lemma convert_no_identifier url :
  fileMatch url = None -> openMatch url = None -> ucMatch url = None ->
  convertGoogleDriveUrl url = url.
Proof.
  intros Hf Ho Hu. unfold convertGoogleDriveUrl. rewrite Hf, Ho, Hu.
  cbn [or_keep].
  destruct (is_empty url) eqn:E; [destruct url; [reflexivity | discriminate]|].
  now destruct (negb (includes url "drive.google.com")).
Qed.

(** C7, as the code has it. A reference that does not contain
    [drive.google.com], or from which none of the three patterns extracts
    an identifier, is returned unchanged. A share link
    [.../file/d/ID/...], where that is the first [/file/d/] of the link
    and the link matches neither of the two [id=] patterns, gives the
    thumbnail URL of width 800 that embeds [ID]. *)
Theorem C7_path_link_without_id_parameter :
  (forall url,
     includes url "drive.google.com" = false ->
     convertGoogleDriveUrl url = url) /\
  (forall url,
     fileMatch url = None -> openMatch url = None -> ucMatch url = None ->
     convertGoogleDriveUrl url = url) /\
  (forall pre ident post,
     includes (pre +:+ "/file/d/" +:+ ident +:+ String slash post)
              "drive.google.com" = true ->
     includes (pre +:+ "/file/d") "/file/d/" = false ->
     ident <> EmptyString -> ~ has_char slash ident ->
     openMatch (pre +:+ "/file/d/" +:+ ident +:+ String slash post) = None ->
     ucMatch (pre +:+ "/file/d/" +:+ ident +:+ String slash post) = None ->
     convertGoogleDriveUrl (pre +:+ "/file/d/" +:+ ident +:+ String slash post)
     = "https://drive.google.com/thumbnail?id=" +:+ ident +:+ "&sz=w800").
Proof.
  split; [exact convert_not_drive|]. split; [exact convert_no_identifier|].
  intros pre ident post Hd Hpre Hne Hs Ho Hu.
  unfold convertGoogleDriveUrl.
  rewrite Hd, Ho, Hu, (fileMatch_skip _ _ Hpre), (fileMatch_here _ _ Hne Hs).
  cbn [or_keep negb].
  destruct (is_empty (pre +:+ "/file/d/" +:+ ident +:+ String slash post))
    eqn:E.
  - destruct pre; discriminate.
  - destruct ident; [congruence | reflexivity].
Qed.

Lemma C7_path_link_witness :
  convertGoogleDriveUrl "https://drive.google.com/file/d/ABC123/view"
  = "https://drive.google.com/thumbnail?id=ABC123&sz=w800"
  /\ convertGoogleDriveUrl "https://example.com/tee.png"
     = "https://example.com/tee.png".
Proof.
  split.
  - apply (proj2 (proj2 C7_path_link_without_id_parameter)
             "https://drive.google.com" "ABC123" "view");
      try reflexivity; try discriminate.
    unfold has_char. simpl. intuition discriminate.
  - apply (proj1 C7_path_link_without_id_parameter). reflexivity.
Defined.

(** C7 as stated fails: this share link has the shape [.../file/d/ID/...]
    with [ID] the text [ABC123], and the URL returned embeds [XYZ]. *)
Lemma C7_id_parameter_overrides_path :
  "https://drive.google.com/file/d/ABC123/view?id=XYZ"
  = "https://drive.google.com" +:+ "/file/d/" +:+ "ABC123"
      +:+ String slash "view?id=XYZ"
  /\ convertGoogleDriveUrl "https://drive.google.com/file/d/ABC123/view?id=XYZ"
     = "https://drive.google.com/thumbnail?id=XYZ&sz=w800"
  /\ convertGoogleDriveUrl "https://drive.google.com/file/d/ABC123/view?id=XYZ"
     <> "https://drive.google.com/thumbnail?id=ABC123&sz=w800".
Proof.
  split; [reflexivity|]. split; [reflexivity|]. vm_compute. discriminate.
Qed.

End ImageLinkFacts.

Module NumberTextFacts.
Import JSNumber NumberSpec JSNumberFacts JSStringFacts JSON.
Local Open Scope Z_scope.

Lemma N_of_digit v : 0 <= v < 10 -> N_of_ascii (ascii_of_N (Z.to_N (48 + v))) = Z.to_N (48 + v).
Proof.
  intros H. apply N_ascii_embedding.
  change 256%N with (Z.to_N 256). apply Z2N.inj_lt; lia.
Qed.

Lemma digit_of_digit_char v : digit_of (digit_char v) = Some (v mod 10).
Proof.
  pose proof (Z.mod_pos_bound v 10 ltac:(lia)) as Hv.
  unfold digit_of, digit_char. rewrite (N_of_digit _ Hv).
  assert ((48 <=? Z.to_N (48 + v mod 10))%N = true) as -> by (apply N.leb_le; lia).
  assert ((Z.to_N (48 + v mod 10) <=? 57)%N = true) as -> by (apply N.leb_le; lia).
  simpl. f_equal. rewrite Z2N.id; lia.
Qed.

Lemma last_digits_app k : forall n a b,
  last_digits k n (a +:+ b) = last_digits k n a +:+ b.
Proof.
  induction k as [|k IH]; intros n a b; simpl; [reflexivity|].
  now rewrite <- IH.
Qed.

(** Reading the digits that [last_digits] wrote continues the number. *)
Lemma take_digits_last_digits k : forall n tail acc count,
  take_digits acc count (last_digits k n tail)
  = take_digits (acc * pow10 k + n mod pow10 k) (count + k) tail.
Proof.
  induction k as [|k IH]; intros n tail acc count.
  - simpl. rewrite pow10_0, Z.mod_1_r, Nat.add_0_r. f_equal. lia.
  - cbn [last_digits]. rewrite IH. cbn [take_digits].
    rewrite digit_of_digit_char. f_equal; [|lia].
    rewrite pow10_S.
    pose proof (pow10_pos k).
    rewrite (Z.rem_mul_r n 10 (pow10 k)) by lia. lia.
Qed.

Lemma ends_number_no_digit rest : ends_number rest -> no_digit rest.
Proof. destruct rest; simpl; tauto. Qed.

Lemma take_digits_end acc count rest :
  no_digit rest -> take_digits acc count rest = (acc, count, rest).
Proof.
  destruct rest as [|c rest]; simpl; [reflexivity|]. now intros ->.
Qed.

Lemma count_digits_spec fuel : forall n,
  0 <= n < 10 ^ Z.of_nat (S fuel) ->
  n < pow10 (count_digits fuel n)
  /\ ((1 < count_digits fuel n)%nat ->
      pow10 (count_digits fuel n - 1)%nat <= n).
Proof.
  induction fuel as [|fuel IH]; intros n Hn.
  - simpl. split; [unfold pow10; simpl in *; lia | lia].
  - cbn [count_digits]. destruct (n <? 10) eqn:E.
    + apply Z.ltb_lt in E. split; [unfold pow10; simpl; lia | lia].
    + apply Z.ltb_ge in E.
      assert (0 <= n / 10 < 10 ^ Z.of_nat (S fuel)) as Hq.
      { split; [apply Z.div_pos; lia|].
        apply Z.div_lt_upper_bound; [lia|].
        rewrite <- Z.pow_succ_r by lia. rewrite <- Nat2Z.inj_succ. lia. }
      destruct (IH _ Hq) as [Hup Hlow].
      pose proof (Z.div_mod n 10 ltac:(lia)).
      pose proof (Z.mod_pos_bound n 10 ltac:(lia)).
      split.
      * rewrite pow10_S. lia.
      * intros _. replace (S (count_digits fuel (n / 10)) - 1)%nat
          with (count_digits fuel (n / 10)) by lia.
        destruct (count_digits fuel (n / 10)) as [|[|k]] eqn:K.
        -- rewrite pow10_0. lia.
        -- unfold pow10. simpl. lia.
        -- assert (pow10 (S k) <= n / 10) as Hl by (apply Hlow; lia).
           rewrite pow10_S. lia.
Qed.

Lemma digit_count_spec n :
  0 <= n ->
  n < pow10 (digit_count n)
  /\ ((1 < digit_count n)%nat -> pow10 (digit_count n - 1)%nat <= n).
Proof.
  intros Hn. unfold digit_count. apply count_digits_spec.
  split; [exact Hn|].
  destruct (Z.eq_dec n 0) as [-> | Hnz].
  - apply Z.pow_pos_nonneg; lia.
  - pose proof (Z.log2_spec n ltac:(lia)) as [_ Hlt].
    pose proof (Z.log2_nonneg n).
    rewrite Nat2Z.inj_succ, Z2Nat.id by lia.
    eapply Z.lt_le_trans; [exact Hlt|].
    apply Z.pow_le_mono_l. lia.
Qed.

Lemma digit_count_pos n : (1 <= digit_count n)%nat.
Proof.
  unfold digit_count. destruct (Z.to_nat (Z.log2 n)); simpl; [lia|].
  destruct (n <? 10); lia.
Qed.

(** The first digit written. *)
Lemma last_digits_head k : forall n tail,
  exists s, last_digits (S k) n tail = String (digit_char (n / pow10 k)) s.
Proof.
  induction k as [|k IH]; intros n tail.
  - exists tail. simpl. now rewrite pow10_0, Z.div_1_r.
  - destruct (IH (n / 10) (String (digit_char n) tail)) as [s Hs].
    exists s. change (last_digits (S (S k)) n tail)
      with (last_digits (S k) (n / 10) (String (digit_char n) tail)).
    rewrite Hs, pow10_S. pose proof (pow10_pos k).
    rewrite Z.div_div by lia. reflexivity.
Qed.

Lemma digit_char_zero v :
  0 <= v < 10 -> Ascii.eqb (digit_char v) "0" = true -> v = 0.
Proof.
  intros Hv H. apply Ascii.eqb_eq in H.
  apply (f_equal digit_of) in H. rewrite digit_of_digit_char in H.
  rewrite Z.mod_small in H by lia. simpl in H. now inversion H.
Qed.

Lemma digit_not_minus c v :
  digit_of c = Some v -> Ascii.eqb c "-" = false.
Proof.
  intros H. destruct (Ascii.eqb_spec c "-") as [-> | ]; [discriminate | reflexivity].
Qed.

(** The text of a natural number reads back as the number. *)
Lemma natural_head n :
  0 <= n ->
  exists c s, natural n = String c s
              /\ digit_of c <> None
              /\ (Ascii.eqb c "0" && (1 <? digit_count n)%nat = false).
Proof.
  intros Hn. unfold natural.
  destruct (digit_count_spec n Hn) as [Hup Hlow].
  pose proof (digit_count_pos n) as Hpos.
  destruct (digit_count n) as [|k] eqn:K; [lia|].
  destruct (last_digits_head k n EmptyString) as [s Hs].
  exists (digit_char (n / pow10 k)), s. split; [exact Hs|].
  split; [rewrite digit_of_digit_char; discriminate|].
  destruct k as [|k]; [apply andb_false_r|].
  apply andb_false_iff. left.
  destruct (Ascii.eqb (digit_char (n / pow10 (S k))) "0") eqn:E;
    [|reflexivity].
  exfalso.
  assert (pow10 (S k) <= n) as Hl
    by (replace (S k) with (S (S k) - 1)%nat by lia; apply Hlow; lia).
  pose proof (pow10_pos (S k)).
  assert (0 <= n / pow10 (S k) < 10) as Hq.
  { split; [apply Z.div_pos; lia|].
    apply Z.div_lt_upper_bound; [lia|]. rewrite pow10_S in Hup. lia. }
  apply (digit_char_zero _ Hq) in E.
  assert (1 <= n / pow10 (S k))
    by (apply Z.div_le_lower_bound; lia).
  lia.
Qed.

Lemma take_digits_natural n rest :
  0 <= n -> no_digit rest ->
  take_digits 0 O (natural n +:+ rest) = (n, digit_count n, rest).
Proof.
  intros Hn Hr. unfold natural.
  rewrite <- last_digits_app, append_empty_l, take_digits_last_digits.
  rewrite (take_digits_end _ _ _ Hr).
  destruct (digit_count_spec n Hn) as [Hup _].
  rewrite Z.mod_small by lia. reflexivity.
Qed.

(** A sign, an integer part and a fraction read back as one number. *)
Lemma read_number_text (neg : bool) N d F rest :
  0 <= N -> 0 <= F < pow10 d -> ends_number rest ->
  read_number ((if neg then "-" else EmptyString)
               +:+ natural N +:+ fraction_text d F +:+ rest)
  = Some (decimal ((if neg then -1 else 1) * (N * pow10 d + F)) d, rest).
Proof.
  intros HN HF Hr. pose proof (ends_number_no_digit _ Hr) as Hnd.
  assert (Hsign :
    match (if neg then "-" else EmptyString)
          +:+ natural N +:+ fraction_text d F +:+ rest with
    | String c s' =>
        if Ascii.eqb c "-" then (true, s')
        else (false, (if neg then "-" else EmptyString)
                     +:+ natural N +:+ fraction_text d F +:+ rest)
    | EmptyString =>
        (false, (if neg then "-" else EmptyString)
                +:+ natural N +:+ fraction_text d F +:+ rest)
    end = (neg, natural N +:+ fraction_text d F +:+ rest)).
  { destruct neg.
    - rewrite append_cons, append_empty_l. reflexivity.
    - rewrite append_empty_l.
      destruct (natural_head N HN) as (c & s & Hc & Hd & _).
      rewrite Hc, append_cons.
      destruct (digit_of c) as [v|] eqn:E; [|congruence].
      now rewrite (digit_not_minus _ _ E). }
  unfold read_number. rewrite Hsign. clear Hsign.
  assert (Hfd : no_digit (fraction_text d F +:+ rest)).
  { unfold fraction_text. destruct d; [exact Hnd|].
    rewrite append_cons. reflexivity. }
  rewrite (take_digits_natural N _ HN Hfd).
  destruct (natural_head N HN) as (c & s & Hc & _ & Hz).
  rewrite Hc, append_cons, Hz.
  pose proof (digit_count_pos N) as Hk.
  destruct (digit_count N) as [|k] eqn:K; [lia|].
  assert (Hfrac :
    match fraction_text d F +:+ rest with
    | String c1 s1' =>
        if Ascii.eqb c1 "." then
          let '(m1, nf, s2) := take_digits N O s1' in
          match nf with
          | O => None
          | S _ => Some (m1, nf, s2)
          end
        else Some (N, O, fraction_text d F +:+ rest)
    | EmptyString => Some (N, O, fraction_text d F +:+ rest)
    end = Some (N * pow10 d + F, d, rest)).
  { unfold fraction_text. destruct d as [|d'].
    - rewrite append_empty_l. rewrite pow10_0 in *.
      replace (N * 1 + F) with N by lia.
      destruct rest as [|c1 rest']; [reflexivity|].
      destruct Hr as (_ & -> & _). reflexivity.
    - rewrite append_cons.
      change (Ascii.eqb "." ".") with true. cbv iota.
      rewrite <- last_digits_app, append_empty_l, take_digits_last_digits.
      rewrite (take_digits_end _ _ _ Hnd).
      rewrite (Z.mod_small F) by lia. reflexivity. }
  rewrite Hfrac. clear Hfrac.
  assert (Hexp :
    match rest with
    | String c2 s2' =>
        if Ascii.eqb c2 "e" || Ascii.eqb c2 "E" then
          let '(eneg, s3) := take_sign s2' in
          let '(v, ne, s4) := take_digits 0 O s3 in
          match ne with
          | O => None
          | S _ => Some (if eneg then - v else v, s4)
          end
        else Some (0, rest)
    | EmptyString => Some (0, rest)
    end = Some (0, rest)).
  { destruct rest as [|c2 rest']; [reflexivity|].
    destruct Hr as (_ & _ & -> & ->). reflexivity. }
  rewrite Hexp. clear Hexp.
  unfold scale. change (0 <=? 0) with true. cbv iota.
  do 2 f_equal. f_equal. destruct neg; lia.
Qed.

(** The text of a finite number reads back as the number. *)
Lemma read_number_positional m d rest :
  ends_number rest ->
  read_number (positional m d +:+ rest) = Some (decimal m d, rest).
Proof.
  intros Hr. pose proof (pow10_pos d) as Hp.
  assert (0 <= Z.abs m / pow10 d) as HN by (apply Z.div_pos; lia).
  assert (0 <= Z.abs m mod pow10 d < pow10 d) as HF
    by (apply Z.mod_pos_bound; lia).
  pose proof (read_number_text (m <? 0) _ d _ rest HN HF Hr) as H.
  unfold positional.
  rewrite !append_assoc in *. rewrite H. do 2 f_equal. f_equal.
  pose proof (Z.div_mod (Z.abs m) (pow10 d)).
  destruct (m <? 0) eqn:E; [apply Z.ltb_lt in E | apply Z.ltb_ge in E]; lia.
Qed.

Lemma strip_zeros_value fuel : forall a s z,
  strip_zeros fuel a = (s, z) -> s * pow10 z = a.
Proof.
  induction fuel as [|fuel IH]; intros a s z; simpl.
  - intros H. inversion H. rewrite pow10_0. lia.
  - destruct (a mod 10 =? 0) eqn:E.
    + destruct (strip_zeros fuel (a / 10)) as [s' z'] eqn:R.
      intros H. inversion H; subst. apply IH in R.
      apply Z.eqb_eq in E. rewrite pow10_S.
      pose proof (Z.div_mod a 10 ltac:(lia)). lia.
    + intros H. inversion H. rewrite pow10_0. lia.
Qed.

Lemma significant_value a s z :
  0 < a -> significant a = (s, z) -> s * pow10 z = a /\ 0 < s.
Proof.
  intros Ha H. apply strip_zeros_value in H. split; [exact H|].
  pose proof (pow10_pos z). nia.
Qed.

(** The first of the [k] digits of [s]. *)
Lemma first_digit s :
  0 < s ->
  1 <= s / pow10 (digit_count s - 1) <= 9
  /\ s = s / pow10 (digit_count s - 1) * pow10 (digit_count s - 1)
         + s mod pow10 (digit_count s - 1)
  /\ 0 <= s mod pow10 (digit_count s - 1) < pow10 (digit_count s - 1).
Proof.
  intros Hs. destruct (digit_count_spec s ltac:(lia)) as [Hup Hlow].
  pose proof (digit_count_pos s) as Hk.
  pose proof (pow10_pos (digit_count s - 1)) as Hp.
  assert (pow10 (digit_count s) = 10 * pow10 (digit_count s - 1)) as Hk1.
  { rewrite <- pow10_S. f_equal. lia. }
  assert (pow10 (digit_count s - 1) <= s) as Hl.
  { destruct (Nat.eq_dec (digit_count s) 1%nat) as [E|E].
    - rewrite E. simpl. rewrite pow10_0. lia.
    - apply Hlow. lia. }
  split; [|split].
  - split; [apply Z.div_le_lower_bound; lia|].
    assert (s / pow10 (digit_count s - 1) < 10)
      by (apply Z.div_lt_upper_bound; lia). lia.
  - pose proof (Z.div_mod s (pow10 (digit_count s - 1)) ltac:(lia)). lia.
  - apply Z.mod_pos_bound. lia.
Qed.

(** A sign, one digit, a fraction and an exponent read back as one
    number. *)
Lemma read_number_exponent_text (neg : bool) q k r e rest :
  1 <= q <= 9 -> 0 <= r < pow10 k -> no_digit rest ->
  read_number
    ((if neg then "-" else EmptyString)
     +:+ String (digit_char q) (fraction_text k r)
     +:+ String "e" (String (if 0 <=? e then "+" else "-") (natural (Z.abs e)))
     +:+ rest)
  = Some (scale ((if neg then -1 else 1) * (q * pow10 k + r)) k e, rest).
Proof.
  intros Hq Hr Hnd.
  set (tail := String "e" (String (if 0 <=? e then "+" else "-")
                                  (natural (Z.abs e) +:+ rest))).
  assert (Htext :
    (if neg then "-" else EmptyString)
    +:+ String (digit_char q) (fraction_text k r)
    +:+ String "e" (String (if 0 <=? e then "+" else "-") (natural (Z.abs e)))
    +:+ rest
    = (if neg then "-" else EmptyString)
      +:+ String (digit_char q) (fraction_text k r +:+ tail)).
  { unfold tail. now rewrite !append_cons. }
  rewrite Htext. clear Htext.
  assert (Hd : digit_of (digit_char q) = Some q)
    by (rewrite digit_of_digit_char, Z.mod_small; [reflexivity | lia]).
  assert (Hsign :
    match (if neg then "-" else EmptyString)
          +:+ String (digit_char q) (fraction_text k r +:+ tail) with
    | String c s' =>
        if Ascii.eqb c "-" then (true, s')
        else (false, (if neg then "-" else EmptyString)
                     +:+ String (digit_char q) (fraction_text k r +:+ tail))
    | EmptyString =>
        (false, (if neg then "-" else EmptyString)
                +:+ String (digit_char q) (fraction_text k r +:+ tail))
    end = (neg, String (digit_char q) (fraction_text k r +:+ tail))).
  { destruct neg.
    - rewrite append_cons, append_empty_l. reflexivity.
    - rewrite append_empty_l. now rewrite (digit_not_minus _ _ Hd). }
  unfold read_number. rewrite Hsign. clear Hsign.
  assert (Hfd : no_digit (fraction_text k r +:+ tail)).
  { unfold fraction_text. destruct k; reflexivity. }
  cbn [take_digits]. rewrite Hd, (take_digits_end _ _ _ Hfd).
  rewrite andb_false_r.
  replace (10 * 0 + q) with q by lia.
  assert (Hfrac :
    match fraction_text k r +:+ tail with
    | String c1 s1' =>
        if Ascii.eqb c1 "." then
          let '(m1, nf, s2) := take_digits q O s1' in
          match nf with
          | O => None
          | S _ => Some (m1, nf, s2)
          end
        else Some (q, O, fraction_text k r +:+ tail)
    | EmptyString => Some (q, O, fraction_text k r +:+ tail)
    end = Some (q * pow10 k + r, k, tail)).
  { unfold fraction_text. destruct k as [|k'].
    - rewrite append_empty_l. rewrite pow10_0 in *.
      replace (q * 1 + r) with q by lia. reflexivity.
    - rewrite append_cons.
      change (Ascii.eqb "." ".") with true. cbv iota.
      rewrite <- last_digits_app, append_empty_l, take_digits_last_digits.
      assert (no_digit tail) as Ht by reflexivity.
      rewrite (take_digits_end _ _ _ Ht).
      rewrite (Z.mod_small r) by lia. reflexivity. }
  rewrite Hfrac. clear Hfrac. unfold tail.
  change (Ascii.eqb "e" "e" || Ascii.eqb "e" "E") with true. cbv iota.
  assert (Hexp :
    take_sign (String (if 0 <=? e then "+" else "-")
                      (natural (Z.abs e) +:+ rest))
    = (negb (0 <=? e), natural (Z.abs e) +:+ rest))
    by (destruct (0 <=? e); reflexivity).
  rewrite Hexp. clear Hexp.
  rewrite (take_digits_natural _ _ (Z.abs_nonneg e) Hnd).
  pose proof (digit_count_pos (Z.abs e)) as Hk.
  destruct (digit_count (Z.abs e)) as [|k'] eqn:K; [lia|].
  do 2 f_equal. f_equal; [destruct neg; lia|].
  destruct (0 <=? e) eqn:E; simpl;
    [apply Z.leb_le in E | apply Z.leb_gt in E]; lia.
Qed.

Lemma decimal_zero d : decimal 0 d = Int 0.
Proof. apply (decimal_eq 0 d 0 O). reflexivity. Qed.

(** The text in exponent notation reads back as the number. *)
Lemma read_number_exponential m d rest :
  m <> 0 -> no_digit rest ->
  read_number (exponential m d +:+ rest) = Some (decimal m d, rest).
Proof.
  intros Hm Hnd. unfold exponential, point.
  destruct (significant (Z.abs m)) as [s z] eqn:S.
  destruct (significant_value (Z.abs m) s z ltac:(lia) S) as [Hv Hs].
  destruct (first_digit s Hs) as (Hq & Hsplit & Hr).
  set (k := digit_count s) in *.
  pose proof (digit_count_pos s) as Hk. fold k in Hk.
  set (e := Z.of_nat k + Z.of_nat z - Z.of_nat d - 1).
  rewrite !append_assoc.
  rewrite (read_number_exponent_text (m <? 0) _ _ _ e rest Hq Hr Hnd).
  rewrite <- Hsplit. do 2 f_equal.
  assert (m = (if m <? 0 then -1 else 1) * (s * pow10 z)) as Hms.
  { rewrite Hv. destruct (m <? 0) eqn:E;
      [apply Z.ltb_lt in E | apply Z.ltb_ge in E]; lia. }
  set (sg := if m <? 0 then -1 else 1) in *. clearbody sg.
  pose proof (pow10_pos z) as Hpz. pose proof (pow10_pos d) as Hpd.
  pose proof (pow10_pos (k - 1)) as Hpk.
  unfold scale. destruct (0 <=? e) eqn:E.
  - apply Z.leb_le in E. apply decimal_eq.
    assert (10 ^ e * pow10 d = pow10 (k - 1) * pow10 z) as Hpow.
    { unfold pow10. rewrite <- !Z.pow_add_r by lia. f_equal. unfold e. lia. }
    rewrite Hms.
    replace (sg * s * 10 ^ e * pow10 d) with (sg * s * (10 ^ e * pow10 d))
      by ring.
    rewrite Hpow. ring.
  - apply Z.leb_gt in E. apply decimal_eq.
    assert (pow10 (k - 1 + Z.to_nat (- e)) * pow10 z = pow10 d) as Hpow.
    { rewrite <- pow10_add. f_equal. unfold e in *. lia. }
    rewrite Hms, <- Hpow. ring.
Qed.

(** The text of a finite number reads back as the number. *)
Lemma read_number_text_of m d rest :
  ends_number rest ->
  read_number (number_text m d +:+ rest) = Some (decimal m d, rest).
Proof.
  intros Hr. unfold number_text.
  destruct (m =? 0) eqn:E.
  - apply Z.eqb_eq in E. subst m. rewrite decimal_zero.
    exact (read_number_positional 0 O rest Hr).
  - apply Z.eqb_neq in E.
    destruct ((-6 <? point m d) && (point m d <=? 21)).
    + now apply read_number_positional.
    + apply read_number_exponential;
        [exact E | now apply ends_number_no_digit].
Qed.

Lemma toString_finite x m d :
  finite x = Some (m, d) -> toString x = number_text m d.
Proof. destruct x; simpl; intros H; inversion H; reflexivity. Qed.

Lemma read_number_toString x rest :
  is_finite x = true -> ends_number rest ->
  read_number (toString x +:+ rest) = Some (x, rest).
Proof.
  unfold is_finite. destruct (finite x) as [[m d]|] eqn:E; [|discriminate].
  intros _ Hr. rewrite (toString_finite _ _ _ E).
  rewrite (read_number_text_of m d rest Hr).
  now rewrite (decimal_finite _ _ _ E).
Qed.

Lemma number_start_digit_char v : number_start (digit_char v) = true.
Proof.
  unfold number_start. rewrite digit_of_digit_char. apply orb_true_r.
Qed.

Lemma toString_head x :
  is_finite x = true ->
  exists c s, toString x = String c s /\ number_start c = true.
Proof.
  unfold is_finite. destruct (finite x) as [[m d]|] eqn:E; [|discriminate].
  intros _. rewrite (toString_finite _ _ _ E). unfold number_text.
  destruct (m =? 0); [eexists _, _; split; reflexivity|].
  destruct ((-6 <? point m d) && (point m d <=? 21)).
  - unfold positional. destruct (m <? 0).
    + eexists _, _. rewrite append_cons. split; reflexivity.
    + rewrite append_empty_l.
      assert (0 <= Z.abs m / pow10 d) as HN
        by (apply Z.div_pos; [lia | apply pow10_pos]).
      destruct (natural_head _ HN) as (c & s & Hc & Hd & _).
      rewrite Hc, append_cons. eexists _, _. split; [reflexivity|].
      unfold number_start.
      destruct (digit_of c); [apply orb_true_r | congruence].
  - unfold exponential. destruct (significant (Z.abs m)) as [s z].
    destruct (m <? 0).
    + eexists _, _. rewrite append_cons. split; reflexivity.
    + rewrite append_empty_l, append_cons. eexists _, _.
      split; [reflexivity | apply number_start_digit_char].
Qed.

End NumberTextFacts.

Module JSONFacts.
Import JSNumber NumberSpec JSNumberFacts JSStringFacts NumberTextFacts JSON JSONSpec.

(** *** Strings *)

Lemma read_string_quote_char c s :
  read_string (quote_char c +:+ s) = cons_string c (read_string s).
Proof. destruct c as [[] [] [] [] [] [] [] []]; reflexivity. Qed.

Lemma read_string_quote_body s rest :
  read_string (quote_body s +:+ rest) = Some (s, rest).
Proof.
  induction s as [|c s IH].
  - reflexivity.
  - cbn [quote_body]. rewrite append_assoc, read_string_quote_char, IH.
    reflexivity.
Qed.

(** *** Values *)

Lemma number_start_solid c : number_start c = true -> solid c.
Proof.
  destruct c as [[] [] [] [] [] [] [] []]; intros H; try discriminate H;
    repeat split.
Qed.

Lemma number_start_dispatch c :
  number_start c = true ->
  Ascii.eqb c "[" = false /\ Ascii.eqb c "{" = false
  /\ Ascii.eqb c dquote = false /\ Ascii.eqb "n" c = false
  /\ Ascii.eqb "t" c = false /\ Ascii.eqb "f" c = false.
Proof.
  destruct c as [[] [] [] [] [] [] [] []]; intros H; try discriminate H;
    repeat split.
Qed.

Lemma stringify_head v :
  writable v = true -> exists c s, stringify v = String c s /\ solid c.
Proof.
  destruct v as [|[|]|n|s|l|ms]; simpl; intros H;
    try (eexists _, _; split; [reflexivity | repeat split]).
  rewrite H. destruct (toString_head n H) as (c & s & -> & Hc).
  exists c, s. split; [reflexivity | now apply number_start_solid].
Qed.

Lemma stringify_length v :
  writable v = true -> (1 <= String.length (stringify v))%nat.
Proof.
  intros H. destruct (stringify_head v H) as (c & s & -> & _). simpl. lia.
Qed.

Lemma skip_space_solid c s :
  is_json_space c = false -> skip_space (String c s) = String c s.
Proof. simpl. now intros ->. Qed.

Lemma after_solid c c' s :
  is_json_space c' = false ->
  after c (String c' s) = if Ascii.eqb c' c then Some s else None.
Proof. intros H. unfold after. now rewrite (skip_space_solid _ _ H). Qed.

Lemma ends_number_solid_close c s :
  Ascii.eqb c "]" = true \/ Ascii.eqb c "}" = true \/ Ascii.eqb c "," = true ->
  ends_number (String c s).
Proof.
  intros [H | [H | H]]; apply Ascii.eqb_eq in H; subst; repeat split.
Qed.

Lemma read_value_unfold f c s :
  is_json_space c = false ->
  read_value (S f) (String c s) =
  if Ascii.eqb c "[" then
    match after "]" s with
    | Some rest => Some (JArr [], rest)
    | None =>
        match read_elements f s with
        | Some (l, rest) => Some (JArr l, rest)
        | None => None
        end
    end
  else if Ascii.eqb c "{" then
    match after "}" s with
    | Some rest => Some (JObj [], rest)
    | None =>
        match read_members f s with
        | Some (ms, rest) => Some (JObj ms, rest)
        | None => None
        end
    end
  else if Ascii.eqb c dquote then
    match read_string s with
    | Some (str, rest) => Some (JStr str, rest)
    | None => None
    end
  else
    match strip_prefix "null" (String c s), strip_prefix "true" (String c s),
          strip_prefix "false" (String c s) with
    | Some rest, _, _ => Some (JNull, rest)
    | _, Some rest, _ => Some (JBool true, rest)
    | _, _, Some rest => Some (JBool false, rest)
    | None, None, None =>
        match read_number (String c s) with
        | Some (n, rest) => Some (JNum n, rest)
        | None => None
        end
    end.
Proof.
  intros H. cbn [read_value]. rewrite (skip_space_solid _ _ H). reflexivity.
Qed.

Lemma read_elements_unfold f s :
  read_elements (S f) s =
  match read_value f s with
  | Some (v, rest) =>
      match after "," rest, after "]" rest with
      | Some rest', _ =>
          match read_elements f rest' with
          | Some (l, rest'') => Some (v :: l, rest'')
          | None => None
          end
      | None, Some rest' => Some ([v], rest')
      | None, None => None
      end
  | None => None
  end.
Proof. reflexivity. Qed.

Lemma read_members_unfold f s :
  read_members (S f) s =
  match after dquote s with
  | Some s' =>
      match read_string s' with
      | Some (key, rest) =>
          match after ":" rest with
          | Some rest' =>
              match read_value f rest' with
              | Some (v, rest'') =>
                  match after "," rest'', after "}" rest'' with
                  | Some r, _ =>
                      match read_members f r with
                      | Some (ms, r') => Some ((key, v) :: ms, r')
                      | None => None
                      end
                  | None, Some r => Some ([(key, v)], r)
                  | None, None => None
                  end
              | None => None
              end
          | None => None
          end
      | None => None
      end
  | None => None
  end.
Proof. reflexivity. Qed.

Lemma join_cons sep x y l :
  join sep (x :: y :: l) = x +:+ sep +:+ join sep (y :: l).
Proof. reflexivity. Qed.

Lemma join_head (f : json -> string) v l :
  (exists c s, f v = String c s /\ solid c) ->
  exists c s, join "," (List.map f (v :: l)) = String c s /\ solid c.
Proof.
  intros (c & s & Hv & Hc). destruct l as [|v' l].
  - exists c, s. simpl. now rewrite Hv.
  - cbn [List.map]. rewrite join_cons, Hv, append_cons. eauto.
Qed.

(** Bring a concatenation to the form [String c (... +:+ ...)]. *)
Ltac flatten :=
  repeat (rewrite append_assoc || rewrite append_cons
          || rewrite append_empty_l).

(** Reading what [stringify] wrote gives the value back, with fuel beyond
    the length of the text. *)
Lemma read_stringify fuel :
  (forall v rest,
     writable v = true -> ends_number rest ->
     (String.length (stringify v) < fuel)%nat ->
     read_value fuel (stringify v +:+ rest) = Some (v, rest)) /\
  (forall v l rest,
     forallb writable (v :: l) = true ->
     (String.length (join "," (List.map stringify (v :: l))) + 1 < fuel)%nat ->
     read_elements fuel
       (join "," (List.map stringify (v :: l)) +:+ String "]" rest)
     = Some (v :: l, rest)) /\
  (forall m ms rest,
     forallb (fun m => writable (snd m)) (m :: ms) = true ->
     (String.length (join "," (List.map member_text (m :: ms))) + 1 < fuel)%nat ->
     read_members fuel
       (join "," (List.map member_text (m :: ms)) +:+ String "}" rest)
     = Some (m :: ms, rest)).
Proof.
  induction fuel as [|f (IHv & IHe & IHm)]; [repeat split; intros; lia|].
  split; [|split].
  - intros v rest Hw Hr Hlen. destruct v as [|[|]|n|s|l|ms].
    + reflexivity.
    + reflexivity.
    + reflexivity.
    + cbn [writable] in Hw. cbn [stringify]. rewrite Hw.
      destruct (toString_head n Hw) as (c & s & Hc & Hs).
      destruct (number_start_solid c Hs) as (Hsp & _).
      destruct (number_start_dispatch c Hs) as (H1 & H2 & H3 & Hn & Ht & Hf).
      rewrite Hc, append_cons, (read_value_unfold _ _ _ Hsp), H1, H2, H3.
      cbn [strip_prefix]. rewrite Hn, Ht, Hf.
      rewrite <- append_cons, <- Hc, (read_number_toString n rest Hw Hr).
      reflexivity.
    + change (stringify (JStr s)) with (String dquote (quote_body s)).
      rewrite append_cons, read_value_unfold by reflexivity.
      change (Ascii.eqb dquote "[") with false.
      change (Ascii.eqb dquote "{") with false.
      rewrite Ascii.eqb_refl. cbv iota.
      now rewrite read_string_quote_body.
    + destruct l as [|e l]; [reflexivity|].
      cbn [writable] in Hw.
      change (stringify (JArr (e :: l)))
        with ("[" +:+ join "," (List.map stringify (e :: l)) +:+ "]") in *.
      rewrite !length_append in Hlen. cbn [String.length] in Hlen.
      flatten. rewrite read_value_unfold by reflexivity.
      change (Ascii.eqb "[" "[") with true. cbv iota.
      assert (exists c s, stringify e = String c s /\ solid c) as He.
      { apply stringify_head. cbn [forallb] in Hw.
        now apply andb_true_iff in Hw as [-> _]. }
      destruct (join_head stringify e l He) as (c & s & Hj & (Hsp & Hc & _)).
      assert (after "]" (join "," (List.map stringify (e :: l))
                         +:+ String "]" rest) = None) as ->.
      { rewrite Hj. flatten. rewrite (after_solid _ _ _ Hsp). now rewrite Hc. }
      rewrite (IHe e l rest Hw) by lia. reflexivity.
    + destruct ms as [|m ms]; [reflexivity|].
      cbn [writable] in Hw.
      change (stringify (JObj (m :: ms)))
        with ("{" +:+ join "," (List.map member_text (m :: ms)) +:+ "}") in *.
      rewrite !length_append in Hlen. cbn [String.length] in Hlen.
      flatten. rewrite read_value_unfold by reflexivity.
      change (Ascii.eqb "{" "[") with false.
      change (Ascii.eqb "{" "{") with true. cbv iota.
      assert (after "}" (join "," (List.map member_text (m :: ms))
                         +:+ String "}" rest) = None) as ->.
      { destruct ms as [|m' ms'].
        - reflexivity.
        - reflexivity. }
      rewrite (IHm m ms rest Hw) by lia. reflexivity.
  - intros v l rest Hw Hlen. rewrite read_elements_unfold.
    cbn [forallb] in Hw. apply andb_true_iff in Hw as [Hv Hl].
    pose proof (stringify_length v Hv) as Hv1.
    destruct l as [|v' l'].
    + cbn [List.map join] in *.
      rewrite (IHv v (String "]" rest) Hv) by (repeat split || lia).
      reflexivity.
    + cbn [List.map] in *. rewrite join_cons in *.
      rewrite !length_append in Hlen. cbn [String.length] in Hlen.
      flatten.
      rewrite (IHv v _ Hv) by (repeat split || lia).
      rewrite after_solid by reflexivity.
      change (Ascii.eqb "," ",") with true. cbv iota.
      rewrite (IHe v' l' rest Hl) by (cbn [List.map]; lia).
      reflexivity.
  - intros [k v] ms rest Hw Hlen. rewrite read_members_unfold.
    cbn [forallb snd] in Hw. apply andb_true_iff in Hw as [Hv Hl].
    pose proof (stringify_length v Hv) as Hv1.
    assert (forall tail,
      member_text (k, v) +:+ tail
      = String dquote (quote_body k +:+ String ":" (stringify v +:+ tail)))
      as Htext.
    { intros tail. unfold member_text, quote. cbn [fst snd]. flatten.
      reflexivity. }
    assert (String.length (member_text (k, v))
            = (String.length (quote k) + 1 + String.length (stringify v))%nat)
      as Hmlen.
    { unfold member_text. rewrite !length_append. cbn [fst snd String.length].
      lia. }
    destruct ms as [|m' ms'].
    + cbn [List.map join] in *. rewrite Htext.
      rewrite after_solid by reflexivity. rewrite Ascii.eqb_refl.
      rewrite read_string_quote_body.
      rewrite after_solid by reflexivity.
      change (Ascii.eqb ":" ":") with true. cbv iota.
      rewrite (IHv v (String "}" rest) Hv) by (repeat split || lia).
      reflexivity.
    + cbn [List.map] in *. rewrite join_cons in *.
      rewrite !length_append in Hlen. cbn [String.length] in Hlen.
      rewrite append_assoc, Htext.
      rewrite after_solid by reflexivity. rewrite Ascii.eqb_refl.
      rewrite read_string_quote_body.
      rewrite after_solid by reflexivity.
      change (Ascii.eqb ":" ":") with true. cbv iota.
      flatten.
      rewrite (IHv v _ Hv) by (repeat split || lia).
      rewrite after_solid by reflexivity.
      change (Ascii.eqb "," ",") with true. cbv iota.
      rewrite (IHm m' ms' rest Hl) by (cbn [List.map]; lia).
      reflexivity.
Qed.

(** [JSON.parse(JSON.stringify(v))] is [v] when the numbers of [v] are
    finite. *)
Lemma parse_stringify v : writable v = true -> parse (stringify v) = Some v.
Proof.
  intros Hw. unfold parse.
  destruct (read_stringify (S (String.length (stringify v)))) as (Hv & _).
  rewrite <- (append_empty_r (stringify v)) at 2.
  rewrite (Hv v EmptyString Hw I) by lia. reflexivity.
Qed.

End JSONFacts.

Module StorageFacts.
Import JSNumber JSON JSONSpec JSONFacts Cart CartSpec CartExamples.

Lemma writable_amount a : writable (json_of_amount a) = kept a.
Proof. destruct a; reflexivity. Qed.

Lemma writable_item it : writable (json_of_item it) = storable it.
Proof.
  destruct it as [i n p sh im sz c q cat]. unfold storable, json_of_item.
  cbn [writable id name price shipping image size color quantity category].
  rewrite !forallb_app. cbn [forallb snd writable].
  rewrite !writable_amount.
  destruct im, cat; cbn [optional_member forallb snd writable];
    rewrite ?andb_true_r; reflexivity.
Qed.

Lemma writable_items l :
  writable (JArr (List.map json_of_item l)) = forallb storable l.
Proof.
  cbn [writable]. induction l as [|it l IH]; [reflexivity|].
  cbn [List.map forallb]. now rewrite writable_item, IH.
Qed.

Lemma item_of_json_of_item it : item_of_json (json_of_item it) = Some it.
Proof.
  destruct it as [i n p sh im sz c q cat].
  destruct p, sh, q, im, cat; reflexivity.
Qed.

Lemma items_of_elements_of_items l :
  items_of_elements (List.map json_of_item l) = Some l.
Proof.
  induction l as [|it l IH]; [reflexivity|].
  cbn [List.map items_of_elements]. now rewrite item_of_json_of_item, IH.
Qed.

(** [JSON.parse(JSON.stringify(items))] gives the lines back. *)
Lemma parse_stringify_items l :
  forallb storable l = true -> parse_items (stringify_items l) = Some l.
Proof.
  intros H. unfold parse_items, stringify_items.
  rewrite parse_stringify by now rewrite writable_items.
  apply items_of_elements_of_items.
Qed.

Lemma stringify_items_not_empty l : is_empty (stringify_items l) = false.
Proof. destruct l; reflexivity. Qed.

Lemma getItem_setItem key value st st' :
  setItem key value st = Some st' -> getItem key st' = Some value.
Proof.
  unfold setItem, getItem.
  destruct (String.length key + String.length value <=? quota st)%nat;
    [|discriminate].
  intros H. inversion H. simpl. apply lookup_insert_eq.
Qed.

(** What [load] makes of a store in which [save] has written the lines. *)
Lemma load_stored l w :
  forallb storable l = true ->
  getItem STORAGE_KEY (localStorage w) = Some (stringify_items l) ->
  items (load w) = l.
Proof.
  intros Hl Hs. unfold load.
  now rewrite Hs, stringify_items_not_empty, (parse_stringify_items l Hl).
Qed.

Lemma save_stores w :
  (String.length STORAGE_KEY + String.length (stringify_items (items w))
   <= quota (localStorage w))%nat ->
  getItem STORAGE_KEY (localStorage (save w))
  = Some (stringify_items (items w)).
Proof.
  intros Hq. unfold save.
  destruct (setItem STORAGE_KEY (stringify_items (items w)) (localStorage w))
    as [st|] eqn:E.
  - cbn [updateCartCount localStorage]. exact (getItem_setItem _ _ _ _ E).
  - unfold setItem in E. apply Nat.leb_le in Hq. rewrite Hq in E.
    discriminate.
Qed.

(** C8, as the code has it. When the price, shipping and quantity of every
    line are finite numbers (or [null]) and the browser accepts the write,
    a cart written by [save()] is read back by [load()] from the same key,
    in that session or a later one, as the identical list of lines. *)
Theorem C8_save_then_load_finite_lines :
  forall w w',
    forallb storable (items w) = true ->
    (String.length STORAGE_KEY + String.length (stringify_items (items w))
     <= quota (localStorage w))%nat ->
    localStorage w' = localStorage (save w) ->
    items (load w') = items w.
Proof.
  intros w w' Hl Hq Hs. apply (load_stored _ _ Hl).
  rewrite Hs. now apply save_stores.
Qed.

Lemma C8_save_then_load_witness :
  items (load (reopened (save (example_world two_lines))))
  = two_lines.
Proof.
  apply (C8_save_then_load_finite_lines
           (example_world two_lines)).
  - reflexivity.
  - vm_compute. lia.
  - reflexivity.
Defined.

Lemma priceless_from_feed :
  List.map of_catalog
    (Products.parseCSV
       ("id,name,price" +:+ String newline "9,Gold Tee,Infinity"))
  = [Some priceless].
Proof. vm_compute. reflexivity. Qed.

(** C8 as stated fails: the line of a product whose price is [Infinity]
    is written with the price [null], and read back with it. *)
Lemma C8_infinite_price_is_not_restored :
  let w := snd (add priceless "M" "Black" (Int 1)
                  (example_world [])) in
  items w = [cartItem priceless "M" "Black" (Int 1)]
  /\ getItem STORAGE_KEY (localStorage w) = Some (stringify_items (items w))
  /\ price <$> items (load w) = [Null]
  /\ items (load w) <> items w.
Proof.
  vm_compute. repeat split. discriminate.
Qed.

End StorageFacts.

Module CatalogFacts.
Import Products FeedSpec FetchSpec CatalogSpec StringSpec JSStringFacts
  ParseCSVFacts.

(** *** Lines and rows *)

Lemma split_nonempty sep s : split sep s <> [].
Proof.
  induction s as [|c s IH]; cbn [split]; [discriminate|].
  destruct (Ascii.eqb c sep); [discriminate|].
  destruct (split sep s); discriminate.
Qed.

Lemma filter_all_false {A} (f : A -> bool) l :
  Forall (fun x => f x = false) l -> List.filter f l = [].
Proof.
  induction 1 as [|x l Hx _ IH]; [reflexivity|].
  cbn [List.filter]. now rewrite Hx.
Qed.

Lemma feed_lines_blank_tail csv :
  Forall (fun line => blank line = true) (tl (split newline csv)) ->
  (List.length (feed_lines csv) <= 1)%nat.
Proof.
  unfold feed_lines. destruct (split newline csv) as [|first rest]; intros H.
  - cbn. lia.
  - cbn [tl] in H. cbn [List.filter].
    rewrite (filter_all_false _ rest).
    + destruct (negb (is_empty (trim first))); cbn; lia.
    + eapply Forall_impl; [exact H|]. intros line Hl. unfold blank in Hl.
      cbn beta. now rewrite Hl.
Qed.

(** X1. A feed in which every line after the first is blank (in
    particular a feed of one line, or the empty feed) gives the empty
    catalog: [parseCSV] needs a header line and one more line with text. *)
Theorem parseCSV_needs_a_data_line csv :
  Forall (fun line => blank line = true) (tl (split newline csv)) ->
  parseCSV csv = [].
Proof.
  intros H. apply feed_lines_blank_tail in H. unfold parseCSV.
  destruct (Nat.ltb_spec (List.length (feed_lines csv)) 2); [reflexivity|lia].
Qed.

Lemma parseCSV_needs_a_data_line_witness :
  parseCSV ("id,name,price" +:+ String newline "  ") = [].
Proof.
  apply parseCSV_needs_a_data_line. repeat constructor.
Defined.

(** *** The properties of a product *)

Lemma cell_from_In headers h : forall index values,
  is_Some (cell_from headers index values h) <-> In h headers.
Proof.
  induction headers as [|header headers IH]; intros index values;
    cbn [cell_from In].
  - split; [intros [v Hv]; discriminate|tauto].
  - specialize (IH (S index) values).
    destruct (cell_from headers (S index) values h) as [v|].
    + split; [intros _; right; apply IH; eauto|eauto].
    + destruct (String.eqb_spec header h) as [->|Hne].
      * split; [tauto|eauto].
      * split; [intros [v Hv]; discriminate|].
        intros [Heq|Hin]; [contradiction|]. apply IH in Hin.
        destruct Hin as [v Hv]. discriminate.
Qed.

Lemma assign_columns_proto headers : forall index values (p : product),
  assign_columns headers index values p !! "__proto__" = p !! "__proto__".
Proof.
  induction headers as [|header headers IH]; intros index values p;
    cbn [assign_columns]; [reflexivity|].
  rewrite IH. unfold set_property.
  destruct (String.eqb_spec header "__proto__") as [_|Hne]; [reflexivity|].
  now apply lookup_insert_ne.
Qed.

Lemma parseCSV_In csv p :
  In p (parseCSV csv) ->
  exists values,
    p = row_product (header_keys csv) values /\ has_required p = true.
Proof.
  rewrite parseCSV_rows. intros H. apply List.in_map_iff in H.
  destruct H as [values [<- H]]. apply List.filter_In in H.
  exists values. tauto.
Qed.

(** X2. Every product of the catalog has exactly the columns of the
    header as its properties (a row too short is filled with empty cells,
    a row too long is cut), except that a column named [__proto__] sets
    no property. *)
Theorem parseCSV_product_columns csv p h :
  In p (parseCSV csv) ->
  (is_Some (p !! h) <-> In h (header_keys csv) /\ h <> "__proto__").
Proof.
  intros H. apply parseCSV_In in H. destruct H as [values [-> _]].
  destruct (String.eqb_spec h "__proto__") as [->|Hne].
  - unfold row_product. rewrite assign_columns_proto, lookup_empty.
    split; [intros [v Hv]; discriminate|tauto].
  - rewrite (row_product_lookup h _ _ Hne).
    rewrite <- (cell_from_In (header_keys csv) h 0 values).
    unfold cell. destruct (cell_from (header_keys csv) 0 values h); cbn.
    + split; [intros _; split; [eauto|exact Hne] | intros _; eauto].
    + split; [intros [v Hv]; discriminate|].
      intros [[v Hv] _]. discriminate.
Qed.

Lemma parseCSV_product_columns_witness :
  is_Some (row_product (header_keys FeedExamples.tee_feed) ["1"; "Tee"; "450"]
             !! "name")
  <-> In "name" (header_keys FeedExamples.tee_feed) /\ "name" <> "__proto__".
Proof.
  apply (parseCSV_product_columns FeedExamples.tee_feed).
  vm_compute. left. reflexivity.
Defined.


Lemma parseCSV_cell csv p h v :
  In p (parseCSV csv) -> p !! h = Some v ->
  exists values text,
    p = row_product (header_keys csv) values
    /\ cell (header_keys csv) values h = Some text /\ v = coerce h text.
Proof.
  intros H Hv. apply parseCSV_In in H. destruct H as [values [-> _]].
  exists values.
  destruct (String.eqb_spec h "__proto__") as [->|Hne].
  - unfold row_product in Hv.
    rewrite assign_columns_proto, lookup_empty in Hv. discriminate.
  - rewrite (row_product_lookup h _ _ Hne) in Hv.
    destruct (cell (header_keys csv) values h) as [text|]; [|discriminate].
    cbn in Hv. exists text. split; [reflexivity|]. split; congruence.
Qed.

Lemma truthy_Some_inv (v : option property) :
  truthy v = true -> exists x, v = Some x.
Proof. destruct v; [eauto|discriminate]. Qed.

Lemma is_empty_false s : is_empty s = false <-> s <> EmptyString.
Proof. destruct s; cbn; split; congruence. Qed.

Lemma truthy_number n :
  JSNumber.truthy n = true -> n <> JSNumber.NaN /\ n <> JSNumber.Int 0.
Proof. destruct n as [z| | | |]; cbn; try discriminate; split; try discriminate.
  intros E. inversion E. subst. discriminate.
Qed.

Lemma coerce_numeric h text :
  numeric_column h = true ->
  exists n, coerce h text = VNum n /\ n <> JSNumber.NaN.
Proof.
  unfold numeric_column, coerce. intros ->.
  destruct (JSNumber.truthy (JSNumber.parseFloat text)) eqn:E.
  - eexists. split; [reflexivity|]. now apply truthy_number.
  - eexists. split; [reflexivity|]. discriminate.
Qed.

Lemma required_properties csv p :
  In p (parseCSV csv) ->
  exists i n pr,
    p !! "id" = Some (VStr i) /\ i <> EmptyString /\
    p !! "name" = Some (VStr n) /\ n <> EmptyString /\
    p !! "price" = Some (VNum pr) /\ pr <> JSNumber.NaN
    /\ pr <> JSNumber.Int 0 /\
    exists view,
      Cart.of_catalog p = Some view /\ Cart.product_id view = i
      /\ Cart.product_name view = n /\ Cart.product_price view = pr.
Proof.
  intros H. pose proof (parseCSV_In _ _ H) as [values [_ Hreq]].
  unfold has_required in Hreq.
  apply andb_prop in Hreq. destruct Hreq as [Hreq Hprice].
  apply andb_prop in Hreq. destruct Hreq as [Hid Hname].
  destruct (truthy_Some_inv _ Hid) as [vi Ei].
  destruct (truthy_Some_inv _ Hname) as [vn En].
  destruct (truthy_Some_inv _ Hprice) as [vp Ep].
  destruct (parseCSV_cell _ _ _ _ H Ei) as [_ [ti [_ [_ Hi]]]].
  destruct (parseCSV_cell _ _ _ _ H En) as [_ [tn [_ [_ Hn]]]].
  destruct (parseCSV_cell _ _ _ _ H Ep) as [_ [tp [_ [_ Hp]]]].
  change (coerce "id" ti) with (VStr ti) in Hi.
  change (coerce "name" tn) with (VStr tn) in Hn.
  destruct (coerce_numeric "price" tp eq_refl) as [pr [Hc _]].
  rewrite Hc in Hp. subst vi vn vp.
  rewrite Ei in Hid. rewrite En in Hname. rewrite Ep in Hprice.
  cbn in Hid, Hname, Hprice.
  apply negb_true_iff, is_empty_false in Hid.
  apply negb_true_iff, is_empty_false in Hname.
  apply truthy_number in Hprice. destruct Hprice as [Hnan Hzero].
  exists ti, tn, pr. repeat (split; [assumption|]).
  unfold Cart.of_catalog. rewrite Ei, En, Ep.
  eexists. split; [reflexivity|]. cbn. tauto.
Qed.

(** X3. Every product of the catalog has a string that is not empty as its
    id and as its name, and a number other than zero and [NaN] as its
    price; so every product of the catalog is one that [Cart.add] can
    take. *)
Theorem parseCSV_required_properties csv p :
  In p (parseCSV csv) ->
  exists i n pr,
    p !! "id" = Some (VStr i) /\ i <> EmptyString /\
    p !! "name" = Some (VStr n) /\ n <> EmptyString /\
    p !! "price" = Some (VNum pr) /\ pr <> JSNumber.NaN
    /\ pr <> JSNumber.Int 0 /\
    exists view,
      Cart.of_catalog p = Some view /\ Cart.product_id view = i
      /\ Cart.product_name view = n /\ Cart.product_price view = pr.
Proof. apply required_properties. Qed.

Lemma parseCSV_required_properties_witness :
  exists i n pr,
    row_product (header_keys FeedExamples.tee_feed) ["1"; "Tee"; "450"]
      !! "id" = Some (VStr i) /\ i <> EmptyString /\
    row_product (header_keys FeedExamples.tee_feed) ["1"; "Tee"; "450"]
      !! "name" = Some (VStr n) /\ n <> EmptyString /\
    row_product (header_keys FeedExamples.tee_feed) ["1"; "Tee"; "450"]
      !! "price" = Some (VNum pr) /\ pr <> JSNumber.NaN
    /\ pr <> JSNumber.Int 0 /\
    exists view,
      Cart.of_catalog
        (row_product (header_keys FeedExamples.tee_feed) ["1"; "Tee"; "450"])
      = Some view /\ Cart.product_id view = i
      /\ Cart.product_name view = n /\ Cart.product_price view = pr.
Proof.
  apply (parseCSV_required_properties FeedExamples.tee_feed).
  vm_compute. left. reflexivity.
Defined.

Lemma falsy_number n :
  JSNumber.truthy n = false -> n = JSNumber.NaN \/ n = JSNumber.Int 0.
Proof.
  destruct n as [z| | | |]; cbn; try discriminate; [|now left].
  intros H. apply negb_false_iff, Z.eqb_eq in H. subst z. now right.
Qed.

Lemma coerce_number h text :
  numeric_column h = true ->
  exists n,
    coerce h text = VNum n /\ n <> JSNumber.NaN
    /\ (JSNumber.parseFloat text = JSNumber.NaN -> n = JSNumber.Int 0)
    /\ (JSNumber.parseFloat text <> JSNumber.NaN ->
        n = JSNumber.parseFloat text).
Proof.
  unfold numeric_column, coerce. intros ->.
  destruct (JSNumber.truthy (JSNumber.parseFloat text)) eqn:E.
  - apply truthy_number in E. destruct E as [Hn _].
    eexists. split; [reflexivity|]. split; [exact Hn|].
    split; [intros H; now destruct (Hn H)|reflexivity].
  - apply falsy_number in E.
    eexists. split; [reflexivity|]. split; [discriminate|].
    split; [reflexivity|]. intros Hn. destruct E as [E|E]; [now destruct Hn|].
    now rewrite E.
Qed.

(** X4. In a product of the catalog the price and the shipping, when the
    feed has the column, are numbers and never [NaN]: a cell that is
    empty or does not read as a number is stored as 0, and any other
    cell as the number [parseFloat] reads in it. *)
Theorem parseCSV_numbers_are_not_NaN csv p h v :
  In p (parseCSV csv) -> numeric_column h = true -> p !! h = Some v ->
  exists values text n,
    p = row_product (header_keys csv) values
    /\ cell (header_keys csv) values h = Some text
    /\ v = VNum n /\ n <> JSNumber.NaN
    /\ (JSNumber.parseFloat text = JSNumber.NaN -> n = JSNumber.Int 0)
    /\ (JSNumber.parseFloat text <> JSNumber.NaN ->
        n = JSNumber.parseFloat text).
Proof.
  intros H Hh Hv.
  destruct (parseCSV_cell _ _ _ _ H Hv) as [values [text [Hp [Hc ->]]]].
  destruct (coerce_number h text Hh) as [n Hn].
  exists values, text, n. tauto.
Qed.

Lemma parseCSV_numbers_are_not_NaN_witness :
  let p := row_product (header_keys free_shipping_feed) free_shipping_row in
  parseCSV free_shipping_feed = [p]
  /\ p !! "shipping" = Some (VNum (JSNumber.Int 0))
  /\ exists values text n,
       p = row_product (header_keys free_shipping_feed) values
       /\ cell (header_keys free_shipping_feed) values "shipping" = Some text
       /\ VNum (JSNumber.Int 0) = VNum n /\ n <> JSNumber.NaN
       /\ (JSNumber.parseFloat text = JSNumber.NaN -> n = JSNumber.Int 0)
       /\ (JSNumber.parseFloat text <> JSNumber.NaN ->
           n = JSNumber.parseFloat text).
Proof.
  split; [vm_compute; reflexivity|]. split; [vm_compute; reflexivity|].
  apply (parseCSV_numbers_are_not_NaN free_shipping_feed
           (row_product (header_keys free_shipping_feed) free_shipping_row)
           "shipping").
  - vm_compute. left. reflexivity.
  - reflexivity.
  - vm_compute. reflexivity.
Defined.

Lemma split_pieces sep s : Forall (fun t => ~ has_char sep t) (split sep s).
Proof.
  induction s as [|c s IH]; cbn [split].
  - constructor; [|constructor]. intros [].
  - destruct (Ascii.eqb_spec c sep) as [->|Hne].
    + constructor; [intros []|exact IH].
    + destruct (split sep s) as [|h t].
      * constructor; [|constructor]. rewrite has_char_cons.
        intros [?|[]]. contradiction.
      * inversion IH as [|? ? Hh Ht]. subst. constructor; [|exact Ht].
        rewrite has_char_cons. tauto.
Qed.

Lemma coerce_list h text :
  list_column h = true ->
  exists tokens l,
    coerce h text = VList l
    /\ Forall2 stripped (split comma text) tokens
    /\ l = List.filter (fun t => negb (is_empty t)) tokens
    /\ Forall (fun t => t <> EmptyString /\ starts_black t /\ ends_black t
                        /\ ~ has_char comma t) l.
Proof.
  intros Hh. unfold coerce.
  assert (String.eqb h "price" || String.eqb h "shipping" = false) as ->.
  { unfold list_column in Hh.
    destruct (String.eqb_spec h "price") as [->|_]; [discriminate|].
    destruct (String.eqb_spec h "shipping") as [->|_]; [discriminate|].
    reflexivity. }
  unfold list_column in Hh. rewrite Hh.
  exists (List.map trim (split comma text)). eexists.
  split; [reflexivity|]. split; [apply Forall2_map_stripped|].
  split; [reflexivity|].
  apply List.Forall_forall. intros t Ht.
  apply List.filter_In in Ht. destruct Ht as [Ht Hne].
  apply List.in_map_iff in Ht. destruct Ht as [piece [<- Hpiece]].
  apply negb_true_iff, is_empty_false in Hne.
  split; [exact Hne|].
  destruct (trim_stripped piece) as [a [b [_ [_ [_ [Hs He]]]]]].
  split; [exact Hs|]. split; [exact He|].
  intros Hc. apply has_char_trim in Hc.
  pose proof (split_pieces comma text) as Hall.
  rewrite List.Forall_forall in Hall. exact (Hall piece Hpiece Hc).
Qed.

(** X5. In a product of the catalog the sizes, the colors and the images,
    when the feed has the column, are lists of tokens: the pieces of the
    cell between its commas, each without the white space at its two
    ends, the empty ones left out. So no token is empty, none begins or
    ends with white space, and none holds a comma. *)
Theorem parseCSV_lists_hold_trimmed_tokens csv p h v :
  In p (parseCSV csv) -> list_column h = true -> p !! h = Some v ->
  exists values text tokens l,
    p = row_product (header_keys csv) values
    /\ cell (header_keys csv) values h = Some text
    /\ v = VList l
    /\ Forall2 stripped (split comma text) tokens
    /\ l = List.filter (fun t => negb (is_empty t)) tokens
    /\ Forall (fun t => t <> EmptyString /\ starts_black t /\ ends_black t
                        /\ ~ has_char comma t) l.
Proof.
  intros H Hh Hv.
  destruct (parseCSV_cell _ _ _ _ H Hv) as [values [text [Hp [Hc ->]]]].
  destruct (coerce_list h text Hh) as [tokens [l Hl]].
  exists values, text, tokens, l. tauto.
Qed.

Lemma parseCSV_lists_hold_trimmed_tokens_witness :
  let p := row_product (header_keys sized_feed) sized_row in
  parseCSV sized_feed = [p]
  /\ p !! "sizes" = Some (VList ["S"; "M"; "XL"])
  /\ exists values text tokens l,
       p = row_product (header_keys sized_feed) values
       /\ cell (header_keys sized_feed) values "sizes" = Some text
       /\ VList ["S"; "M"; "XL"] = VList l
       /\ Forall2 stripped (split comma text) tokens
       /\ l = List.filter (fun t => negb (is_empty t)) tokens
       /\ Forall (fun t => t <> EmptyString /\ starts_black t /\ ends_black t
                           /\ ~ has_char comma t) l.
Proof.
  split; [vm_compute; reflexivity|]. split; [vm_compute; reflexivity|].
  apply (parseCSV_lists_hold_trimmed_tokens sized_feed
           (row_product (header_keys sized_feed) sized_row) "sizes").
  - vm_compute. left. reflexivity.
  - reflexivity.
  - vm_compute. reflexivity.
Defined.

(** *** Column names *)

Lemma lower_char_fixed c : lower_char (lower_char c) = lower_char c.
Proof. destruct c as [[] [] [] [] [] [] [] []]; reflexivity. Qed.

Lemma has_char_toLowerCase c s :
  has_char c (toLowerCase s) -> lower_char c = c.
Proof.
  induction s as [|x s IH]; cbn [toLowerCase]; [intros []|].
  rewrite has_char_cons. intros [<-|H]; [apply lower_char_fixed|auto].
Qed.

Lemma has_char_append c a b :
  has_char c (a +:+ b) <-> has_char c a \/ has_char c b.
Proof. unfold has_char. rewrite chars_append. apply in_app_iff. Qed.

Lemma has_char_replace_white_runs c r s : forall in_run,
  has_char c (replace_white_runs r in_run s) ->
  has_char c r \/ (has_char c s /\ is_white c = false).
Proof.
  induction s as [|x s IH]; intros in_run; cbn [replace_white_runs];
    [intros []|].
  destruct (is_white x) eqn:Hx.
  - destruct in_run.
    + intros H. apply IH in H. rewrite has_char_cons. tauto.
    + rewrite has_char_append. intros [H|H]; [tauto|].
      apply IH in H. rewrite has_char_cons. tauto.
  - rewrite !has_char_cons. intros [<-|H]; [tauto|].
    apply IH in H. tauto.
Qed.

Lemma toLowerCase_fixed s :
  (forall c, has_char c s -> lower_char c = c) -> toLowerCase s = s.
Proof.
  induction s as [|x s IH]; intros H; [reflexivity|]. cbn [toLowerCase].
  rewrite (H x) by (apply has_char_cons; tauto).
  rewrite IH; [reflexivity|]. intros c Hc. apply H, has_char_cons. tauto.
Qed.

Lemma trimStart_black_fixed s :
  (forall c, has_char c s -> is_white c = false) -> trimStart s = s.
Proof.
  destruct s as [|x s]; intros H; [reflexivity|]. cbn [trimStart].
  now rewrite (H x) by (apply has_char_cons; tauto).
Qed.

Lemma trimEnd_black_fixed s :
  (forall c, has_char c s -> is_white c = false) -> trimEnd s = s.
Proof.
  induction s as [|x s IH]; intros H; [reflexivity|]. cbn [trimEnd].
  rewrite (H x) by (apply has_char_cons; tauto).
  rewrite IH; [reflexivity|]. intros c Hc. apply H, has_char_cons. tauto.
Qed.

Lemma replace_white_runs_black_fixed r s :
  (forall c, has_char c s -> is_white c = false) ->
  replace_white_runs r false s = s.
Proof.
  induction s as [|x s IH]; intros H; [reflexivity|].
  cbn [replace_white_runs].
  rewrite (H x) by (apply has_char_cons; tauto).
  rewrite IH; [reflexivity|]. intros c Hc. apply H, has_char_cons. tauto.
Qed.

Lemma header_key_chars h c :
  has_char c (header_key h) -> is_white c = false /\ lower_char c = c.
Proof.
  unfold header_key. intros H. apply has_char_replace_white_runs in H.
  destruct H as [H|[H Hw]].
  - apply has_char_cons in H. destruct H as [<-|[]]. split; reflexivity.
  - split; [exact Hw|]. apply has_char_trim in H.
    now apply has_char_toLowerCase in H.
Qed.

(** X6. The key made of a column name holds no white space and no capital
    letter, and making a key of a key changes nothing: the column names
    [In Stock], [in_stock] and [IN  STOCK] all give the key [in_stock]. *)
Theorem header_key_is_normal h :
  (forall c, has_char c (header_key h) ->
             is_white c = false /\ lower_char c = c)
  /\ header_key (header_key h) = header_key h.
Proof.
  split; [apply header_key_chars|].
  assert (forall c, has_char c (header_key h) -> is_white c = false) as Hw
    by (intros c Hc; now apply header_key_chars in Hc).
  assert (forall c, has_char c (header_key h) -> lower_char c = c) as Hl
    by (intros c Hc; now apply header_key_chars in Hc).
  unfold header_key at 1. rewrite (toLowerCase_fixed _ Hl).
  unfold trim. rewrite (trimStart_black_fixed _ Hw).
  rewrite (trimEnd_black_fixed _ Hw).
  now apply replace_white_runs_black_fixed.
Qed.

Lemma header_key_is_normal_witness :
  is_white "_" = false /\ lower_char "_" = "_"%char.
Proof.
  apply (proj1 (header_key_is_normal " In  Stock ") "_"%char).
  unfold has_char. vm_compute. right. right. left. reflexivity.
Defined.

(** *** Line ends *)

Lemma trimEnd_push_white s c :
  is_white c = true -> trimEnd (push s c) = trimEnd s.
Proof.
  intros Hc. unfold push. induction s as [|x s IH].
  - rewrite append_empty_l. cbn. now rewrite Hc.
  - rewrite append_cons. cbn [trimEnd]. now rewrite IH.
Qed.

Lemma trim_push_white s c : is_white c = true -> trim (push s c) = trim s.
Proof.
  intros Hc. unfold trim. induction s as [|x s IH].
  - unfold push. rewrite append_empty_l. cbn. now rewrite Hc.
  - unfold push in *. rewrite append_cons. cbn [trimStart].
    destruct (is_white x); [exact IH|].
    rewrite <- append_cons. now apply (trimEnd_push_white (String x s)).
Qed.

Lemma white_is_no_mark c :
  is_white c = true -> Ascii.eqb c dquote = false /\ Ascii.eqb c comma = false.
Proof.
  intros H. split.
  - destruct (Ascii.eqb_spec c dquote) as [->|_]; [discriminate|reflexivity].
  - destruct (Ascii.eqb_spec c comma) as [->|_]; [discriminate|reflexivity].
Qed.

Lemma parseCSVLine_loop_push_white c line : forall values current inQuotes,
  is_white c = true ->
  parseCSVLine_loop (push line c) values current inQuotes
  = parseCSVLine_loop line values current inQuotes.
Proof.
  unfold push at 1. induction line as [|x line IH];
    intros values current inQuotes Hc.
  - rewrite append_empty_l. cbn [parseCSVLine_loop].
    destruct (white_is_no_mark c Hc) as [-> ->]. cbn.
    now rewrite trim_push_white.
  - rewrite append_cons. cbn [parseCSVLine_loop].
    destruct (Ascii.eqb x dquote); [now apply IH|].
    destruct (Ascii.eqb x comma && negb inQuotes); now apply IH.
Qed.

Lemma parseCSVLine_push_white c line :
  is_white c = true -> parseCSVLine (push line c) = parseCSVLine line.
Proof. intros H. now apply parseCSVLine_loop_push_white. Qed.

Lemma split_crlf csv :
  split newline (crlf csv) = with_cr (split newline csv).
Proof.
  induction csv as [|c csv IH]; [reflexivity|]. cbn [crlf split].
  destruct (Ascii.eqb c newline) eqn:E.
  - cbn [split]. change (Ascii.eqb "013" newline) with false. cbn iota.
    change (Ascii.eqb newline newline) with true. cbn iota.
    rewrite IH. pose proof (split_nonempty newline csv) as Hne.
    destruct (split newline csv) as [|h t]; [contradiction|]. reflexivity.
  - cbn [split]. rewrite E, IH.
    pose proof (split_nonempty newline csv) as Hne.
    destruct (split newline csv) as [|h t]; [contradiction|].
    cbn [with_cr]. destruct t; reflexivity.
Qed.

Lemma rows_with_cr lines :
  List.map parseCSVLine
    (List.filter (fun line => negb (is_empty (trim line))) (with_cr lines))
  = List.map parseCSVLine
      (List.filter (fun line => negb (is_empty (trim line))) lines).
Proof.
  induction lines as [|line lines IH]; [reflexivity|].
  cbn [with_cr]. destruct lines as [|line' lines]; [reflexivity|].
  cbn [List.filter] in *.
  rewrite (trim_push_white line "013" eq_refl).
  destruct (negb (is_empty (trim line))); cbn [List.map].
  - rewrite IH. f_equal. now apply parseCSVLine_push_white.
  - exact IH.
Qed.

Lemma header_keys_rows csv :
  header_keys csv
  = List.map header_key
      (hd (parseCSVLine EmptyString) (List.map parseCSVLine (feed_lines csv))).
Proof. unfold header_keys. now destruct (feed_lines csv). Qed.

Lemma data_rows_rows csv :
  data_rows csv = tl (List.map parseCSVLine (feed_lines csv)).
Proof. unfold data_rows. now destruct (feed_lines csv). Qed.

(** X7. A feed whose lines end with a carriage return and a line feed
    gives the same catalog as the feed whose lines end with a line feed
    alone. *)
Theorem parseCSV_crlf csv : parseCSV (crlf csv) = parseCSV csv.
Proof.
  assert (List.map parseCSVLine (feed_lines (crlf csv))
          = List.map parseCSVLine (feed_lines csv)) as H.
  { unfold feed_lines. rewrite split_crlf. apply rows_with_cr. }
  rewrite !parseCSV_rows, !header_keys_rows, !data_rows_rows, H.
  reflexivity.
Qed.

(** *** Categories *)

Lemma In_set_add c x cats : In x (set_add c cats) <-> x = c \/ In x cats.
Proof.
  unfold set_add. destruct (existsb (String.eqb c) cats) eqn:E.
  - split; [tauto|]. intros [->|H]; [|exact H].
    apply existsb_exists in E. destruct E as [y [Hy E]].
    apply String.eqb_eq in E. now subst.
  - rewrite in_app_iff. cbn. intuition congruence.
Qed.

Lemma NoDup_set_add c cats : NoDup cats -> NoDup (set_add c cats).
Proof.
  intros H. unfold set_add. destruct (existsb (String.eqb c) cats) eqn:E;
    [exact H|].
  apply NoDup_app. split; [exact H|]. split; [|apply NoDup_singleton].
  intros x Hx Hc. apply list_elem_of_singleton in Hc. subst x.
  apply list_elem_of_In in Hx.
  assert (existsb (String.eqb c) cats = true) as E'.
  { apply existsb_exists. exists c. split; [exact Hx|apply String.eqb_refl]. }
  congruence.
Qed.

Lemma extractCategories_loop_app l1 l2 : forall cats,
  extractCategories_loop (l1 ++ l2) cats
  = extractCategories_loop l2 (extractCategories_loop l1 cats).
Proof.
  induction l1 as [|p l1 IH]; intros cats; [reflexivity|].
  cbn [app extractCategories_loop]. apply IH.
Qed.

Lemma NoDup_extractCategories_loop l : forall cats,
  NoDup cats -> NoDup (extractCategories_loop l cats).
Proof.
  induction l as [|p l IH]; intros cats H; [exact H|].
  cbn [extractCategories_loop]. apply IH.
  destruct (category_of p); [now apply NoDup_set_add|exact H].
Qed.

Lemma In_extractCategories_loop l : forall cats c,
  In c (extractCategories_loop l cats)
  <-> In c cats \/ exists p, In p l /\ category_of p = Some c.
Proof.
  induction l as [|p l IH]; intros cats c; cbn [extractCategories_loop].
  - split; [tauto|]. intros [H|[p [[] _]]]. exact H.
  - rewrite IH. destruct (category_of p) as [k|] eqn:E.
    + rewrite In_set_add. split.
      * intros [[->|H]|[q [Hq Hc]]]; [right; exists p|tauto|right; exists q];
          cbn; tauto.
      * intros [H|[q [[<-|Hq] Hc]]]; [tauto| |right; eauto].
        left. left. congruence.
    + split.
      * intros [H|[q [Hq Hc]]]; [tauto|right; exists q; cbn; tauto].
      * intros [H|[q [[<-|Hq] Hc]]]; [tauto|congruence|right; eauto].
Qed.

(** X8. The list of categories holds every category once: a string is in
    the list when it is the category of some product, and a product put
    after the others adds its category at the end of the list when the
    category is new, and changes nothing otherwise (the categories come
    in the order in which they first appear). *)
Theorem extractCategories_first_appearance :
  (forall l, NoDup (extractCategories l)) /\
  (forall l c,
     In c (extractCategories l)
     <-> exists p, In p l /\ category_of p = Some c) /\
  (forall l p,
     category_of p = None ->
     extractCategories (l ++ [p]) = extractCategories l) /\
  (forall l p c,
     category_of p = Some c -> In c (extractCategories l) ->
     extractCategories (l ++ [p]) = extractCategories l) /\
  (forall l p c,
     category_of p = Some c -> ~ In c (extractCategories l) ->
     extractCategories (l ++ [p]) = extractCategories l ++ [c]).
Proof.
  unfold extractCategories.
  split; [|split; [|split; [|split]]].
  - intros l. apply NoDup_extractCategories_loop. constructor.
  - intros l c. rewrite In_extractCategories_loop. cbn. tauto.
  - intros l p E. rewrite extractCategories_loop_app.
    cbn [extractCategories_loop]. now rewrite E.
  - intros l p c E H. rewrite extractCategories_loop_app.
    cbn [extractCategories_loop]. rewrite E. unfold set_add.
    assert (existsb (String.eqb c) (extractCategories_loop l []) = true)
      as ->; [|reflexivity].
    apply existsb_exists. exists c. split; [exact H|apply String.eqb_refl].
  - intros l p c E H. rewrite extractCategories_loop_app.
    cbn [extractCategories_loop]. rewrite E. unfold set_add.
    destruct (existsb (String.eqb c) (extractCategories_loop l [])) eqn:Ex;
      [|reflexivity].
    apply existsb_exists in Ex. destruct Ex as [y [Hy Ey]].
    apply String.eqb_eq in Ey. subst y. contradiction.
Qed.

Lemma extractCategories_first_appearance_witness :
  extractCategories
    ([demo_product "1" "Tee" "A tee" 450 75 "T-Shirts" [] [] "tee.png" true]
     ++ [demo_product "2" "Cap" "A cap" 350 50 "Caps" [] [] "cap.png" true])
  = extractCategories
      [demo_product "1" "Tee" "A tee" 450 75 "T-Shirts" [] [] "tee.png" true]
    ++ ["Caps"].
Proof.
  apply extractCategories_first_appearance.
  - vm_compute. reflexivity.
  - vm_compute. intros [H|[]]. discriminate H.
Defined.

(** *** What a load leaves behind *)

Lemma well_formed_parseCSV csv :
  Forall (fun p => well_formed p = true) (parseCSV csv).
Proof.
  apply List.Forall_forall. intros p H.
  destruct (required_properties _ _ H)
    as [i [n [pr [Ei [_ [En [_ [Ep _]]]]]]]].
  destruct (parseCSV_In _ _ H) as [values [_ Hreq]].
  unfold well_formed. rewrite Hreq, Ei, En, Ep. cbn.
  assert (forall h, coerce h = VStr -> textual (p !! h) = true) as Ht.
  { intros h Hc. destruct (p !! h) as [v|] eqn:Ev; [|reflexivity].
    destruct (parseCSV_cell _ _ _ _ H Ev) as [_ [text [_ [_ ->]]]].
    now rewrite Hc. }
  now rewrite !Ht.
Qed.

Lemma well_formed_getDemoProducts :
  Forall (fun p => well_formed p = true) getDemoProducts.
Proof. apply List.Forall_forall, forallb_forall. vm_compute. reflexivity. Qed.

Lemma consistent_fetch st net :
  consistent st -> consistent (snd (fst (fetch st net))).
Proof.
  intros H. unfold fetch.
  destruct (loaded st && (0 <? List.length (items st))%nat); [exact H|].
  unfold request. cbn [fst snd].
  destruct (reply net (List.length (requested net))) as [|[] csvText];
    cbn [fst snd]; (split; [reflexivity|]); cbn [items];
    first [apply well_formed_parseCSV | apply well_formed_getDemoProducts].
Qed.

Lemma returned_fetch st net :
  fst (fst (fetch st net)) = items (snd (fst (fetch st net))).
Proof.
  unfold fetch.
  destruct (loaded st && (0 <? List.length (items st))%nat); [reflexivity|].
  unfold request. cbn [fst snd].
  now destruct (reply net (List.length (requested net))) as [|[] csvText].
Qed.

Lemma fetch_times_S n st net :
  fetch_times (S n) st net
  = (fst (fst (fetch st net))
       :: fst (fst (fetch_times n (snd (fst (fetch st net)))
                      (snd (fetch st net)))),
     snd (fst (fetch_times n (snd (fst (fetch st net))) (snd (fetch st net)))),
     snd (fetch_times n (snd (fst (fetch st net))) (snd (fetch st net)))).
Proof.
  cbn [fetch_times]. destruct (fetch st net) as [[l st1] net1]. cbn [fst snd].
  now destruct (fetch_times n st1 net1) as [[ls st2] net2].
Qed.

(** X9. Whatever the network answers, in a session that begins with a
    consistent state (as the state before the first load is) every call
    of [fetch] returns products that have an id, a name and a price,
    with strings as id, name, description and category and a number as
    price; and the session ends in a state whose list of categories is
    the one of its products. *)
Theorem fetch_keeps_the_catalog_consistent n : forall st net,
  consistent st ->
  Forall (Forall (fun p => well_formed p = true))
         (fst (fst (fetch_times n st net)))
  /\ consistent (snd (fst (fetch_times n st net))).
Proof.
  induction n as [|n IH]; intros st net H.
  - cbn. split; [constructor|exact H].
  - rewrite fetch_times_S. cbn [fst snd].
    pose proof (consistent_fetch st net H) as H1.
    destruct (IH _ (snd (fetch st net)) H1) as [IH1 IH2].
    split; [|exact IH2]. constructor; [|exact IH1].
    rewrite returned_fetch. exact (proj2 H1).
Qed.

Lemma fetch_keeps_the_catalog_consistent_witness :
  Forall (Forall (fun p => well_formed p = true))
         (fst (fst (fetch_times 2 initial FeedExamples.flaky)))
  /\ consistent (snd (fst (fetch_times 2 initial FeedExamples.flaky))).
Proof.
  apply fetch_keeps_the_catalog_consistent.
  split; [reflexivity|constructor].
Defined.

Lemma cached_empty st : items st = [] -> cached st = false.
Proof. unfold cached. intros ->. apply andb_false_r. Qed.

(** X10. A load that succeeds with a feed that gives no product is not
    kept: the next call of [fetch] asks the network again. When that
    second request fails, the demo list is installed with the mark
    [loaded] still set, so that the demo list now counts as the loaded
    catalog and is served from memory. *)
Theorem empty_catalog_is_fetched_again st net csv :
  cached st = false ->
  reply net (List.length (requested net)) = Response true csv ->
  parseCSV csv = [] ->
  exists st1 net1,
    fetch st net = ([], st1, net1)
    /\ loaded st1 = true
    /\ requested (snd (fetch st1 net1))
       = requested net ++ [CONFIG.googleSheetCSV; CONFIG.googleSheetCSV]
    /\ ((forall csv',
           reply net (S (List.length (requested net)))
           <> Response true csv') ->
        fst (fst (fetch st1 net1)) = getDemoProducts
        /\ cached (snd (fst (fetch st1 net1))) = true).
Proof.
  intros Hc Hr He. eexists. eexists.
  rewrite (FetchFacts.fetch_success st net csv Hc Hr), He.
  split; [reflexivity|]. split; [reflexivity|].
  split.
  - rewrite FetchFacts.fetch_requests by now apply cached_empty.
    cbn [requested]. now rewrite <- app_assoc.
  - intros Hf. rewrite FetchFacts.fetch_failure.
    + cbn [fst snd]. split; reflexivity.
    + now apply cached_empty.
    + cbn [requested reply]. rewrite length_app. cbn [List.length].
      rewrite Nat.add_1_r. exact Hf.
Qed.

Lemma empty_catalog_is_fetched_again_witness :
  exists st1 net1,
    fetch initial empty_then_down = ([], st1, net1)
    /\ loaded st1 = true
    /\ requested (snd (fetch st1 net1))
       = [CONFIG.googleSheetCSV; CONFIG.googleSheetCSV]
    /\ fst (fst (fetch st1 net1)) = getDemoProducts
    /\ cached (snd (fst (fetch st1 net1))) = true.
Proof.
  destruct (empty_catalog_is_fetched_again initial empty_then_down
              EmptyString eq_refl eq_refl eq_refl)
    as [st1 [net1 [H1 [H2 [H3 H4]]]]].
  exists st1, net1. split; [exact H1|]. split; [exact H2|].
  split; [exact H3|]. apply H4. discriminate.
Defined.

Lemma requested_fetch st net :
  requested (snd (fetch st net)) = requested net
  \/ requested (snd (fetch st net)) = requested net ++ [CONFIG.googleSheetCSV].
Proof.
  unfold fetch.
  destruct (loaded st && (0 <? List.length (items st))%nat); [now left|].
  right. unfold request.
  now destruct (reply net (List.length (requested net))) as [|[] csvText].
Qed.

(** X30. A call of [fetch] asks the network at most once, and only for
    the configured address: over [n] calls the requests made are at most
    [n] requests of that address, whatever the answers (a failed request
    is not retried within the call). *)
Theorem fetch_requests_once_per_call n : forall st net,
  exists k,
    (k <= n)%nat
    /\ requested (snd (fetch_times n st net))
       = requested net ++ repeat CONFIG.googleSheetCSV k.
Proof.
  induction n as [|n IH]; intros st net.
  - exists O. split; [lia|]. cbn. now rewrite app_nil_r.
  - rewrite fetch_times_S. cbn [snd].
    destruct (IH (snd (fst (fetch st net))) (snd (fetch st net)))
      as [k [Hk Hr]].
    rewrite Hr. destruct (requested_fetch st net) as [-> | ->].
    + exists k. split; [lia|reflexivity].
    + exists (S k). split; [lia|]. now rewrite <- app_assoc.
Qed.

End CatalogFacts.

Module CatalogViewFacts.
Import Products CatalogSpec StringSpec JSStringFacts ImageLinkFacts.

(** *** [getById] *)

Lemma has_id_spec id p : has_id id p = true <-> p !! "id" = Some (VStr id).
Proof.
  unfold has_id. destruct (p !! "id") as [[n|s|l|b]|];
    try (split; [discriminate|congruence]).
  rewrite String.eqb_eq. split; congruence.
Qed.

Lemma find_first {A} (f : A -> bool) l :
  match List.find f l with
  | Some x =>
      exists i, l !! i = Some x /\ f x = true
                /\ forall j y, (j < i)%nat -> l !! j = Some y -> f y = false
  | None => forall y, In y l -> f y = false
  end.
Proof.
  induction l as [|a l IH]; cbn [List.find]; [intros y []|].
  destruct (f a) eqn:E.
  - exists O. split; [reflexivity|]. split; [exact E|]. intros j y Hj. lia.
  - destruct (List.find f l) as [x|].
    + destruct IH as [i [Hi [Hx Hfirst]]]. exists (S i).
      split; [exact Hi|]. split; [exact Hx|].
      intros [|j] y Hj Hy; cbn in Hy.
      * congruence.
      * apply (Hfirst j y); [lia|exact Hy].
    + intros y [<-|Hy]; [exact E|now apply IH].
Qed.

(** X11. [getById] returns the first product of the catalog whose id is
    the string asked for, and [null] only when no product has that id: of
    two rows of the feed with one id, the second is never returned. *)
Theorem getById_first_match st id :
  match getById id st with
  | Some p =>
      exists i,
        items st !! i = Some p /\ p !! "id" = Some (VStr id)
        /\ forall j q, (j < i)%nat -> items st !! j = Some q ->
                       q !! "id" <> Some (VStr id)
  | None => forall q, In q (items st) -> q !! "id" <> Some (VStr id)
  end.
Proof.
  unfold getById. pose proof (find_first (has_id id) (items st)) as H.
  destruct (List.find (has_id id) (items st)) as [p|].
  - destruct H as [i [Hi [Hp Hfirst]]]. exists i. split; [exact Hi|].
    split; [now apply has_id_spec|].
    intros j q Hj Hq Hid. apply has_id_spec in Hid.
    rewrite (Hfirst j q Hj Hq) in Hid. discriminate.
  - intros q Hq Hid. apply has_id_spec in Hid. rewrite (H q Hq) in Hid.
    discriminate.
Qed.

Lemma getById_first_match_witness :
  exists i,
    items tee_and_cap !! i
    = Some (demo_product "2" "Dad Cap" "Curved brim" 299 50 "Caps" [] []
              "cap.png" true)
    /\ demo_product "2" "Dad Cap" "Curved brim" 299 50 "Caps" [] []
         "cap.png" true !! "id" = Some (VStr "2")
    /\ forall j q, (j < i)%nat -> items tee_and_cap !! j = Some q ->
                   q !! "id" <> Some (VStr "2").
Proof. exact (getById_first_match tee_and_cap "2"). Defined.

(** *** Filters *)

Lemma filter_try_total {A} (f : A -> option bool) (g : A -> bool) l :
  Forall (fun x => f x = Some (g x)) l ->
  filter_try f l = Some (List.filter g l).
Proof.
  induction 1 as [|x l Hx _ IH]; [reflexivity|].
  cbn [filter_try List.filter]. rewrite Hx, IH. now destruct (g x).
Qed.

Lemma filter_try_Some {A} (f : A -> option bool) l : forall r,
  filter_try f l = Some r ->
  sublist r l /\ forall x, In x r <-> In x l /\ f x = Some true.
Proof.
  induction l as [|a l IH]; intros r; cbn [filter_try].
  - intros E. inversion E. split; [constructor|]. cbn. tauto.
  - destruct (f a) as [keep|] eqn:Ea; [|discriminate].
    destruct (filter_try f l) as [kept|]; [|discriminate].
    destruct (IH kept eq_refl) as [Hsub Hin].
    intros E. inversion E. subst r. destruct keep.
    + split; [now apply sublist_skip|].
      intros x. cbn [In]. rewrite Hin. split.
      * intros [<-|H]; tauto.
      * intros [[<-|H] Hx]; tauto.
    + split; [now apply sublist_cons|].
      intros x. rewrite Hin. cbn [In]. split; [tauto|].
      intros [[<-|H] Hx]; [congruence|tauto].
Qed.

Lemma well_formed_inv p :
  well_formed p = true ->
  (exists n, p !! "name" = Some (VStr n))
  /\ textual (p !! "description") = true
  /\ textual (p !! "category") = true.
Proof.
  unfold well_formed. intros H.
  repeat (apply andb_prop in H; destruct H as [H ?]).
  split; [|tauto].
  destruct (p !! "name") as [[n|s|l|b]|]; try discriminate. eauto.
Qed.

Lemma lower_test_textual test v :
  textual v = true ->
  lower_test test v
  = Some (match v with
          | Some (VStr s) => negb (is_empty s) && test (toLowerCase s)
          | _ => false
          end).
Proof.
  destruct v as [[n|s|l|b]|]; try discriminate; intros _; [|reflexivity].
  unfold lower_test. cbn [truthy]. now destruct (is_empty s).
Qed.

Lemma in_category_textual c p :
  textual (p !! "category") = true ->
  in_category c p
  = Some (match category_of p with
          | Some k => same_text k c
          | None => false
          end).
Proof.
  intros H. unfold in_category, category_of.
  rewrite lower_test_textual by exact H.
  destruct (p !! "category") as [[n|s|l|b]|]; try reflexivity.
  rewrite toLowerCase_same_text. now destruct (is_empty s).
Qed.

Lemma getByCategory_well_formed st c :
  Forall (fun p => well_formed p = true) (items st) ->
  c <> EmptyString -> c <> "all" ->
  getByCategory (Some c) st = Some (of_category c (items st)).
Proof.
  intros Hwf He Ha. unfold getByCategory.
  destruct c as [|x c]; [contradiction|]. cbn [is_empty orb].
  destruct (String.eqb_spec (String x c) "all") as [E|_]; [contradiction|].
  apply filter_try_total. eapply Forall_impl; [exact Hwf|].
  intros p Hp. apply in_category_textual. now apply well_formed_inv in Hp.
Qed.

Lemma of_category_same c c' l :
  same_text c c' = true -> of_category c l = of_category c' l.
Proof.
  intros H. unfold of_category. apply List.filter_ext. intros p.
  destruct (category_of p) as [k|]; [|reflexivity].
  rewrite <- !toLowerCase_same_text.
  apply same_text_lower in H. now rewrite H.
Qed.

(** X12. [getByCategory] returns the whole catalog for no category, the
    empty string or [all]. For any other name, on a catalog as [fetch]
    leaves it, it throws nothing and returns, in the order of the
    catalog, the products whose category is that name up to the case of
    its letters; two names that differ only in the case of their letters
    give the same products. The strings are strings of code units below
    256, where a capital and its small letter stand 32 code units
    apart. *)
Theorem getByCategory_filters st :
  getByCategory None st = Some (items st)
  /\ getByCategory (Some EmptyString) st = Some (items st)
  /\ getByCategory (Some "all") st = Some (items st)
  /\ (forall c,
        Forall (fun p => well_formed p = true) (items st) ->
        c <> EmptyString -> c <> "all" ->
        getByCategory (Some c) st = Some (of_category c (items st)))
  /\ (forall c c',
        Forall (fun p => well_formed p = true) (items st) ->
        c <> EmptyString -> c <> "all" ->
        c' <> EmptyString -> c' <> "all" ->
        same_text c c' = true ->
        getByCategory (Some c) st = getByCategory (Some c') st).
Proof.
  split; [reflexivity|]. split; [reflexivity|]. split; [reflexivity|].
  split; [intros c; apply getByCategory_well_formed|].
  intros c c' Hwf He Ha He' Ha' Hl.
  rewrite !getByCategory_well_formed by assumption.
  now rewrite (of_category_same c c').
Qed.

Lemma getByCategory_filters_witness :
  getByCategory (Some "CAPS") tee_and_cap
  = Some [demo_product "2" "Dad Cap" "Curved brim" 299 50 "Caps" [] []
            "cap.png" true]
  /\ getByCategory (Some "CAPS") tee_and_cap
     = getByCategory (Some "caps") tee_and_cap.
Proof.
  split.
  - exact (proj1 (proj2 (proj2 (proj2 (getByCategory_filters tee_and_cap))))
             "CAPS" ltac:(repeat constructor) ltac:(discriminate)
             ltac:(discriminate)).
  - apply (proj2 (proj2 (proj2 (proj2 (getByCategory_filters tee_and_cap)))));
      [repeat constructor|discriminate..|reflexivity].
Defined.

(** *** [getFeatured] *)

Lemma slice_to_nat {A} (n : nat) (l : list A) :
  slice_to (JSNumber.Int (Z.of_nat n)) l = take n l.
Proof.
  unfold slice_to, JSNumber.truncate. cbn [JSNumber.finite].
  change (JSNumber.pow10 0) with 1%Z. rewrite Z.quot_1_r.
  destruct (Z.ltb_spec (Z.of_nat n) 0); [lia|].
  destruct (Nat.le_gt_cases n (List.length l)) as [Hle|Hgt].
  - rewrite Z.min_l by lia. now rewrite Nat2Z.id.
  - rewrite Z.min_r by lia. rewrite Nat2Z.id.
    rewrite !take_ge by lia. reflexivity.
Qed.

(** X13. Asked for at most [n] products, [getFeatured] returns at most
    [n]: the first [n] products flagged as featured when the catalog has
    such a product, and the first [n] products of the catalog when it has
    none. Without a limit it returns at most 8. *)
Theorem getFeatured_limit st (n : nat) :
  let shown := getFeatured (Some (JSNumber.Int (Z.of_nat n))) st in
  (List.length shown <= n)%nat
  /\ (featured (items st) <> [] -> shown = take n (featured (items st)))
  /\ (featured (items st) = [] -> shown = take n (items st))
  /\ getFeatured None st = getFeatured (Some (JSNumber.Int 8)) st.
Proof.
  cbv zeta. unfold getFeatured. fold (featured (items st)).
  rewrite !slice_to_nat.
  split; [|split; [|split]].
  - destruct (0 <? List.length (featured (items st)))%nat;
      rewrite length_take; lia.
  - intros H. destruct (featured (items st)); [contradiction|reflexivity].
  - now intros ->.
  - reflexivity.
Qed.


Lemma getFeatured_limit_witness :
  getFeatured (Some (JSNumber.Int (Z.of_nat 1))) tee_and_cap
  = take 1 (featured (items tee_and_cap)).
Proof.
  apply (proj1 (proj2 (getFeatured_limit tee_and_cap 1))).
  vm_compute. discriminate.
Defined.

(** *** [search] *)

Lemma toLowerCase_append a b :
  toLowerCase (a +:+ b) = toLowerCase a +:+ toLowerCase b.
Proof.
  induction a as [|c a IH]; [now rewrite !append_empty_l|].
  rewrite append_cons. cbn [toLowerCase]. now rewrite append_cons, IH.
Qed.

Lemma length_toLowerCase s : String.length (toLowerCase s) = String.length s.
Proof. induction s as [|c s IH]; cbn; congruence. Qed.

Lemma includes_unfold s p :
  includes s p =
  match strip_prefix p s with
  | Some _ => true
  | None =>
      match s with
      | EmptyString => false
      | String _ s' => includes s' p
      end
  end.
Proof. destruct s; reflexivity. Qed.

Lemma includes_occurs a q b : includes (a +:+ q +:+ b) q = true.
Proof.
  induction a as [|c a IH].
  - rewrite append_empty_l, includes_unfold. now rewrite strip_prefix_app.
  - rewrite append_cons, includes_unfold.
    destruct (strip_prefix q (String c (a +:+ q +:+ b))); [reflexivity|].
    exact IH.
Qed.

Lemma filter_try_defined {A} (f : A -> option bool) l :
  Forall (fun x => exists b, f x = Some b) l ->
  exists r, filter_try f l = Some r.
Proof.
  induction 1 as [|x l [b Hx] _ [r IH]]; [now exists []|].
  cbn [filter_try]. rewrite Hx, IH. eauto.
Qed.

Lemma matches_defined q p :
  well_formed p = true -> exists b, matches q p = Some b.
Proof.
  intros H. apply well_formed_inv in H. destruct H as [[n Hn] [Hd Hc]].
  unfold matches. rewrite Hn.
  rewrite (lower_test_textual _ _ Hd), (lower_test_textual _ _ Hc).
  destruct (includes (toLowerCase n) q); cbn [or_else]; [eauto|].
  match goal with |- context [if ?b then _ else _] => destruct b end; eauto.
Qed.

Lemma search_well_formed st query :
  Forall (fun p => well_formed p = true) (items st) ->
  query <> EmptyString ->
  exists found,
    search (Some query) st = Some found /\ sublist found (items st)
    /\ forall p, In p found
                 <-> In p (items st)
                     /\ matches (toLowerCase query) p = Some true.
Proof.
  intros Hwf Hq. unfold search.
  destruct query as [|x query]; [contradiction|]. cbn [is_empty].
  destruct (filter_try_defined (matches (toLowerCase (String x query)))
              (items st)) as [found Hf].
  { eapply Forall_impl; [exact Hwf|]. intros p. apply matches_defined. }
  exists found. split; [exact Hf|]. now apply filter_try_Some.
Qed.

(** X14. [search] returns the whole catalog for no query and for the
    empty one. For any other query, on a catalog as [fetch] leaves it, it
    throws nothing and returns the matching products and no others, in
    the order of the catalog. *)
Theorem search_filters st :
  search None st = Some (items st)
  /\ search (Some EmptyString) st = Some (items st)
  /\ (forall query,
        Forall (fun p => well_formed p = true) (items st) ->
        query <> EmptyString ->
        exists found,
          search (Some query) st = Some found /\ sublist found (items st)
          /\ forall p, In p found
                       <-> In p (items st)
                           /\ matches (toLowerCase query) p = Some true).
Proof.
  split; [reflexivity|]. split; [reflexivity|].
  intros query. apply search_well_formed.
Qed.

Lemma search_filters_witness :
  exists found,
    search (Some "cap") tee_and_cap = Some found
    /\ sublist found (items tee_and_cap)
    /\ forall p, In p found
                 <-> In p (items tee_and_cap)
                     /\ matches (toLowerCase "cap") p = Some true.
Proof.
  apply (proj2 (proj2 (search_filters tee_and_cap)));
    [repeat constructor|discriminate].
Defined.

Lemma matches_text q p h before word after :
  well_formed p = true ->
  h = "name" \/ h = "description" \/ h = "category" ->
  p !! h = Some (VStr (before +:+ word +:+ after)) ->
  word <> EmptyString -> q = toLowerCase word ->
  matches q p = Some true.
Proof.
  intros Hwf Hh Hp Hw ->.
  pose proof (well_formed_inv _ Hwf) as [[n Hn] [Hd Hc]].
  assert (includes (toLowerCase (before +:+ word +:+ after))
                   (toLowerCase word) = true) as Hi
    by (rewrite !toLowerCase_append; apply includes_occurs).
  assert (is_empty (before +:+ word +:+ after) = false) as Hne.
  { destruct before; [|reflexivity]. rewrite append_empty_l.
    destruct word; [contradiction|reflexivity]. }
  unfold matches. rewrite Hn.
  rewrite (lower_test_textual _ _ Hd), (lower_test_textual _ _ Hc).
  destruct Hh as [->|[->| ->]].
  - rewrite Hn in Hp. inversion Hp. subst n. now rewrite Hi.
  - rewrite Hp, Hne, Hi. cbn [negb andb].
    destruct (includes (toLowerCase n) (toLowerCase word)); reflexivity.
  - rewrite Hp, Hne, Hi. cbn [negb andb].
    destruct (includes (toLowerCase n) (toLowerCase word));
      cbn [or_else]; [reflexivity|].
    match goal with |- context [if ?b then _ else _] => destruct b end;
      reflexivity.
Qed.

(** X15. On a catalog as [fetch] leaves it, a query that is, up to the
    case of its letters, a part of the name, of the description or of the
    category of a product finds that product. The strings are strings of
    code units below 256, which [toLowerCase] lower-cases one by one. *)
Theorem search_finds_text_in_any_case st query p h before word after :
  Forall (fun p => well_formed p = true) (items st) ->
  In p (items st) ->
  h = "name" \/ h = "description" \/ h = "category" ->
  p !! h = Some (VStr (before +:+ word +:+ after)) ->
  query <> EmptyString -> same_text query word = true ->
  exists found, search (Some query) st = Some found /\ In p found.
Proof.
  intros Hwf Hp Hh Hv Hq Hl. apply same_text_lower in Hl.
  destruct (search_well_formed st query Hwf Hq) as [found [Hs [_ Hin]]].
  exists found. split; [exact Hs|]. apply Hin. split; [exact Hp|].
  rewrite List.Forall_forall in Hwf.
  apply (matches_text _ p h before word after (Hwf p Hp) Hh Hv); [|exact Hl].
  intros ->. apply (f_equal String.length) in Hl.
  rewrite length_toLowerCase in Hl. destruct query; [contradiction|].
  discriminate.
Qed.

Lemma search_finds_text_in_any_case_witness :
  exists found,
    search (Some "DAD") tee_and_cap = Some found
    /\ In (demo_product "2" "Dad Cap" "Curved brim" 299 50 "Caps" [] []
             "cap.png" true) found.
Proof.
  apply (search_finds_text_in_any_case tee_and_cap "DAD" _ "name"
           EmptyString "Dad" " Cap").
  - repeat constructor.
  - right. left. reflexivity.
  - left. reflexivity.
  - reflexivity.
  - discriminate.
  - reflexivity.
Defined.

End CatalogViewFacts.

Module SortFacts.
Import JSNumber NumberSpec JSNumberFacts Products CatalogSpec.
Local Open Scope Z_scope.

(** *** The order of the numbers *)

Lemma leb_finite x y m1 d1 m2 d2 :
  finite x = Some (m1, d1) -> finite y = Some (m2, d2) ->
  leb x y = (m1 * pow10 d2 <=? m2 * pow10 d1).
Proof.
  destruct x, y; cbn; intros E1 E2; try discriminate;
    inversion E1; inversion E2; reflexivity.
Qed.

Lemma finite_cases x :
  (exists m d, finite x = Some (m, d))
  \/ x = NaN \/ x = Infinity \/ x = NegInfinity.
Proof. destruct x; cbn; eauto 6. Qed.

Lemma leb_total x y :
  x <> NaN -> y <> NaN -> leb x y = true \/ leb y x = true.
Proof.
  intros Hx Hy.
  destruct (finite_cases x) as [[m1 [d1 E1]]|[->|[->| ->]]];
    destruct (finite_cases y) as [[m2 [d2 E2]]|[->|[->| ->]]];
    try contradiction;
    try (rewrite (leb_finite _ _ _ _ _ _ E1 E2),
                 (leb_finite _ _ _ _ _ _ E2 E1);
         rewrite !Z.leb_le; lia);
    try (destruct x; try discriminate; cbn; tauto);
    try (destruct y; try discriminate; cbn; tauto);
    cbn; tauto.
Qed.

Lemma cross_trans m1 p1 m2 p2 m3 p3 :
  0 < p1 -> 0 < p2 -> 0 < p3 ->
  m1 * p2 <= m2 * p1 -> m2 * p3 <= m3 * p2 -> m1 * p3 <= m3 * p1.
Proof.
  intros H1 H2 H3 Ha Hb.
  apply (Z.mul_le_mono_pos_r _ _ p2 H2).
  apply Z.le_trans with (m2 * p1 * p3).
  - replace (m1 * p3 * p2) with (m1 * p2 * p3) by ring.
    apply Z.mul_le_mono_nonneg_r; lia.
  - replace (m2 * p1 * p3) with (m2 * p3 * p1) by ring.
    replace (m3 * p1 * p2) with (m3 * p2 * p1) by ring.
    apply Z.mul_le_mono_nonneg_r; lia.
Qed.

Lemma leb_trans x y z :
  leb x y = true -> leb y z = true -> leb x z = true.
Proof.
  destruct (finite_cases x) as [[m1 [d1 E1]]|[->|[->| ->]]];
    destruct (finite_cases y) as [[m2 [d2 E2]]|[->|[->| ->]]];
    destruct (finite_cases z) as [[m3 [d3 E3]]|[->|[->| ->]]];
    try (rewrite (leb_finite _ _ _ _ _ _ E1 E2),
                 (leb_finite _ _ _ _ _ _ E2 E3),
                 (leb_finite _ _ _ _ _ _ E1 E3);
         rewrite !Z.leb_le;
         apply cross_trans; apply pow10_pos);
    try (destruct x; try discriminate; cbn; congruence);
    try (destruct y; try discriminate; cbn; congruence);
    try (destruct z; try discriminate; cbn; congruence);
    try (destruct x, y; try discriminate; cbn; congruence);
    try (destruct y, z; try discriminate; cbn; congruence);
    try (destruct x, z; try discriminate; cbn; congruence);
    cbn; congruence.
Qed.

Lemma gtb_finite x m d :
  finite x = Some (m, d) -> gtb x (Int 0) = (0 <? m).
Proof.
  intros E. destruct x; try discriminate; inversion E; subst;
    unfold gtb; rewrite (leb_finite _ (Int 0) _ _ 0 O E eq_refl);
    change (pow10 0) with 1; rewrite Z.mul_1_r, Z.mul_0_l;
    now rewrite Z.ltb_antisym.
Qed.

Lemma gtb_decimal m d : gtb (decimal m d) (Int 0) = (0 <? m).
Proof.
  destruct (finite_decimal d m) as [m' [d' [E H]]].
  rewrite (gtb_finite _ _ _ E).
  pose proof (pow10_pos d). pose proof (pow10_pos d').
  destruct (Z.ltb_spec 0 m'), (Z.ltb_spec 0 m); try reflexivity; nia.
Qed.

Lemma gtb_sub x y :
  x <> NaN -> y <> NaN -> gtb (sub x y) (Int 0) = negb (leb x y).
Proof.
  intros Hx Hy.
  destruct (finite_cases x) as [[m1 [d1 E1]]|[->|[->| ->]]];
    destruct (finite_cases y) as [[m2 [d2 E2]]|[->|[->| ->]]];
    try contradiction; try reflexivity;
    try (destruct x; try discriminate; reflexivity);
    try (destruct y; try discriminate; reflexivity).
  rewrite (leb_finite _ _ _ _ _ _ E1 E2).
  assert (sub x y = decimal (m1 * pow10 d2 - m2 * pow10 d1) (d1 + d2)) as ->.
  { destruct x, y; try discriminate; cbn in E1, E2; inversion E1;
      inversion E2; reflexivity. }
  rewrite gtb_decimal.
  destruct (Z.ltb_spec 0 (m1 * pow10 d2 - m2 * pow10 d1)),
           (Z.leb_spec (m1 * pow10 d2) (m2 * pow10 d1));
    try reflexivity; lia.
Qed.

(** *** Sorting by insertion *)

Section Insertion.
Context {A : Type}.
Variable comparefn : A -> A -> number.
Variable le : A -> A -> bool.
Variable ok : A -> Prop.
Hypothesis comparefn_le : forall a b,
  ok a -> ok b -> gtb (comparefn a b) (Int 0) = negb (le a b).
Hypothesis le_total : forall a b,
  ok a -> ok b -> le a b = true \/ le b a = true.
Hypothesis le_trans : forall a b c,
  le a b = true -> le b c = true -> le a c = true.

Lemma insert_by_Permutation x l :
  Permutation (insert_by comparefn x l) (x :: l).
Proof.
  induction l as [|y l IH]; cbn [insert_by]; [reflexivity|].
  destruct (gtb (comparefn x y) (Int 0)); [|reflexivity].
  rewrite IH. apply perm_swap.
Qed.

Lemma sort_by_Permutation l : Permutation (sort_by comparefn l) l.
Proof.
  induction l as [|x l IH]; [reflexivity|]. cbn [sort_by fold_right].
  fold (sort_by comparefn l). rewrite insert_by_Permutation.
  now constructor.
Qed.

Lemma Forall_insert_by (P : A -> Prop) x l :
  P x -> Forall P l -> Forall P (insert_by comparefn x l).
Proof.
  intros Hx Hl. rewrite insert_by_Permutation. now constructor.
Qed.

Lemma Forall_sort_by (P : A -> Prop) l :
  Forall P l -> Forall P (sort_by comparefn l).
Proof. intros H. now rewrite sort_by_Permutation. Qed.

Lemma sorted_insert_by x l :
  ok x -> Forall ok l -> sorted_by le l ->
  sorted_by le (insert_by comparefn x l).
Proof.
  intros Hx. induction l as [|y l IH]; intros Hok Hs; cbn [insert_by].
  - cbn. split; [constructor|exact I].
  - inversion Hok as [|? ? Hy Hl]. subst. destruct Hs as [Hall Hs].
    rewrite (comparefn_le x y Hx Hy).
    destruct (le x y) eqn:E; cbn [negb].
    + cbn [sorted_by]. split; [|split; assumption].
      constructor; [exact E|].
      eapply Forall_impl; [exact Hall|]. intros z Hz. cbn beta in *.
      now apply (le_trans x y z).
    + cbn [sorted_by]. split; [|now apply IH].
      apply Forall_insert_by; [|exact Hall].
      destruct (le_total x y Hx Hy); congruence.
Qed.

Lemma sorted_sort_by l : Forall ok l -> sorted_by le (sort_by comparefn l).
Proof.
  induction l as [|x l IH]; intros Hok; [exact I|].
  inversion Hok as [|? ? Hx Hl]. subst. cbn [sort_by fold_right].
  fold (sort_by comparefn l).
  apply sorted_insert_by; [exact Hx|now apply Forall_sort_by|now apply IH].
Qed.

Variable same : A -> bool.
Hypothesis same_le : forall a b,
  same a = true -> same b = true -> le a b = true.

Lemma filter_insert_by x l :
  ok x -> Forall ok l ->
  List.filter same (insert_by comparefn x l) = List.filter same (x :: l).
Proof.
  intros Hx. induction l as [|y l IH]; intros Hok; [reflexivity|].
  inversion Hok as [|? ? Hy Hl]. subst. cbn [insert_by].
  rewrite (comparefn_le x y Hx Hy).
  destruct (le x y) eqn:E; cbn [negb]; [reflexivity|].
  cbn [List.filter] in *. rewrite (IH Hl).
  destruct (same x) eqn:Sx; [|reflexivity].
  destruct (same y) eqn:Sy; [|reflexivity].
  rewrite (same_le x y Sx Sy) in E. discriminate.
Qed.

Lemma filter_sort_by l :
  Forall ok l -> List.filter same (sort_by comparefn l) = List.filter same l.
Proof.
  induction l as [|x l IH]; intros Hok; [reflexivity|].
  inversion Hok as [|? ? Hx Hl]. subst. cbn [sort_by fold_right].
  fold (sort_by comparefn l).
  rewrite filter_insert_by by (try apply Forall_sort_by; assumption).
  cbn [List.filter]. now rewrite IH.
Qed.

End Insertion.


(** *** [sort] *)

Lemma priced_le {A} (price_of : A -> number) v a b :
  leb (price_of a) v && leb v (price_of a) = true ->
  leb (price_of b) v && leb v (price_of b) = true ->
  leb (price_of a) (price_of b) = true.
Proof.
  intros Ha Hb. apply andb_prop in Ha, Hb.
  apply (leb_trans _ v); tauto.
Qed.

Lemma sort_price_low {A} (price_of : A -> number) name_of localeCompare l :
  Forall (fun a => price_of a <> NaN) l ->
  Permutation (sort price_of name_of localeCompare l "price-low") l
  /\ ascending price_of (sort price_of name_of localeCompare l "price-low")
  /\ forall v,
       priced price_of v (sort price_of name_of localeCompare l "price-low")
       = priced price_of v l.
Proof.
  intros H. unfold sort. cbn [String.eqb Ascii.eqb Bool.eqb].
  split; [apply sort_by_Permutation|]. split.
  - apply (sorted_sort_by _ _ (fun a => price_of a <> NaN)).
    + intros a b Ha Hb. now apply gtb_sub.
    + intros a b Ha Hb. now apply leb_total.
    + intros a b c. apply leb_trans.
    + exact H.
  - intros v. unfold priced.
    apply (filter_sort_by _ (fun a b => leb (price_of a) (price_of b))
             (fun a => price_of a <> NaN)).
    + intros a b Ha Hb. now apply gtb_sub.
    + intros a b. apply priced_le.
    + exact H.
Qed.

Lemma sort_price_high {A} (price_of : A -> number) name_of localeCompare l :
  Forall (fun a => price_of a <> NaN) l ->
  Permutation (sort price_of name_of localeCompare l "price-high") l
  /\ descending price_of (sort price_of name_of localeCompare l "price-high")
  /\ forall v,
       priced price_of v (sort price_of name_of localeCompare l "price-high")
       = priced price_of v l.
Proof.
  intros H. unfold sort. cbn [String.eqb Ascii.eqb Bool.eqb].
  split; [apply sort_by_Permutation|]. split.
  - apply (sorted_sort_by _ _ (fun a => price_of a <> NaN)).
    + intros a b Ha Hb. now apply gtb_sub.
    + intros a b Ha Hb. now apply leb_total.
    + intros a b c Hab Hbc. now apply (leb_trans _ (price_of b)).
    + exact H.
  - intros v. unfold priced.
    apply (filter_sort_by _ (fun a b => leb (price_of b) (price_of a))
             (fun a => price_of a <> NaN)).
    + intros a b Ha Hb. now apply gtb_sub.
    + intros a b Ha Hb. now apply (priced_le price_of v b a).
    + exact H.
Qed.

(** X16. [sort] by [price-low] returns the elements of the list it is
    given, each as often as it is there, with prices that never go down;
    by [price-high], with prices that never go up; either way the
    elements of one price keep the order they had (the sort is stable).
    This holds when no price is [NaN]. Any [sortBy] other than
    [price-low], [price-high] and [name] returns the list in its order. *)
Theorem sort_orders_by_price {A} (price_of : A -> number)
    (name_of : A -> string) (localeCompare : string -> string -> number)
    (l : list A) :
  (forall sortBy,
     sortBy <> "price-low" -> sortBy <> "price-high" -> sortBy <> "name" ->
     sort price_of name_of localeCompare l sortBy = l) /\
  (Forall (fun a => price_of a <> NaN) l ->
   let low := sort price_of name_of localeCompare l "price-low" in
   let high := sort price_of name_of localeCompare l "price-high" in
   Permutation low l /\ ascending price_of low
   /\ (forall v, priced price_of v low = priced price_of v l)
   /\ Permutation high l /\ descending price_of high
   /\ (forall v, priced price_of v high = priced price_of v l)).
Proof.
  split.
  - intros sortBy H1 H2 H3. unfold sort.
    destruct (String.eqb_spec sortBy "price-low"); [contradiction|].
    destruct (String.eqb_spec sortBy "price-high"); [contradiction|].
    destruct (String.eqb_spec sortBy "name"); [contradiction|].
    reflexivity.
  - intros H. cbv zeta.
    destruct (sort_price_low price_of name_of localeCompare l H)
      as [L1 [L2 L3]].
    destruct (sort_price_high price_of name_of localeCompare l H)
      as [H1 [H2 H3]].
    tauto.
Qed.

Lemma sort_orders_by_price_witness :
  let price_of := fun n : number => n in
  let name_of := fun _ : number => EmptyString in
  let localeCompare := fun _ _ : string => Int 0 in
  let l := [Int 650; Int 450; Int 550] in
  let low := sort price_of name_of localeCompare l "price-low" in
  let high := sort price_of name_of localeCompare l "price-high" in
  Permutation low l /\ ascending price_of low
  /\ (forall v, priced price_of v low = priced price_of v l)
  /\ Permutation high l /\ descending price_of high
  /\ (forall v, priced price_of v high = priced price_of v l).
Proof.
  cbv zeta.
  apply (proj2 (sort_orders_by_price (fun n : number => n)
                  (fun _ => EmptyString) (fun _ _ => Int 0)
                  [Int 650; Int 450; Int 550])).
  repeat constructor; discriminate.
Defined.

End SortFacts.

Module CartStateFacts.
Import JSNumber NumberSpec JSNumberFacts JSON Cart CartSpec CartStateSpec
       CartExamples CartFacts StorageFacts.

(** *** What [save] and [toast] leave in place *)

Lemma save_fits w :
  fits (items w) w ->
  persisted (save w) /\ counted (save w) /\ toasts (save w) = toasts w.
Proof.
  intros H. split; [|split].
  - unfold persisted. rewrite items_save. now apply save_stores.
  - unfold counted, save, fits in *. apply Nat.leb_le in H.
    unfold setItem. rewrite H. cbn [updateCartCount badges].
    apply Forall_map. apply Forall_true. intros _. reflexivity.
  - unfold save, fits in *. apply Nat.leb_le in H.
    unfold setItem. now rewrite H.
Qed.

Lemma save_refused w : ~ fits (items w) w -> save w = w.
Proof.
  intros H. unfold save, setItem, fits in *.
  destruct (Nat.leb_spec (String.length STORAGE_KEY
                          + String.length (stringify_items (items w)))
                         (quota (localStorage w))); [contradiction|].
  reflexivity.
Qed.

Lemma toasts_save w : toasts (save w) = toasts w.
Proof.
  unfold save.
  now destruct (setItem STORAGE_KEY (stringify_items (items w))
                        (localStorage w)).
Qed.

Lemma synced_toast m t w :
  persisted w /\ counted w -> persisted (toast m t w) /\ counted (toast m t w).
Proof. intros H. exact H. Qed.

Lemma add_unfold p s c q w :
  snd (add p s c q w)
  = toast (product_name p +:+ " added to cart") "success"
      (save (set_items
               match findIndex (same_line p s c) (items w) 0 with
               | Some i => alter (add_quantity q) i (items w)
               | None => items w ++ [cartItem p s c q]
               end w)).
Proof.
  unfold add. cbn [snd].
  now destruct (findIndex (same_line p s c) (items w) 0).
Qed.

Lemma remove_unfold index w it :
  in_bounds index w -> items w !! Z.to_nat index = Some it ->
  remove index w
  = toast (name it +:+ " removed from cart") "success"
      (save (set_items (delete (Z.to_nat index) (items w)) w)).
Proof.
  intros Hb Hi. unfold remove. rewrite (bounds_check_true _ _ Hb).
  now rewrite Hi.
Qed.

Lemma synced_save_set_items l w :
  fits l w ->
  persisted (save (set_items l w)) /\ counted (save (set_items l w)).
Proof.
  intros H. destruct (save_fits (set_items l w)) as [H1 [H2 _]];
    [exact H|]. now split.
Qed.

Lemma in_bounds_dec index w : in_bounds index w \/ ~ in_bounds index w.
Proof. unfold in_bounds. lia. Qed.

Lemma mutation_synced op w :
  fits (items (perform w op)) w ->
  (persisted (perform w op) /\ counted (perform w op))
  \/ (perform w op = w
      /\ exists index,
           ~ in_bounds index w
           /\ (op = Remove index \/ exists q, op = UpdateQuantity index q)).
Proof.
  destruct op as [p s c q|index|index q|]; cbn [perform].
  - rewrite add_unfold. rewrite items_toast, items_save, items_set_items.
    intros H. left. apply synced_toast. now apply synced_save_set_items.
  - destruct (in_bounds_dec index w) as [Hb|Hb].
    + destruct (in_bounds_lookup _ _ Hb) as [it Hi].
      rewrite (remove_unfold _ _ _ Hb Hi).
      rewrite items_toast, items_save, items_set_items.
      intros H. left. apply synced_toast. now apply synced_save_set_items.
    + intros _. right. unfold remove. rewrite (bounds_check_false _ _ Hb).
      split; [reflexivity|]. exists index. tauto.
  - destruct (in_bounds_dec index w) as [Hb|Hb].
    + unfold updateQuantity. rewrite (bounds_check_true _ _ Hb).
      destruct (leb q (Int 0)).
      * destruct (in_bounds_lookup _ _ Hb) as [it Hi].
        rewrite (remove_unfold _ _ _ Hb Hi).
        rewrite items_toast, items_save, items_set_items.
        intros H. left. apply synced_toast.
        now apply synced_save_set_items.
      * rewrite items_save, items_set_items. intros H. left.
        now apply synced_save_set_items.
    + intros _. right. unfold updateQuantity.
      rewrite (bounds_check_false _ _ Hb).
      split; [reflexivity|]. exists index. eauto.
  - unfold clear. rewrite items_save, items_set_items. intros H. left.
    now apply synced_save_set_items.
Qed.

(** X17. When the storage has room for the cart an operation leaves, the
    operation ends with the text of the lines of the cart in the storage
    and the count of the cart on every badge. The one exception is a
    removal or an update at a position that holds no line, which changes
    nothing at all. *)
Theorem mutation_is_stored_and_counted op w :
  fits (items (perform w op)) w ->
  (persisted (perform w op) /\ counted (perform w op))
  \/ (perform w op = w
      /\ exists index,
           ~ in_bounds index w
           /\ (op = Remove index \/ exists q, op = UpdateQuantity index q)).
Proof. apply mutation_synced. Qed.

Lemma mutation_is_stored_and_counted_witness :
  let w := example_world [example_line "a" 100 10 2] in
  let op := Add example_product "L" "Navy" (Int 3) in
  (persisted (perform w op) /\ counted (perform w op))
  \/ (perform w op = w
      /\ exists index,
           ~ in_bounds index w
           /\ (op = Remove index \/ exists q, op = UpdateQuantity index q)).
Proof.
  apply (mutation_is_stored_and_counted
           (Add example_product "L" "Navy" (Int 3))
           (example_world [example_line "a" 100 10 2])).
  unfold fits. vm_compute. lia.
Defined.


(** *** Opening the page *)

Lemma parse_garbled saved : garbled saved -> parse saved = None.
Proof.
  unfold garbled, parse. cbn [read_value].
  destruct (skip_space saved) as [|c rest]; [reflexivity|].
  unfold begins_value. intros H.
  repeat (apply orb_false_elim in H; destruct H as [H ?]).
  assert (Ascii.eqb c "[" = false) as -> by assumption.
  assert (Ascii.eqb c "{" = false) as -> by assumption.
  assert (Ascii.eqb c JSString.dquote = false) as -> by assumption.
  assert (strip_prefix "null" (String c rest) = None) as ->.
  { cbn [strip_prefix]. rewrite Ascii.eqb_sym.
    now match goal with E : Ascii.eqb c "n" = false |- _ => rewrite E end. }
  assert (strip_prefix "true" (String c rest) = None) as ->.
  { cbn [strip_prefix]. rewrite Ascii.eqb_sym.
    now match goal with E : Ascii.eqb c "t" = false |- _ => rewrite E end. }
  assert (strip_prefix "false" (String c rest) = None) as ->.
  { cbn [strip_prefix]. rewrite Ascii.eqb_sym.
    now match goal with E : Ascii.eqb c "f" = false |- _ => rewrite E end. }
  assert (read_number (String c rest) = None) as ->; [|reflexivity].
  unfold read_number.
  match goal with E : Ascii.eqb c "-" = false |- _ => rewrite E end.
  cbn [take_digits]. destruct (digit_of c); [discriminate|reflexivity].
Qed.

(** X18. When the storage holds no cart, or a text that holds no JSON
    value (the empty text, white space, or a text whose first code unit
    begins no value), [init] starts the page with the empty cart and a
    count of 0 on every badge; it writes nothing to the storage and
    raises no notification. *)
Theorem init_without_a_stored_cart w :
  getItem STORAGE_KEY (localStorage w) = None
  \/ (exists saved,
        getItem STORAGE_KEY (localStorage w) = Some saved
        /\ garbled saved) ->
  items (init w) = []
  /\ badges (init w) = List.map (fun _ => Int 0) (badges w)
  /\ localStorage (init w) = localStorage w
  /\ toasts (init w) = toasts w.
Proof.
  intros H. assert (load w = set_items [] w) as E.
  { unfold load. destruct H as [->|[saved [-> Hp]]]; [reflexivity|].
    unfold parse_items. rewrite (parse_garbled _ Hp).
    now destruct (is_empty saved). }
  unfold init. rewrite E. repeat split.
Qed.

Lemma init_without_a_stored_cart_witness :
  let w :=
    {| items := [example_line "a" 100 10 2];
       localStorage :=
         {| entries := {[ STORAGE_KEY := "undefined" ]}; quota := 4096 |};
       badges := [Int 2];
       toasts := [] |} in
  items (init w) = []
  /\ badges (init w) = List.map (fun _ => Int 0) (badges w)
  /\ localStorage (init w) = localStorage w
  /\ toasts (init w) = toasts w.
Proof.
  apply (init_without_a_stored_cart
           {| items := [example_line "a" 100 10 2];
              localStorage :=
                {| entries := {[ STORAGE_KEY := "undefined" ]};
                   quota := 4096 |};
              badges := [Int 2];
              toasts := [] |}).
  right. exists "undefined". split; reflexivity.
Defined.

(** *** [add] *)

(** X20. When the storage refuses the text of the new cart, [add] still
    changes the cart in memory and raises its notification, but the
    storage and the badges stay as they were: a page opened later loads
    the cart as it was stored before. *)
Theorem add_survives_a_refused_write p s c q w :
  ~ fits (items (snd (add p s c q w))) w ->
  localStorage (snd (add p s c q w)) = localStorage w
  /\ badges (snd (add p s c q w)) = badges w
  /\ toasts (snd (add p s c q w))
     = toasts w ++ [(product_name p +:+ " added to cart", "success")]
  /\ items (snd (add p s c q w))
     = match findIndex (same_line p s c) (items w) 0 with
       | Some i => alter (add_quantity q) i (items w)
       | None => items w ++ [cartItem p s c q]
       end
  /\ items (load (reopened (snd (add p s c q w))))
     = items (load (reopened w)).
Proof.
  rewrite add_unfold, items_toast, items_save, items_set_items.
  intros H. rewrite save_refused by exact H.
  repeat split.
Qed.

Lemma add_survives_a_refused_write_witness :
  let w := cramped 20 [] in
  localStorage (snd (add example_product "L" "Navy" (Int 1) w))
  = localStorage w
  /\ badges (snd (add example_product "L" "Navy" (Int 1) w)) = badges w
  /\ toasts (snd (add example_product "L" "Navy" (Int 1) w))
     = toasts w ++ [("Classic Logo Tee" +:+ " added to cart", "success")]
  /\ items (snd (add example_product "L" "Navy" (Int 1) w))
     = match findIndex (same_line example_product "L" "Navy") (items w) 0 with
       | Some i => alter (add_quantity (Int 1)) i (items w)
       | None => items w ++ [cartItem example_product "L" "Navy" (Int 1)]
       end
  /\ items (load (reopened (snd (add example_product "L" "Navy" (Int 1) w))))
     = items (load (reopened w)).
Proof.
  apply (add_survives_a_refused_write example_product "L" "Navy" (Int 1)
           (cramped 20 [])).
  unfold fits. vm_compute. lia.
Defined.

(** *** Notifications *)

(** X21. [add] raises one notification, [<name> added to cart], whatever
    becomes of the write; [remove] at a position that holds a line raises
    one, [<name> removed from cart], with the name of the line at that
    position; an update to a quantity that is not [<= 0] and [clear]
    raise none. *)
Theorem notifications_of_the_cart :
  (forall p s c q w,
     toasts (snd (add p s c q w))
     = toasts w ++ [(product_name p +:+ " added to cart", "success")]) /\
  (forall index w it,
     in_bounds index w -> items w !! Z.to_nat index = Some it ->
     toasts (remove index w)
     = toasts w ++ [(name it +:+ " removed from cart", "success")]) /\
  (forall index q w,
     leb q (Int 0) = false -> toasts (updateQuantity index q w) = toasts w) /\
  (forall w, toasts (clear w) = toasts w).
Proof.
  split; [|split; [|split]].
  - intros p s c q w. rewrite add_unfold. cbn [toast toasts].
    now rewrite toasts_save.
  - intros index w it Hb Hi. rewrite (remove_unfold _ _ _ Hb Hi).
    cbn [toast toasts]. now rewrite toasts_save.
  - intros index q w Hq. unfold updateQuantity. rewrite Hq.
    destruct ((0 <=? index)%Z && (index <? Z.of_nat (List.length (items w)))%Z);
      [now rewrite toasts_save|reflexivity].
  - intros w. unfold clear. now rewrite toasts_save.
Qed.

Lemma notifications_of_the_cart_witness :
  let w := example_world [example_line "a" 100 10 2] in
  toasts (remove 0 w) = toasts w ++ [("a" +:+ " removed from cart", "success")]
  /\ toasts (updateQuantity 0 (Int 5) w) = toasts w.
Proof.
  split.
  - apply (proj1 (proj2 notifications_of_the_cart) 0%Z
             (example_world [example_line "a" 100 10 2])
             (example_line "a" 100 10 2)).
    + unfold in_bounds. cbn. lia.
    + reflexivity.
  - apply (proj1 (proj2 (proj2 notifications_of_the_cart))). reflexivity.
Defined.

(** *** The count of the cart *)

Lemma natural_quantities l :
  Forall (fun it => natural (quantity it)) l ->
  List.map (fun it => to_number (quantity it)) l
  = List.map Int (List.map (fun it => whole_of (quantity it)) l)
  /\ Forall (fun z => (0 <= z)%Z)
            (List.map (fun it => whole_of (quantity it)) l).
Proof.
  induction 1 as [|it l Hq _ [IH1 IH2]]; [split; [reflexivity|constructor]|].
  apply natural_to_number in Hq. destruct Hq as [Hq Hz].
  cbn [List.map]. rewrite Hq, IH1. split; [reflexivity|now constructor].
Qed.

Lemma count_natural w :
  Forall (fun it => natural (quantity it)) (items w) ->
  (units (items w) <= safe_integer)%Z ->
  getItemCount w = Int (units (items w)).
Proof.
  intros Hn Hs. destruct (natural_quantities _ Hn) as [Hm Hz].
  unfold getItemCount.
  rewrite (fold_left_sum (fun it => to_number (quantity it))), Hm.
  pose proof safe_integer_lt_huge as Hh. fold safe_integer in Hh.
  unfold units in Hs. rewrite fold_left_add_Int; [reflexivity|exact Hz|lia|lia].
Qed.

Lemma units_cons it l : units (it :: l) = (whole_of (quantity it) + units l)%Z.
Proof. reflexivity. Qed.

Lemma units_nonneg l :
  Forall (fun it => natural (quantity it)) l -> (0 <= units l)%Z.
Proof. intros H. now apply Z_sum_nonneg, natural_quantities. Qed.

Lemma units_app l it : units (l ++ [it]) = (units l + whole_of (quantity it))%Z.
Proof.
  induction l as [|a l IH]; cbn [app]; rewrite ?units_cons.
  - change (units []) with 0%Z. lia.
  - rewrite IH. lia.
Qed.

Lemma units_alter (g : item -> item) k l : forall i it,
  l !! i = Some it ->
  whole_of (quantity (g it)) = (whole_of (quantity it) + k)%Z ->
  units (alter g i l) = (units l + k)%Z.
Proof.
  induction l as [|a l IH]; intros [|i] it Hi Hg; try discriminate;
    cbn in Hi.
  - inversion Hi. subst a. change (alter g 0 (it :: l)) with (g it :: l).
    rewrite !units_cons, Hg. lia.
  - change (alter g (S i) (a :: l)) with (a :: alter g i l).
    rewrite !units_cons, (IH i it Hi Hg). lia.
Qed.

Lemma units_delete l : forall i it,
  l !! i = Some it ->
  units (delete i l) = (units l - whole_of (quantity it))%Z.
Proof.
  induction l as [|a l IH]; intros [|i] it Hi; try discriminate; cbn in Hi.
  - inversion Hi. subst a. change (delete 0 (it :: l)) with l.
    rewrite units_cons. lia.
  - change (delete (S i) (a :: l)) with (a :: delete i l).
    rewrite !units_cons, (IH i it Hi). lia.
Qed.

Lemma units_lookup l : forall i it,
  Forall (fun it => natural (quantity it)) l -> l !! i = Some it ->
  (0 <= whole_of (quantity it) <= units l)%Z.
Proof.
  induction l as [|a l IH]; intros [|i] it Hn Hi; try discriminate;
    cbn in Hi; inversion Hn as [|? ? Ha Hl]; subst;
    pose proof (units_nonneg l Hl) as Hp;
    apply natural_to_number in Ha; rewrite units_cons.
  - inversion Hi. subst a. lia.
  - pose proof (IH i it Hl Hi). lia.
Qed.

Lemma natural_add_quantity k it :
  natural (quantity it) -> (0 <= k)%Z ->
  (whole_of (quantity it) + k < huge)%Z ->
  quantity (add_quantity (Int k) it)
  = Num (Int (whole_of (quantity it) + k)).
Proof.
  intros Hq Hk Hb. apply natural_to_number in Hq. destruct Hq as [Hq Hz].
  cbn [add_quantity quantity]. rewrite Hq, add_Int by lia. reflexivity.
Qed.

(** X22. In a cart whose quantities are natural numbers, adding a natural
    number [k] of units of a product raises the count of the cart by [k],
    whether the product gets a line of its own or joins a line that was
    there, as long as the new count is a safe integer (at most [2 ^ 53]):
    the count before is the integer sum of the quantities, and the count
    after is that sum plus [k]. *)
Theorem add_raises_the_count p s c (k : Z) w :
  Forall (fun it => natural (quantity it)) (items w) ->
  (0 <= k)%Z -> (units (items w) + k <= safe_integer)%Z ->
  getItemCount w = Int (units (items w))
  /\ getItemCount (snd (add p s c (Int k) w)) = Int (units (items w) + k)
  /\ getItemCount (snd (add p s c (Int k) w))
     = JSNumber.add (getItemCount w) (Int k).
Proof.
  intros Hn Hk Hs.
  pose proof safe_integer_lt_huge as Hh. fold safe_integer in Hh.
  pose proof (units_nonneg _ Hn) as Hp.
  assert (getItemCount w = Int (units (items w))) as E1
    by (apply count_natural; [exact Hn|lia]).
  assert (getItemCount (snd (add p s c (Int k) w))
          = Int (units (items w) + k)) as E2.
  { assert (Forall (fun it => natural (quantity it))
                   (items (snd (add p s c (Int k) w)))
            /\ units (items (snd (add p s c (Int k) w)))
               = (units (items w) + k)%Z) as [Hn' Hu].
    { rewrite items_add.
      destruct (findIndex (same_line p s c) (items w) 0) as [i|] eqn:E.
      - apply findIndex_Some in E. destruct E as [j [x [-> [Hx _]]]].
        cbn [Nat.add].
        pose proof (units_lookup _ _ _ Hn Hx) as Hz.
        assert (natural (quantity x)) as Hxq.
        { rewrite List.Forall_forall in Hn. apply Hn.
          apply list_elem_of_In. eapply list_elem_of_lookup_2. exact Hx. }
        pose proof (natural_add_quantity k x Hxq Hk ltac:(lia)) as Hq.
        split.
        + apply Forall_alter; [exact Hn|]. intros y Hy _.
          rewrite Hx in Hy. inversion Hy. subst y.
          exists (whole_of (quantity x) + k)%Z. split; [exact Hq|lia].
        + apply (units_alter _ k _ j x Hx). now rewrite Hq.
      - split.
        + apply Forall_app. split; [exact Hn|]. constructor; [|constructor].
          exists k. now split.
        + now rewrite units_app. }
    rewrite <- Hu. apply count_natural; [exact Hn'|]. rewrite Hu. lia. }
  split; [exact E1|]. split; [exact E2|].
  rewrite E2, E1. symmetry. apply add_Int. lia.
Qed.

Lemma add_raises_the_count_witness :
  let w := example_world [example_line "a" 100 10 2] in
  getItemCount w = Int (units (items w))
  /\ getItemCount (snd (add example_product "M" "Black" (Int 3) w))
     = Int (units (items w) + 3)
  /\ getItemCount (snd (add example_product "M" "Black" (Int 3) w))
     = JSNumber.add (getItemCount w) (Int 3).
Proof.
  apply (add_raises_the_count example_product "M" "Black" 3
           (example_world [example_line "a" 100 10 2])).
  - repeat constructor. exists 2%Z. split; [reflexivity|lia].
  - lia.
  - vm_compute. discriminate.
Defined.

(** X23. In a cart whose quantities are natural numbers and whose count
    is a safe integer (at most [2 ^ 53]), removing the line at a position
    lowers the count of the cart by the quantity of that line, and so
    does updating that line to a quantity [<= 0]. *)
Theorem remove_lowers_the_count index w it :
  Forall (fun it => natural (quantity it)) (items w) ->
  (units (items w) <= safe_integer)%Z ->
  in_bounds index w -> items w !! Z.to_nat index = Some it ->
  getItemCount (remove index w)
  = Int (units (items w) - whole_of (quantity it))
  /\ JSNumber.add (getItemCount (remove index w)) (to_number (quantity it))
     = getItemCount w
  /\ forall q,
       leb q (Int 0) = true ->
       getItemCount (updateQuantity index q w)
       = getItemCount (remove index w).
Proof.
  intros Hn Hs Hb Hi.
  pose proof safe_integer_lt_huge as Hh. fold safe_integer in Hh.
  pose proof (units_lookup _ _ _ Hn Hi) as Hz.
  assert (getItemCount (remove index w)
          = Int (units (items w) - whole_of (quantity it))) as E.
  { rewrite <- (units_delete _ _ _ Hi), <- (items_remove _ _ Hb).
    apply count_natural; rewrite (items_remove _ _ Hb).
    - now apply Forall_delete.
    - rewrite (units_delete _ _ _ Hi). lia. }
  split; [exact E|]. split.
  - rewrite E, (count_natural w Hn Hs).
    assert (natural (quantity it)) as Hq.
    { rewrite List.Forall_forall in Hn. apply Hn.
      apply list_elem_of_In. eapply list_elem_of_lookup_2. exact Hi. }
    apply natural_to_number in Hq. destruct Hq as [-> _].
    rewrite add_Int by lia. f_equal. lia.
  - intros q Hq. unfold updateQuantity.
    now rewrite (bounds_check_true _ _ Hb), Hq.
Qed.

Lemma remove_lowers_the_count_witness :
  let w := example_world [example_line "a" 100 10 2; example_line "b" 50 5 1] in
  getItemCount (remove 0 w) = Int (units (items w) - 2)
  /\ JSNumber.add (getItemCount (remove 0 w)) (Int 2) = getItemCount w
  /\ forall q,
       leb q (Int 0) = true ->
       getItemCount (updateQuantity 0 q w) = getItemCount (remove 0 w).
Proof.
  apply (remove_lowers_the_count 0
           (example_world [example_line "a" 100 10 2; example_line "b" 50 5 1])
           (example_line "a" 100 10 2)).
  - repeat constructor; eexists; (split; [reflexivity|lia]).
  - vm_compute. discriminate.
  - unfold in_bounds. cbn. lia.
  - reflexivity.
Defined.

(** *** [clear] *)

(** X24. [clear] leaves the empty cart in memory, with a total of 0, and
    raises no notification. When the storage has room for the two code
    units of the text of the empty list, the storage then holds that
    text, every badge shows 0, and a page opened later starts with the
    empty cart; when it has not, the storage keeps the cart it held. *)
Theorem clear_empties_the_cart w :
  items (clear w) = [] /\ isEmpty (clear w) = true
  /\ getItemCount (clear w) = Int 0 /\ getTotal (clear w) = Int 0
  /\ toasts (clear w) = toasts w
  /\ (fits [] w ->
      getItem STORAGE_KEY (localStorage (clear w)) = Some "[]"
      /\ badges (clear w) = List.map (fun _ => Int 0) (badges w)
      /\ items (load (reopened (clear w))) = [])
  /\ (~ fits [] w -> localStorage (clear w) = localStorage w).
Proof.
  assert (items (clear w) = []) as E
    by (unfold clear; now rewrite items_save).
  split; [exact E|].
  split; [unfold isEmpty; now rewrite E|].
  split; [unfold getItemCount; now rewrite E|].
  split; [unfold getTotal, getSubtotal, getShipping; now rewrite E|].
  split; [unfold clear; now rewrite toasts_save|].
  split.
  - intros H. unfold clear.
    pose proof (save_stores (set_items [] w) H) as Hs.
    split; [exact Hs|]. split.
    + unfold save, setItem. unfold fits in H. apply Nat.leb_le in H.
      cbn [set_items items localStorage]. now rewrite H.
    + apply (load_stored []); [reflexivity|exact Hs].
  - intros H. unfold clear. now rewrite save_refused.
Qed.

Lemma clear_empties_the_cart_witness :
  let w := example_world [example_line "a" 100 10 2] in
  getItem STORAGE_KEY (localStorage (clear w)) = Some "[]"
  /\ badges (clear w) = List.map (fun _ => Int 0) (badges w)
  /\ items (load (reopened (clear w))) = [].
Proof.
  apply (proj1 (proj2 (proj2 (proj2 (proj2 (proj2
           (clear_empties_the_cart
              (example_world [example_line "a" 100 10 2])))))))).
  unfold fits. vm_compute. lia.
Defined.

(** *** Reloading the page *)

(** X25. Take a cart whose text is in the storage, and any operation.
    When the storage has room for the cart the operation leaves, and the
    prices, shippings and quantities of that cart are finite numbers or
    [null], a page opened afterwards on the same storage loads exactly
    the lines of that cart. (A quantity that an addition has pushed to
    [Infinity] is not finite: it is stored as [null].) *)
Theorem mutation_survives_a_reload op w :
  persisted w -> fits (items (perform w op)) w ->
  forallb storable (items (perform w op)) = true ->
  items (load (reopened (perform w op))) = items (perform w op).
Proof.
  intros Hp Hfit Hs.
  apply load_stored; [exact Hs|].
  cbn [reopened localStorage].
  destruct (mutation_synced op w Hfit) as [[H _]|[-> _]]; [exact H|exact Hp].
Qed.

Lemma mutation_survives_a_reload_witness :
  let w := save (example_world two_lines) in
  let op := Add example_product "L" "Navy" (Int 4) in
  items (load (reopened (perform w op))) = items (perform w op).
Proof.
  apply (mutation_survives_a_reload (Add example_product "L" "Navy" (Int 4))
           (save (example_world two_lines))).
  - reflexivity.
  - unfold fits. vm_compute. lia.
  - vm_compute. reflexivity.
Defined.

(** *** The order *)

Lemma fold_left_map {A B C} (f : C -> B -> C) (g : A -> B) l : forall c,
  fold_left f (List.map g l) c = fold_left (fun c a => f c (g a)) l c.
Proof. induction l as [|a l IH]; intros c; [reflexivity|]. apply IH. Qed.

(** X26. The subtotal of an order is what its own lines come to, price
    times quantity, added up from the first line on; the total is the
    subtotal plus the shipping; the currency is ZAR, and the customer and
    the time are the ones handed in. *)
Theorem order_agrees_with_its_lines (C : Type) (customerInfo : C) now w :
  let o := fst (prepareOrderData customerInfo now w) in
  subtotal o
  = fold_left (fun sub l => JSNumber.add sub (order_line_price l))
              (order_items o) (Int 0)
  /\ total o = JSNumber.add (subtotal o) (order_shipping o)
  /\ currency o = "ZAR" /\ customer o = customerInfo /\ timestamp o = now.
Proof.
  cbv zeta. unfold prepareOrderData. cbn [fst subtotal total order_items
    order_shipping currency customer timestamp].
  split; [|repeat split].
  unfold getSubtotal. now rewrite fold_left_map.
Qed.

End CartStateFacts.

Module ImageLinkShapeFacts.
Import Products CatalogSpec JSStringFacts ImageLinkFacts.

(** *** Where an identifier comes from *)

Lemma strip_prefix_Some p : forall s rest,
  strip_prefix p s = Some rest -> s = p +:+ rest.
Proof.
  induction p as [|a p IH]; intros s rest; cbn [strip_prefix].
  - intros E. inversion E. now rewrite append_empty_l.
  - destruct s as [|b s]; [discriminate|].
    destruct (Ascii.eqb_spec a b) as [->|_]; [|discriminate].
    intros E. rewrite append_cons. f_equal. now apply IH.
Qed.

Lemma take_until_split stop s : exists rest, s = take_until stop s +:+ rest.
Proof.
  induction s as [|c s [rest IH]]; cbn [take_until].
  - exists EmptyString. reflexivity.
  - destruct (Ascii.eqb c stop).
    + exists (String c s). now rewrite append_empty_l.
    + exists rest. rewrite append_cons. now f_equal.
Qed.

Lemma group_until_Some stop s g :
  group_until stop s = Some g ->
  g <> EmptyString /\ exists rest, s = g +:+ rest.
Proof.
  unfold group_until. destruct (is_empty (take_until stop s)) eqn:E;
    [discriminate|].
  intros H. inversion H. subst g. split.
  - intros H0. rewrite H0 in E. discriminate.
  - apply take_until_split.
Qed.

Lemma occurs_in_cons t c s : occurs_in t s -> occurs_in t (String c s).
Proof.
  intros [before [after ->]]. exists (String c before), after.
  now rewrite append_cons.
Qed.

Lemma occurs_in_append p t s : occurs_in t s -> occurs_in t (p +:+ s).
Proof.
  intros [before [after ->]]. exists (p +:+ before), after.
  now rewrite append_assoc.
Qed.

Lemma occurs_in_head g rest : occurs_in g (g +:+ rest).
Proof. exists EmptyString, rest. now rewrite append_empty_l. Qed.

Lemma prefixed_group_occurs p stop s g :
  match strip_prefix p s with
  | Some rest => group_until stop rest
  | None => None
  end = Some g ->
  g <> EmptyString /\ occurs_in g s.
Proof.
  destruct (strip_prefix p s) as [rest|] eqn:E; [|discriminate].
  intros H. apply group_until_Some in H. destruct H as [Hg [rest' ->]].
  split; [exact Hg|]. rewrite (strip_prefix_Some _ _ _ E).
  apply occurs_in_append, occurs_in_head.
Qed.

Lemma fileMatch_occurs url : forall g,
  fileMatch url = Some g -> g <> EmptyString /\ occurs_in g url.
Proof.
  induction url as [|c url IH]; intros g; rewrite fileMatch_unfold.
  - cbn. discriminate.
  - destruct (match strip_prefix "/file/d/" (String c url) with
              | Some rest => group_until slash rest
              | None => None
              end) as [g'|] eqn:E.
    + intros H. inversion H. subst g'.
      now apply (prefixed_group_occurs "/file/d/" slash).
    + intros H. destruct (IH g H) as [Hg Ho]. split; [exact Hg|].
      now apply occurs_in_cons.
Qed.

Lemma openMatch_occurs url : forall g,
  openMatch url = Some g -> g <> EmptyString /\ occurs_in g url.
Proof.
  induction url as [|c url IH]; intros g; cbn [openMatch]; [discriminate|].
  destruct (if Ascii.eqb c "?" || Ascii.eqb c ampersand
            then match strip_prefix "id=" url with
                 | Some rest => group_until ampersand rest
                 | None => None
                 end
            else None) as [g'|] eqn:E.
  - intros H. inversion H. subst g'.
    destruct (Ascii.eqb c "?" || Ascii.eqb c ampersand); [|discriminate].
    destruct (prefixed_group_occurs "id=" ampersand url g E) as [Hg Ho].
    split; [exact Hg|]. now apply occurs_in_cons.
  - intros H. destruct (IH g H) as [Hg Ho]. split; [exact Hg|].
    now apply occurs_in_cons.
Qed.

Lemma greedy_id_occurs s : forall g,
  greedy_id s = Some g -> g <> EmptyString /\ occurs_in g s.
Proof.
  induction s as [|c s IH]; intros g; cbn [greedy_id]; [discriminate|].
  destruct (if is_line_terminator c then None else greedy_id s) as [g'|] eqn:E.
  - intros H. inversion H. subst g'.
    destruct (is_line_terminator c); [discriminate|].
    destruct (IH g E) as [Hg Ho]. split; [exact Hg|].
    now apply occurs_in_cons.
  - now apply (prefixed_group_occurs "id=" ampersand).
Qed.

Lemma ucMatch_unfold url :
  ucMatch url =
  match match strip_prefix "/uc?" url with
        | Some rest => greedy_id rest
        | None => None
        end, url with
  | Some g, _ => Some g
  | None, String _ url' => ucMatch url'
  | None, EmptyString => None
  end.
Proof. destruct url; reflexivity. Qed.

Lemma ucMatch_occurs url : forall g,
  ucMatch url = Some g -> g <> EmptyString /\ occurs_in g url.
Proof.
  induction url as [|c url IH]; intros g; rewrite ucMatch_unfold.
  - cbn. discriminate.
  - destruct (strip_prefix "/uc?" (String c url)) as [rest|] eqn:E.
    + destruct (greedy_id rest) as [g'|] eqn:Eg.
      * intros H. inversion H. subst g'.
        destruct (greedy_id_occurs rest g Eg) as [Hg Ho].
        split; [exact Hg|]. rewrite (strip_prefix_Some _ _ _ E).
        now apply occurs_in_append.
      * intros H. destruct (IH g H) as [Hg Ho]. split; [exact Hg|].
        now apply occurs_in_cons.
    + intros H. destruct (IH g H) as [Hg Ho]. split; [exact Hg|].
      now apply occurs_in_cons.
Qed.

(** X27. [convertGoogleDriveUrl] returns either the reference it was
    given or the thumbnail address of an identifier; such an identifier is
    never empty and always a part of the reference, and only a reference
    that names [drive.google.com] is ever rewritten. *)
Theorem convertGoogleDriveUrl_result url :
  convertGoogleDriveUrl url = url
  \/ exists id,
       id <> EmptyString /\ occurs_in id url
       /\ includes url "drive.google.com" = true
       /\ convertGoogleDriveUrl url = thumbnail id.
Proof.
  unfold convertGoogleDriveUrl.
  destruct url as [|c url]; [now left|]. cbn [is_empty].
  destruct (includes (String c url) "drive.google.com"); [|now left].
  cbn [negb].
  assert (forall m fileId,
            (forall g, m = Some g ->
                       g <> EmptyString /\ occurs_in g (String c url)) ->
            (forall g, fileId = Some g ->
                       g <> EmptyString /\ occurs_in g (String c url)) ->
            forall g, or_keep m fileId = Some g ->
                      g <> EmptyString /\ occurs_in g (String c url)) as Hk.
  { intros [g'|] fileId Hm Hf g; cbn [or_keep]; [apply Hm|apply Hf]. }
  pose proof (Hk _ _ (ucMatch_occurs (String c url))
                (Hk _ _ (openMatch_occurs (String c url))
                   (Hk _ None (fileMatch_occurs (String c url))
                      ltac:(discriminate)))) as H.
  destruct (or_keep (ucMatch (String c url))
              (or_keep (openMatch (String c url))
                 (or_keep (fileMatch (String c url)) None))) as [id|];
    [|now left].
  destruct (H id eq_refl) as [Hid Ho].
  destruct id as [|x id]; [contradiction|]. cbn [is_empty].
  right. exists (String x id). tauto.
Qed.


(** *** Links with an [id] parameter *)

Lemma take_until_all stop g : ~ has_char stop g -> take_until stop g = g.
Proof.
  induction g as [|c g IH]; intros H; [reflexivity|]. cbn [take_until].
  rewrite has_char_cons in H.
  destruct (Ascii.eqb_spec c stop) as [->|_]; [tauto|].
  rewrite IH by tauto. reflexivity.
Qed.

Lemma group_until_ident stop ident post :
  ident <> EmptyString -> ~ has_char stop ident ->
  post = EmptyString \/ (exists rest, post = String stop rest) ->
  group_until stop (ident +:+ post) = Some ident.
Proof.
  intros Hne Hc Hpost. unfold group_until.
  assert (take_until stop (ident +:+ post) = ident) as ->.
  { destruct Hpost as [->|[rest ->]].
    - rewrite append_empty_r. now apply take_until_all.
    - now apply take_until_stop. }
  destruct ident; [contradiction|reflexivity].
Qed.

Lemma openMatch_skip pre s :
  ~ has_char "?" pre -> ~ has_char ampersand pre ->
  openMatch (pre +:+ s) = openMatch s.
Proof.
  induction pre as [|c pre IH]; intros Hq Ha; [now rewrite append_empty_l|].
  rewrite append_cons. cbn [openMatch]. rewrite has_char_cons in Hq, Ha.
  destruct (Ascii.eqb_spec c "?") as [->|_]; [tauto|].
  destruct (Ascii.eqb_spec c ampersand) as [->|_]; [tauto|].
  cbn [orb]. apply IH; tauto.
Qed.

Lemma openMatch_here c ident post :
  c = "?"%char \/ c = ampersand ->
  ident <> EmptyString -> ~ has_char ampersand ident ->
  post = EmptyString \/ (exists rest, post = String ampersand rest) ->
  openMatch (String c ("id=" +:+ ident +:+ post)) = Some ident.
Proof.
  intros Hc Hne Ha Hpost. cbn [openMatch].
  assert (Ascii.eqb c "?" || Ascii.eqb c ampersand = true) as ->
    by (destruct Hc as [-> | ->]; reflexivity).
  rewrite strip_prefix_app.
  now rewrite (group_until_ident ampersand ident post Hne Ha Hpost).
Qed.

Lemma includes_not_empty url p :
  includes url p = true -> p <> EmptyString -> is_empty url = false.
Proof.
  destruct url; [|reflexivity]. destruct p; [contradiction|discriminate].
Qed.

Lemma convert_id_parameter url ident :
  includes url "drive.google.com" = true ->
  openMatch url = Some ident -> ident <> EmptyString -> ucMatch url = None ->
  convertGoogleDriveUrl url = thumbnail ident.
Proof.
  intros Hi Ho Hne Hu. unfold convertGoogleDriveUrl.
  rewrite (includes_not_empty _ _ Hi) by discriminate.
  rewrite Hi, Ho, Hu. cbn [negb or_keep].
  destruct ident; [contradiction|reflexivity].
Qed.

(** X28. A link to [drive.google.com] that carries the identifier in its
    first parameter [id] (as the links [.../open?id=ABC123] do), and that
    has no part [/uc?... id=...], is rewritten to the thumbnail address
    of that identifier; the identifier ends at the next [&] or at the end
    of the link. *)
Theorem convertGoogleDriveUrl_id_parameter pre c ident post :
  includes (pre +:+ String c ("id=" +:+ ident +:+ post))
           "drive.google.com" = true ->
  ~ has_char "?" pre -> ~ has_char ampersand pre ->
  c = "?"%char \/ c = ampersand ->
  ident <> EmptyString -> ~ has_char ampersand ident ->
  post = EmptyString \/ (exists rest, post = String ampersand rest) ->
  ucMatch (pre +:+ String c ("id=" +:+ ident +:+ post)) = None ->
  convertGoogleDriveUrl (pre +:+ String c ("id=" +:+ ident +:+ post))
  = thumbnail ident.
Proof.
  intros Hi Hq Ha Hc Hne Hamp Hpost Hu.
  apply convert_id_parameter; try assumption.
  rewrite openMatch_skip by assumption. now apply openMatch_here.
Qed.

Lemma convertGoogleDriveUrl_id_parameter_witness :
  convertGoogleDriveUrl
    ("https://drive.google.com/open"
     +:+ String "?" ("id=" +:+ "ABC123" +:+ "&usp=sharing"))
  = thumbnail "ABC123".
Proof.
  apply convertGoogleDriveUrl_id_parameter.
  - reflexivity.
  - unfold has_char. cbn. intuition discriminate.
  - unfold has_char. cbn. intuition discriminate.
  - left. reflexivity.
  - discriminate.
  - unfold has_char. cbn. intuition discriminate.
  - right. eexists. reflexivity.
  - reflexivity.
Defined.

(** *** Links that are already thumbnails *)

Lemma ucMatch_no_question s : ~ has_char "?" s -> ucMatch s = None.
Proof.
  induction s as [|c s IH]; intros H; rewrite ucMatch_unfold; [reflexivity|].
  destruct (strip_prefix "/uc?" (String c s)) as [rest|] eqn:E.
  - exfalso. apply H. apply strip_prefix_Some in E. rewrite E.
    unfold has_char. rewrite chars_append. apply in_or_app. left.
    cbn. tauto.
  - apply IH. intros Hc. apply H. apply has_char_cons. tauto.
Qed.

Lemma ucMatch_step c s :
  strip_prefix "/uc?" (String c s) = None ->
  ucMatch (String c s) = ucMatch s.
Proof. intros E. rewrite ucMatch_unfold. now rewrite E. Qed.

Lemma thumbnail_chars id :
  thumbnail id
  = "https://drive.google.com/thumbnail"
    +:+ String "?" ("id=" +:+ id +:+ "&sz=w800").
Proof. reflexivity. Qed.

(** X29. The thumbnail address of an identifier that holds neither [&]
    nor [?] is left as it is: converting a link a second time changes
    nothing. *)
Theorem convertGoogleDriveUrl_thumbnail_fixed id :
  id <> EmptyString -> ~ has_char ampersand id -> ~ has_char "?" id ->
  convertGoogleDriveUrl (thumbnail id) = thumbnail id.
Proof.
  intros Hne Ha Hq. rewrite thumbnail_chars at 1.
  apply convert_id_parameter.
  - change ("https://drive.google.com/thumbnail"
            +:+ String "?" ("id=" +:+ id +:+ "&sz=w800"))
      with ("https://" +:+ "drive.google.com"
            +:+ ("/thumbnail?id=" +:+ id +:+ "&sz=w800")).
    apply CatalogViewFacts.includes_occurs.
  - rewrite openMatch_skip.
    + apply openMatch_here; [now left|assumption..|].
      right. eexists. reflexivity.
    + unfold has_char. cbn. intuition discriminate.
    + unfold has_char. cbn. intuition discriminate.
  - exact Hne.
  - change ("https://drive.google.com/thumbnail"
            +:+ String "?" ("id=" +:+ id +:+ "&sz=w800"))
      with (String "h" (String "t" (String "t" (String "p" (String "s"
           (String ":" (String "/" (String "/" (String "d" (String "r"
           (String "i" (String "v" (String "e" (String "." (String "g"
           (String "o" (String "o" (String "g" (String "l" (String "e"
           (String "." (String "c" (String "o" (String "m" (String "/"
           (String "t" (String "h" (String "u" (String "m" (String "b"
           (String "n" (String "a" (String "i" (String "l" (String "?"
           (String "i" (String "d" (String "="
              (id +:+ "&sz=w800"))))))))))))))))))))))))))))))))))))))).
    repeat (rewrite ucMatch_step by reflexivity).
    apply ucMatch_no_question. intros H.
    apply CatalogFacts.has_char_append in H.
    destruct H as [H|H]; [contradiction|].
    unfold has_char in H. cbn in H. intuition discriminate.
Qed.

Lemma convertGoogleDriveUrl_thumbnail_fixed_witness :
  convertGoogleDriveUrl (thumbnail "ABC123") = thumbnail "ABC123".
Proof.
  apply convertGoogleDriveUrl_thumbnail_fixed.
  - discriminate.
  - unfold has_char. cbn. intuition discriminate.
  - unfold has_char. cbn. intuition discriminate.
Defined.

End ImageLinkShapeFacts.

(** ** The embedding at work on small inputs *)

Module SanityChecks.
Import JSNumber Products Cart CartSpec CartExamples FeedExamples.

Example parseFloat_price : parseFloat " 12.50 ZAR" = Frac 12 D5 0.
Proof. reflexivity. Qed.

Example parseFloat_exponent : parseFloat "-3.25e2" = Int (-325).
Proof. reflexivity. Qed.

Example parseFloat_not_a_number : parseFloat "free" = NaN.
Proof. reflexivity. Qed.

Example parseFloat_out_of_range :
  parseFloat "1e-400" = Int 0
  /\ parseFloat "1e400" = Infinity
  /\ parseFloat "-1e400" = NegInfinity
  /\ parseFloat "1e-300" <> Int 0.
Proof. repeat split; vm_compute; (reflexivity || discriminate). Qed.

Example add_overflows :
  JSNumber.add (parseFloat "1e308") (parseFloat "1e308") = Infinity
  /\ JSNumber.mul (parseFloat "1e200") (parseFloat "1e200") = Infinity
  /\ JSNumber.mul (parseFloat "1e-200") (parseFloat "1e-200") = Int 0.
Proof. repeat split; vm_compute; reflexivity. Qed.

Example free_shipping_is_zero :
  List.map (fun p => p !! "shipping")
           (parseCSV CatalogSpec.free_shipping_feed)
  = [Some (VNum (Int 0))].
Proof. vm_compute. reflexivity. Qed.

Example category_in_capitals :
  option_map (List.map (fun p => p !! "id"))
    (Products.getByCategory (Some "t-SHIRTS") CatalogSpec.tee_and_cap)
  = Some [Some (VStr "1")].
Proof. vm_compute. reflexivity. Qed.

Example toString_notations :
  List.map toString
    [Int 450; Frac 12 D5 0; Frac (-1) D5 0; parseFloat "1e21";
     parseFloat "0.000001"; parseFloat "1.5e-7"]
  = ["450"; "12.5"; "-0.5"; "1e+21"; "0.000001"; "1.5e-7"].
Proof. reflexivity. Qed.

Example coerce_flags :
  List.map (coerce "in_stock") ["Yes"; "TRUE"; "1"; EmptyString; "no"; "2"]
  = [VBool true; VBool true; VBool true; VBool false; VBool false; VBool false].
Proof. reflexivity. Qed.

Example coerce_sizes : coerce "sizes" "S, M,,XL" = VList ["S"; "M"; "XL"].
Proof. reflexivity. Qed.

Example header_key_spaces : header_key " In  Stock " = "in_stock".
Proof. reflexivity. Qed.

Example tee_feed_row :
  parseCSV tee_feed
  = [ <["price" := VNum (Int 450)]>
        (<["name" := VStr "Tee"]> (<["id" := VStr "1"]> ∅)) ].
Proof. vm_compute. reflexivity. Qed.

Example demo_categories : extractCategories getDemoProducts = ["T-Shirts"; "Caps"].
Proof. vm_compute. reflexivity. Qed.

Example open_link :
  convertGoogleDriveUrl "https://drive.google.com/open?id=ABC123"
  = "https://drive.google.com/thumbnail?id=ABC123&sz=w800".
Proof. reflexivity. Qed.

Example update_to_zero_removes :
  let w := example_world [example_line "a" 100 10 2; example_line "b" 50 5 1] in
  getItemCount w = Int 3
  /\ getItemCount (updateQuantity 0 (Int 0) w) = Int 1.
Proof. split; reflexivity. Qed.

Example add_notifies_and_counts :
  let w := snd (add example_product "M" "Black" (Int 2) (example_world [])) in
  toasts w = [("Classic Logo Tee added to cart", "success")]
  /\ badges w = [Int 2].
Proof. split; reflexivity. Qed.

Example sort_prices :
  sort (fun n : number => n) (fun _ => EmptyString) (fun _ _ => Int 0)
       [Int 650; Int 450; Int 550] "price-low"
  = [Int 450; Int 550; Int 650]
  /\ sort (fun n : number => n) (fun _ => EmptyString) (fun _ _ => Int 0)
          [Int 650; Int 450; Int 550] "price-high"
     = [Int 650; Int 550; Int 450].
Proof. split; reflexivity. Qed.

Example slice_limits :
  slice_to (Int 2) ["a"; "b"; "c"] = ["a"; "b"]
  /\ slice_to (Frac 2 D5 0) ["a"; "b"; "c"] = ["a"; "b"]
  /\ slice_to (Int (-1)) ["a"; "b"; "c"] = ["a"; "b"]
  /\ slice_to NaN ["a"; "b"; "c"] = [].
Proof. repeat split; reflexivity. Qed.

Example search_description :
  option_map (List.map (fun p => p !! "id"))
    (Products.search (Some "COTTON") CatalogSpec.tee_and_cap)
  = Some [Some (VStr "1")].
Proof. vm_compute. reflexivity. Qed.

End SanityChecks.
